(** * Rural education platform: points, progress, achievements, offline sync

    A shallow embedding of the gamification core of the platform:

    - [backend/models/User.js], [backend/models/Progress.js],
      [backend/models/Achievement.js]: the table accessors;
    - [backend/routes/students.js] and [backend/routes/games.js]: the two
      mutating routes, [POST /students/progress] and
      [POST /games/:subject/:gameId/score];
    - the browser's [APIClient] and [OfflineManager]
      ([frontend/public/assets/js/offline.js]): the client's offline queue
      and its replay sweep.

    Conventions.  SQLite INTEGER columns and the JavaScript numbers computed
    from them are integers, modelled by [Z]; their sums are taken in [Z],
    which is what the code computes for JSON numbers as long as the sums stay
    below [2^53].  An integer field of a request body holds the number its
    JSON value denotes; the score of a game submission also keeps whether it
    came as a number or as a numeric string, which [===] tells apart.
    [completion_percentage] is validated with [isFloat] and stored in a REAL
    column: it is a binary64 value, modelled by the rational [Q] it denotes.
    [JSON.parse] and the arithmetic of the language round to the nearest
    binary64 value ([round64]); comparison, [Math.max] and [Math.floor] are
    exact.  A calendar date ['YYYY-MM-DD'] is modelled by its day number;
    string equality of two such dates is equality of day numbers. *)

From Stdlib Require Import ZArith QArith Qround Qabs Qpower Lia Lqa.
From stdpp Require Import gmap strings list.

Local Open Scope Z_scope.

(** ** The relational store *)

(** One row of [user_points] (UNIQUE(user_id)).  [subject_points] is a JSON
    object; a NULL column is read as [{}] by the code and is the empty map
    here.  [last_activity_date] is a nullable DATE. *)
Record PointsRow := mkPointsRow {
  up_user_id : Z;
  total_points : Z;
  current_level : Z;
  subject_points : gmap string Z;
  daily_streak : Z;
  last_activity_date : option Z
}.

(** One row of [student_progress]. *)
Record ProgressRow := mkProgressRow {
  sp_student_id : Z;
  sp_subject : string;
  sp_topic : string;
  completion_percentage : Q;
  sp_score : Z;
  time_spent : Z;
  attempts : Z
}.

(** One row of [achievements]. *)
Record AchievementRow := mkAchievementRow {
  ach_id : Z;
  ach_name : string;
  ach_points_required : Z;
  ach_category : string
}.

(** One row of [user_achievements] (UNIQUE(user_id, achievement_id)). *)
Record GrantRow := mkGrantRow {
  ua_user_id : Z;
  ua_achievement_id : Z
}.

(** One row of [game_scores]. *)
Record GameScoreRow := mkGameScoreRow {
  gs_user_id : Z;
  gs_game_name : string;
  gs_subject : string;
  gs_score : Z;
  gs_level_completed : Z;
  gs_time_taken : Z;
  gs_points_earned : Z
}.

(** The database handle returned by [getDatabase()].  [faults] is the fate
    of the coming statements, one entry per statement in the order they are
    issued: [true] makes the statement call back with an error.  The empty
    plan is a store that does not fail. *)
Record Db := mkDb {
  user_points : list PointsRow;
  student_progress : list ProgressRow;
  achievements : list AchievementRow;
  user_achievements : list GrantRow;
  game_scores : list GameScoreRow;
  faults : list bool
}.

Definition set_user_points (t : list PointsRow) (d : Db) : Db :=
  mkDb t (student_progress d) (achievements d) (user_achievements d)
       (game_scores d) (faults d).

Definition set_student_progress (t : list ProgressRow) (d : Db) : Db :=
  mkDb (user_points d) t (achievements d) (user_achievements d)
       (game_scores d) (faults d).

Definition set_user_achievements (t : list GrantRow) (d : Db) : Db :=
  mkDb (user_points d) (student_progress d) (achievements d) t
       (game_scores d) (faults d).

Definition set_game_scores (t : list GameScoreRow) (d : Db) : Db :=
  mkDb (user_points d) (student_progress d) (achievements d)
       (user_achievements d) t (faults d).

Definition set_faults (f : list bool) (d : Db) : Db :=
  mkDb (user_points d) (student_progress d) (achievements d)
       (user_achievements d) (game_scores d) f.

(** ** Promises over the store *)

Inductive Error :=
| StoreError   (* the [err] a statement calls back with *)
| OutOfFuel.   (* the model's recursion bound was reached *)

(** An [async] function of the backend: it runs against the store and either
    rejects or resolves. *)
Definition Async (A : Type) : Type := Db -> (Error + A) * Db.

Definition resolve {A} (a : A) : Async A := fun d => (inr a, d).

Definition reject {A} (e : Error) : Async A := fun d => (inl e, d).

Definition await {A B} (m : Async A) (k : A -> Async B) : Async B :=
  fun d =>
    match m d with
    | (inl e, d') => (inl e, d')
    | (inr a, d') => k a d'
    end.

Definition try_catch {A} (m : Async A) (h : Error -> Async A) : Async A :=
  fun d =>
    match m d with
    | (inl e, d') => h e d'
    | (inr a, d') => (inr a, d')
    end.

Notation "'let!' x ':=' m 'in' k" := (await m (fun x => k))
  (at level 10, x name, m at level 100, k at level 200).

(** One statement sent to the store ([db.get], [db.all], [stmt.run]): it
    consumes one entry of the fault plan. *)
Definition sql {A} (q : Db -> A * Db) : Async A :=
  fun d =>
    match faults d with
    | true :: fs => (inl StoreError, set_faults fs d)
    | false :: fs => let (a, d') := q (set_faults fs d) in (inr a, d')
    | [] => let (a, d') := q d in (inr a, d')
    end.

Definition query {A} (q : Db -> A) : Async A := sql (fun d => (q d, d)).

Definition exec (q : Db -> Db) : Async unit := sql (fun d => (tt, q d)).

(** ** [User.initializeUserPoints] and the points engine *)

Definition select_user_points (userId : Z) (d : Db) : option PointsRow :=
  List.find (fun r => up_user_id r =? userId) (user_points d).

Module User.

(** [INSERT OR IGNORE INTO user_points (...) VALUES (?, 0, 1, '{}', 0,
    date('now'))]: the UNIQUE(user_id) constraint turns the insert into a
    no-op when the user already has a row.  [today] is the store's
    [date('now')].  The resolved [lastID] is not read by any caller. *)
Definition initializeUserPoints (today userId : Z) : Async unit :=
  exec (fun d =>
    match select_user_points userId d with
    | Some _ => d
    | None =>
        set_user_points
          (user_points d ++ [mkPointsRow userId 0 1 ∅ 0 (Some today)]) d
    end).

End User.

(** What [updateUserPoints] resolves with. *)
Record PointsUpdate := mkPointsUpdate {
  pu_total_points : Z;
  pu_current_level : Z;
  pu_subject_points : gmap string Z;
  pu_daily_streak : Z
}.

(** The streak computed by [updateUserPoints].  [today] is
    [new Date().toISOString().split('T')[0]]; the string built from
    [yesterday.setDate(yesterday.getDate() - 1)] is the day before it (the
    clock is read once per award, and a shift of the server's local time
    between the two days is not modelled). *)
Definition newStreak (today : Z) (lastActivity : option Z) (daily_streak : Z) : Z :=
  if bool_decide (lastActivity = Some today) then daily_streak
  else if bool_decide (lastActivity = Some (today - 1)) then daily_streak + 1
  else 1.

(** [UPDATE user_points SET ... WHERE user_id = ?]. *)
Definition update_user_points (userId : Z) (new : PointsRow -> PointsRow) (d : Db) : Db :=
  set_user_points
    (List.map (fun r => if up_user_id r =? userId then new r else r)
              (user_points d)) d.

(** [updateUserPoints(userId, pointsToAdd, subject)] of routes/students.js.
    The function calls itself after initialising a missing row; [fuel]
    bounds that recursion. *)
Fixpoint updateUserPoints (fuel : nat) (today userId pointsToAdd : Z)
    (subject : string) : Async PointsUpdate :=
  match fuel with
  | O => reject OutOfFuel
  | S fuel' =>
      let! currentPoints := query (select_user_points userId) in
      match currentPoints with
      | None =>
          let! _ := User.initializeUserPoints today userId in
          updateUserPoints fuel' today userId pointsToAdd subject
      | Some currentPoints =>
          let newTotalPoints := total_points currentPoints + pointsToAdd in
          let newLevel := newTotalPoints / 100 + 1 in
          let subjectPoints :=
            <[subject :=
                default 0 (subject_points currentPoints !! subject) + pointsToAdd]>
              (subject_points currentPoints) in
          let streak :=
            newStreak today (last_activity_date currentPoints)
                      (daily_streak currentPoints) in
          let! _ :=
            exec (update_user_points userId (fun r =>
              mkPointsRow (up_user_id r) newTotalPoints newLevel subjectPoints
                          streak (Some today))) in
          resolve (mkPointsUpdate newTotalPoints newLevel subjectPoints streak)
      end
  end.

(** ** Numbers

    A JavaScript number is an IEEE 754 binary64 value.  The finite ones are
    the rationals [m * 2^e] with [|m| <= 2^53] and [-1074 <= e]; parsing a
    literal and every arithmetic operation yield the one nearest to the exact
    value, a tie going to the even mantissa.  The numbers of this model stay
    far below [2^1024], where rounding overflows. *)

(** [2^e], for an exponent of either sign. *)
Definition pow2 (e : Z) : Q := (2 ^ e)%Q.

(** The exponent of the binade of [x]: the [k] with [2^k <= |x| < 2^(k+1)],
    for an [x] that is not zero. *)
Definition binade (x : Q) : Z :=
  let k := Z.log2 (Z.abs (Qnum x)) - Z.log2 (Zpos (Qden x)) in
  if Qle_bool (pow2 k) (Qabs x) then k else k - 1.

(** The nearest integer, a tie going to the even one. *)
Definition round_half_even (y : Q) : Z :=
  let f := Qfloor y in
  match (y - inject_Z f ?= 1 # 2)%Q with
  | Lt => f
  | Gt => f + 1
  | Eq => if Z.even f then f else f + 1
  end.

(** The exponent of the unit in the last place of the doubles of the binade
    of [x]: 53 bits of mantissa, and no exponent below that of the subnormal
    numbers. *)
Definition ulp_exponent (x : Q) : Z := Z.max (binade x - 52) (-1074).

(** The double nearest to [x], as a reduced fraction. *)
Definition round64 (x : Q) : Q :=
  if Qeq_bool x 0 then 0%Q
  else
    let e := ulp_exponent x in
    Qred (inject_Z (round_half_even (x / pow2 e)) * pow2 e).

(** [x - y] and [x / y] on numbers. *)
Definition fsub (x y : Q) : Q := round64 (x - y).

Definition fdiv (x y : Q) : Q := round64 (x / y).

(** [Math.floor]. *)
Definition Math_floor (x : Q) : Z := Qfloor x.

(** The finite doubles, as rationals. *)
Definition binary64 (f : Q) : Prop :=
  exists m e : Z,
    (f == inject_Z m * pow2 e)%Q /\ Z.abs m <= 2 ^ 53 /\ -1074 <= e.

(** A value of [req.body] that [isInt] lets through: a JSON number, or a
    string that spells an integer.  Arithmetic, [>=] and the store read
    either as the integer; [===] with a number is false for the string. *)
Inductive JsInt :=
| JsNumber (n : Z)
| JsString (n : Z).   (* the integer the string spells *)

Definition to_number (v : JsInt) : Z :=
  match v with
  | JsNumber n => n
  | JsString n => n
  end.

(** ** [Progress.updateProgress] *)

(** [Math.max] on completion percentages. *)
Definition Math_max (a b : Q) : Q := if Qle_bool a b then b else a.

(** What [Progress.updateProgress] resolves with: [{ created: true, ... }]
    or [{ updated: true, ... }]. *)
Record ProgressResult := mkProgressResult {
  created : bool;
  updated : bool;
  pr_completion_percentage : Q;
  pr_score : Z;
  pr_attempts : Z
}.

Module Progress.

(** [WHERE student_id = ? AND subject = ? AND topic = ?]. *)
Definition matches (studentId : Z) (subject topic : string) (r : ProgressRow) : bool :=
  (sp_student_id r =? studentId)
  && bool_decide (sp_subject r = subject)
  && bool_decide (sp_topic r = topic).

Definition getTopicProgress_row (studentId : Z) (subject topic : string) (d : Db)
  : option ProgressRow :=
  List.find (matches studentId subject topic) (student_progress d).

Definition updateProgress (studentId : Z) (subject topic : string)
    (completionPercentage : Q) (score timeSpent : Z) : Async ProgressResult :=
  let! existingProgress := query (getTopicProgress_row studentId subject topic) in
  match existingProgress with
  | Some existingProgress =>
      let newAttempts := attempts existingProgress + 1 in
      let newTimeSpent := time_spent existingProgress + timeSpent in
      let newScore := Z.max (sp_score existingProgress) score in
      let newCompletion :=
        Math_max (completion_percentage existingProgress) completionPercentage in
      let! _ :=
        exec (fun d =>
          set_student_progress
            (List.map (fun r =>
               if matches studentId subject topic r
               then mkProgressRow (sp_student_id r) (sp_subject r) (sp_topic r)
                                  newCompletion newScore newTimeSpent newAttempts
               else r) (student_progress d)) d) in
      resolve (mkProgressResult false true newCompletion newScore newAttempts)
  | None =>
      let! _ :=
        exec (fun d =>
          set_student_progress
            (student_progress d ++
             [mkProgressRow studentId subject topic completionPercentage
                            score timeSpent 1]) d) in
      resolve (mkProgressResult true false completionPercentage score 1)
  end.

End Progress.

(** ** [Achievement]: the evaluator *)

(** The snapshot built by [Achievement.getUserStats].  [AVG(score)] is
    selected by the second query but read by no rule; it is left out. *)
Record UserPointsStats := mkUserPointsStats {
  st_total_points : Z;
  st_daily_streak : Z
}.

Record ProgressStats := mkProgressStats {
  total_activities : Z;
  completed_activities : Z;
  high_score_count : Z
}.

Record GameStats := mkGameStats {
  unique_games_played : Z;
  total_games_played : Z;
  highest_game_score : option Z
}.

Record SubjectProgress := mkSubjectProgress {
  subj_subject : string;
  topic_count : Z;
  completed_topics : Z
}.

Record UserStats := mkUserStats {
  userPoints : UserPointsStats;
  progressStats : ProgressStats;
  gameStats : GameStats;
  subjectProgress : list SubjectProgress
}.

(** [COUNT(...)] over the rows a predicate keeps. *)
Definition count {A} (p : A -> bool) (l : list A) : Z :=
  Z.of_nat (length (List.filter p l)).

(** [MAX(...)], NULL on no rows; also [Math.max(...xs)], whose value on the
    empty list ([-Infinity]) is [None] here. *)
Definition max_of (l : list Z) : option Z :=
  match l with
  | [] => None
  | x :: l' => Some (List.fold_left Z.max l' x)
  end.

Definition completed (r : ProgressRow) : bool :=
  Qle_bool 100 (completion_percentage r).

Module Achievement.

(** [ORDER BY category, points_required], on the bytes of [category];
    rows with equal keys stay in insertion order. *)
Definition catalog_le (a b : AchievementRow) : bool :=
  match String.compare (ach_category a) (ach_category b) with
  | Lt => true
  | Eq => ach_points_required a <=? ach_points_required b
  | Gt => false
  end.

Fixpoint insert_sorted (a : AchievementRow) (l : list AchievementRow)
  : list AchievementRow :=
  match l with
  | [] => [a]
  | b :: l' => if catalog_le a b then a :: b :: l' else b :: insert_sorted a l'
  end.

Definition order_catalog (l : list AchievementRow) : list AchievementRow :=
  List.fold_right insert_sorted [] l.

Definition getAllAchievements : Async (list AchievementRow) :=
  query (fun d => order_catalog (achievements d)).

(** [achievements a JOIN user_achievements ua ON a.id = ua.achievement_id
    WHERE ua.user_id = ?].  The caller reads only the [id]s of the result,
    so its [ORDER BY ua.earned_at DESC] is not modelled. *)
Definition getUserAchievements (userId : Z) : Async (list AchievementRow) :=
  query (fun d =>
    List.flat_map (fun ua =>
      if ua_user_id ua =? userId
      then List.filter (fun a => ach_id a =? ua_achievement_id ua) (achievements d)
      else []) (user_achievements d)).

Definition select_userPoints (userId : Z) (d : Db) : UserPointsStats :=
  match select_user_points userId d with
  | Some r => mkUserPointsStats (total_points r) (daily_streak r)
  | None => mkUserPointsStats 0 0
  end.

Definition select_progressStats (userId : Z) (d : Db) : ProgressStats :=
  let rows := List.filter (fun r => sp_student_id r =? userId) (student_progress d) in
  mkProgressStats (Z.of_nat (length rows))
                  (count completed rows)
                  (count (fun r => 90 <=? sp_score r) rows).

Definition select_gameStats (userId : Z) (d : Db) : GameStats :=
  let rows := List.filter (fun r => gs_user_id r =? userId) (game_scores d) in
  mkGameStats (Z.of_nat (length (remove_dups (List.map gs_game_name rows))))
              (Z.of_nat (length rows))
              (max_of (List.map gs_score rows)).

Definition select_subjectProgress (userId : Z) (d : Db) : list SubjectProgress :=
  let rows := List.filter (fun r => sp_student_id r =? userId) (student_progress d) in
  List.map (fun s =>
    let group := List.filter (fun r => bool_decide (sp_subject r = s)) rows in
    mkSubjectProgress s (Z.of_nat (length group)) (count completed group))
    (remove_dups (List.map sp_subject rows)).

(** A statement whose outcome is kept instead of propagated. *)
Definition settled {A} (m : Async A) : Async (Error + A) :=
  fun d => let (r, d') := m d in (inr r, d').

(** [getUserStats] issues its four statements at once; each calls back
    on its own, the promise rejects with the first error and resolves when
    all four have answered. *)
Definition getUserStats (userId : Z) : Async UserStats :=
  let! r0 := settled (query (select_userPoints userId)) in
  let! r1 := settled (query (select_progressStats userId)) in
  let! r2 := settled (query (select_gameStats userId)) in
  let! r3 := settled (query (select_subjectProgress userId)) in
  match r0, r1, r2, r3 with
  | inr up, inr ps, inr gs, inr sp => resolve (mkUserStats up ps gs sp)
  | inl e, _, _, _ => reject e
  | _, inl e, _, _ => reject e
  | _, _, inl e, _ => reject e
  | _, _, _, inl e => reject e
  end.

(** [subjectProgress.find(s => s.subject === subject)] followed by
    [p && p.completed_topics >= n]. *)
Definition subject_completed (subject : string) (n : Z)
    (sp : list SubjectProgress) : bool :=
  match List.find (fun s => bool_decide (subj_subject s = subject)) sp with
  | Some p => n <=? completed_topics p
  | None => false
  end.

Definition checkAchievementCriteria (achievement : AchievementRow)
    (userStats : UserStats) : bool :=
  let name := ach_name achievement in
  if bool_decide (name = "First Steps") then
    1 <=? completed_activities (progressStats userStats)
  else if bool_decide (name = "Game Master") then
    5 <=? unique_games_played (gameStats userStats)
  else if bool_decide (name = "Physics Explorer") then
    subject_completed "physics" 10 (subjectProgress userStats)
  else if bool_decide (name = "Chemistry Wizard") then
    subject_completed "chemistry" 10 (subjectProgress userStats)
  else if bool_decide (name = "Math Genius") then
    subject_completed "math" 20 (subjectProgress userStats)
  else if bool_decide (name = "Biology Expert") then
    subject_completed "biology" 10 (subjectProgress userStats)
  else if bool_decide (name = "Daily Learner") then
    7 <=? st_daily_streak (userPoints userStats)
  else if bool_decide (name = "High Achiever") then
    10 <=? high_score_count (progressStats userStats)
  else
    ach_points_required achievement <=? st_total_points (userPoints userStats).

Definition granted (userId achievementId : Z) (t : list GrantRow) : bool :=
  existsb (fun ua => (ua_user_id ua =? userId)
                     && (ua_achievement_id ua =? achievementId)) t.

(** [INSERT OR IGNORE INTO user_achievements]; resolves with
    [this.changes > 0]. *)
Definition awardAchievement (userId achievementId : Z) : Async bool :=
  sql (fun d =>
    if granted userId achievementId (user_achievements d)
    then (false, d)
    else (true,
          set_user_achievements
            (user_achievements d ++ [mkGrantRow userId achievementId]) d)).

(** The [for (const achievement of allAchievements)] loop. *)
Fixpoint award_each (userId : Z) (earnedIds : list Z) (userStats : UserStats)
    (allAchievements newAchievements : list AchievementRow)
  : Async (list AchievementRow) :=
  match allAchievements with
  | [] => resolve newAchievements
  | achievement :: rest =>
      if existsb (Z.eqb (ach_id achievement)) earnedIds then
        award_each userId earnedIds userStats rest newAchievements
      else if checkAchievementCriteria achievement userStats then
        let! _ := awardAchievement userId (ach_id achievement) in
        award_each userId earnedIds userStats rest
                   (newAchievements ++ [achievement])
      else
        award_each userId earnedIds userStats rest newAchievements
  end.

(** The body of the [try] block. *)
Definition checkAndAward_body (userId : Z) : Async (list AchievementRow) :=
  let! earnedAchievements := getUserAchievements userId in
  let earnedIds := List.map ach_id earnedAchievements in
  let! userStats := getUserStats userId in
  let! allAchievements := getAllAchievements in
  award_each userId earnedIds userStats allAchievements [].

Definition checkAndAwardAchievements (userId : Z) : Async (list AchievementRow) :=
  try_catch (checkAndAward_body userId) (fun _ => resolve []).

End Achievement.

(** ** [POST /students/progress] *)

Definition subjects : list string := ["physics"; "chemistry"; "math"; "biology"].

Definition isIn (x : string) (l : list string) : bool :=
  existsb (fun y => bool_decide (x = y)) l.

(** The fuel given to [updateUserPoints] by its callers: the call and the
    one it makes to itself after initialising the row. *)
Definition updateUserPoints_depth : nat := 2.

Module Students.

(** [req.body]; [score] and [time_spent] are optional.
    [body_completion_json] is the number as the JSON text writes it. *)
Record ProgressBody := mkProgressBody {
  body_subject : string;
  body_topic : string;
  body_completion_json : Q;
  body_score : option Z;
  body_time_spent : option Z
}.

(** [req.body.completion_percentage]: [JSON.parse] reads the literal as the
    nearest double.  (A numeric string is read as the same number by
    [isFloat], by the arithmetic and by the store.) *)
Definition body_completion_percentage (body : ProgressBody) : Q :=
  round64 (body_completion_json body).

Definition within (lo hi : Z) (o : option Z) : bool :=
  match o with
  | Some x => (lo <=? x) && (x <=? hi)
  | None => true
  end.

Definition at_least (lo : Z) (o : option Z) : bool :=
  match o with
  | Some x => lo <=? x
  | None => true
  end.

(** The [express-validator] chain of the route.  [String.length] counts the
    bytes of the topic, which are its characters when it is ASCII. *)
Definition valid (body : ProgressBody) : bool :=
  isIn (body_subject body) subjects
  && (1 <=? Z.of_nat (String.length (body_topic body)))
  && (Z.of_nat (String.length (body_topic body)) <=? 100)
  && Qle_bool 0 (body_completion_percentage body)
  && Qle_bool (body_completion_percentage body) 100
  && within 0 100 (body_score body)
  && at_least 0 (body_time_spent body).

Inductive Response :=
| Ok (progress : ProgressResult) (pointsEarned : Z)
     (newAchievements : list AchievementRow)   (* 200 *)
| ValidationFailed                             (* 400 *)
| Failed.                                      (* 500 *)

(** "Calculate points earned". *)
Definition pointsEarned (progressResult : ProgressResult)
    (completion_percentage : Q) (score : Z) : Z :=
  if created progressResult then
    Math_floor (fdiv completion_percentage 10)
    + (if 80 <=? score then 20 else if 60 <=? score then 10 else 5)
  else if updated progressResult then
    Math_floor (fdiv (fsub completion_percentage 50) 10) * 2
  else 0.

Definition progress_handler (today studentId : Z) (body : ProgressBody)
  : Async Response :=
  let subject := body_subject body in
  let topic := body_topic body in
  let completion_percentage := body_completion_percentage body in
  let score := default 0 (body_score body) in
  let time_spent := default 0 (body_time_spent body) in
  let! progressResult :=
    Progress.updateProgress studentId subject topic completion_percentage
                            score time_spent in
  let pointsEarned := pointsEarned progressResult completion_percentage score in
  let! _ :=
    (if 0 <? pointsEarned
     then let! _ := updateUserPoints updateUserPoints_depth today studentId
                                      pointsEarned subject in
          resolve tt
     else resolve tt) in
  let! newAchievements := Achievement.checkAndAwardAchievements studentId in
  resolve (Ok progressResult pointsEarned newAchievements).

(** The route: validation, the handler, and the [catch] that answers 500.
    [today] is the calendar date at which the request is served. *)
Definition post_progress (today studentId : Z) (body : ProgressBody) (d : Db)
  : Response * Db :=
  if valid body then
    match progress_handler today studentId body d with
    | (inr r, d') => (r, d')
    | (inl _, d') => (Failed, d')
    end
  else (ValidationFailed, d).

End Students.

(** ** [POST /games/:subject/:gameId/score] *)

Module Games.

(** [req.body]; [game_data] is validated, passed to [saveGameScore] and
    not stored.  [body_score_json] is the score as the body carries it. *)
Record ScoreBody := {
  body_score_json : JsInt;
  body_level_completed : option Z;
  body_time_taken : option Z
}.

(** A body whose score is a JSON number. *)
Definition mkScoreBody (score : Z) (level_completed time_taken : option Z)
  : ScoreBody :=
  Build_ScoreBody (JsNumber score) level_completed time_taken.

(** The score as a number. *)
Definition body_score (body : ScoreBody) : Z := to_number (body_score_json body).

(** [score === bestScore]; [bestScore] is a number. *)
Definition strict_equal (score : JsInt) (bestScore : option Z) : bool :=
  match score with
  | JsNumber n => bool_decide (Some n = bestScore)
  | JsString _ => false
  end.

Definition valid (body : ScoreBody) : bool :=
  (0 <=? body_score body) && (body_score body <=? 1000)
  && Students.within 1 10 (body_level_completed body)
  && Students.at_least 1 (body_time_taken body).

(** The answer of the route; [score] is the number the body's score
    denotes. *)
Inductive Response :=
| Ok (score pointsEarned : Z) (isNewRecord : bool) (bestScore : option Z)
     (totalPlays : Z)                          (* 200 *)
| ValidationFailed                             (* 400 *)
| InvalidSubject                               (* 400 *)
| Failed.                                      (* 500 *)

(** "Calculate points based on score and time". *)
Definition pointsEarned (score time_taken : Z) : Z :=
  let p := score / 10 in
  let p := if 90 <=? score then p + 20 else p in
  let p := if 70 <=? score then p + 10 else p in
  if (0 <? time_taken) && (time_taken <? 300) then p + 5 else p.

Definition getUserGameScores (userId : Z) (gameName : string)
  : Async (list GameScoreRow) :=
  query (fun d =>
    List.filter (fun r => (gs_user_id r =? userId)
                          && bool_decide (gs_game_name r = gameName))
                (game_scores d)).

Definition saveGameScore (userId : Z) (gameName subject : string)
    (score levelCompleted timeTaken pointsEarned : Z) : Async unit :=
  exec (fun d =>
    set_game_scores
      (game_scores d ++
       [mkGameScoreRow userId gameName subject score levelCompleted
                       timeTaken pointsEarned]) d).

Definition score_handler (userId : Z) (subject gameId : string)
    (body : ScoreBody) : Async Response :=
  let score := body_score_json body in
  let level_completed := default 1 (body_level_completed body) in
  let time_taken := default 0 (body_time_taken body) in
  let pointsEarned := pointsEarned (to_number score) time_taken in
  let! _ := saveGameScore userId gameId subject (to_number score)
                          level_completed time_taken pointsEarned in
  let! userScores := getUserGameScores userId gameId in
  let bestScore := max_of (List.map gs_score userScores) in
  let isNewRecord := strict_equal score bestScore in
  resolve (Ok (to_number score) pointsEarned isNewRecord bestScore
              (Z.of_nat (length userScores))).

Definition post_score (userId : Z) (subject gameId : string)
    (body : ScoreBody) (d : Db) : Response * Db :=
  if valid body then
    if isIn subject subjects then
      match score_handler userId subject gameId body d with
      | (inr r, d') => (r, d')
      | (inl _, d') => (Failed, d')
      end
    else (InvalidSubject, d)
  else (ValidationFailed, d).

End Games.

(** ** The browser: [APIClient] and [OfflineManager] *)

Module Client.

(** The two mutating requests the client can queue. *)
Inductive Request :=
| PostProgress (progressData : Students.ProgressBody)
| PostScore (subject gameId : string) (scoreData : Games.ScoreBody).

(** Entries of the object stores [offline_progress] and [offline_scores]
    ([keyPath: 'id', autoIncrement]).  Their [timestamp] is read by no
    code of the client and is left out. *)
Record QueuedProgress := mkQueuedProgress {
  qp_id : Z;
  qp_progressData : Students.ProgressBody;
  qp_token : option string
}.

Record QueuedScore := mkQueuedScore {
  qs_id : Z;
  qs_subject : string;
  qs_gameId : string;
  qs_scoreData : Games.ScoreBody;
  qs_token : option string
}.

(** What a [fetch] does: the server answers with a status, or the promise
    rejects. *)
Inductive FetchResult :=
| Responded (status : Z)
| NetworkError.

(** One entry of the network's script: the fate of the next [fetch] and
    the value of [navigator.onLine] once it has settled. *)
Record NetEvent := mkNetEvent {
  fetched : FetchResult;
  onLine_then : bool
}.

(** A call of [syncOfflineData] that has not returned yet, by the [await]
    at which it is suspended. *)
Inductive Sweep :=
| AwaitOpen       (* await this.openIndexedDB() *)
| AwaitGetAll.    (* await progressStore.getAll() *)

(** The page.  A request placed on an object store ([add], [delete]) is
    carried out, and only opening the database can fail
    ([indexedDB_opens]).  [network] scripts the coming
    fetches; when it is empty the server answers 200.  [sent] lists the
    requests handed to [fetch], oldest first. *)
Record Browser := mkBrowser {
  onLine : bool;             (* navigator.onLine *)
  isOnline : bool;           (* OfflineManager.isOnline *)
  authToken : option string;
  indexedDB_opens : bool;
  offline_progress : list QueuedProgress;
  progress_key : Z;
  offline_scores : list QueuedScore;
  scores_key : Z;
  network : list NetEvent;
  sent : list Request;
  sweeps : list Sweep
}.

Definition set_online (nav mgr : bool) (b : Browser) : Browser :=
  mkBrowser nav mgr (authToken b) (indexedDB_opens b) (offline_progress b)
            (progress_key b) (offline_scores b) (scores_key b) (network b)
            (sent b) (sweeps b).

Definition set_authToken (t : option string) (b : Browser) : Browser :=
  mkBrowser (onLine b) (isOnline b) t (indexedDB_opens b) (offline_progress b)
            (progress_key b) (offline_scores b) (scores_key b) (network b)
            (sent b) (sweeps b).

Definition set_offline_progress (q : list QueuedProgress) (k : Z) (b : Browser)
  : Browser :=
  mkBrowser (onLine b) (isOnline b) (authToken b) (indexedDB_opens b) q k
            (offline_scores b) (scores_key b) (network b) (sent b) (sweeps b).

Definition set_offline_scores (q : list QueuedScore) (k : Z) (b : Browser)
  : Browser :=
  mkBrowser (onLine b) (isOnline b) (authToken b) (indexedDB_opens b)
            (offline_progress b) (progress_key b) q k (network b) (sent b)
            (sweeps b).

Definition set_sweeps (s : list Sweep) (b : Browser) : Browser :=
  mkBrowser (onLine b) (isOnline b) (authToken b) (indexedDB_opens b)
            (offline_progress b) (progress_key b) (offline_scores b)
            (scores_key b) (network b) (sent b) s.

(** [fetch(url, config)]: the request leaves, the script says what comes
    back. *)
Definition fetch (req : Request) (b : Browser) : FetchResult * Browser :=
  match network b with
  | ev :: rest =>
      (fetched ev,
       mkBrowser (onLine_then ev) (isOnline b) (authToken b)
                 (indexedDB_opens b) (offline_progress b) (progress_key b)
                 (offline_scores b) (scores_key b) rest (sent b ++ [req])
                 (sweeps b))
  | [] =>
      (Responded 200,
       mkBrowser (onLine b) (isOnline b) (authToken b) (indexedDB_opens b)
                 (offline_progress b) (progress_key b) (offline_scores b)
                 (scores_key b) [] (sent b ++ [req]) (sweeps b))
  end.

(** [response.ok]. *)
Definition ok (status : Z) : bool := (200 <=? status) && (status <=? 299).

(** What [request] hands back: the parsed body, or, from its [catch]
    block while offline, [getCachedData(endpoint) || { error: ... }] (the
    promise of [getCachedData], which resolves with [null]: what it awaits
    from [store.get] is an [IDBRequest] without a [timestamp]). *)
Inductive Reply :=
| Json
| CachedOrOfflineError.

Inductive Outcome :=
| Returned (r : Reply)
| Thrown.

(** The [catch (error)] block of [request]. *)
Definition request_catch (b : Browser) : Outcome * Browser :=
  if negb (onLine b) then (Returned CachedOrOfflineError, b) else (Thrown, b).

(** [APIClient.request]. *)
Definition request (req : Request) (b : Browser) : Outcome * Browser :=
  let (r, b1) := fetch req b in
  match r with
  | Responded status =>
      if ok status then (Returned Json, b1)
      else if status =? 401 then request_catch (set_authToken None b1)
      else request_catch b1
  | NetworkError => request_catch b1
  end.

Definition post (req : Request) (b : Browser) : Outcome * Browser :=
  request req b.

(** [storeOfflineProgress]: [store.add] places the request, which the
    transaction carries out under the store's next [autoIncrement] key; the
    [try]/[catch] swallows a failure to open the database. *)
Definition storeOfflineProgress (progressData : Students.ProgressBody)
    (b : Browser) : Browser :=
  if indexedDB_opens b then
    set_offline_progress
      (offline_progress b ++
       [mkQueuedProgress (progress_key b) progressData (authToken b)])
      (progress_key b + 1) b
  else b.

Definition storeOfflineScore (subject gameId : string)
    (scoreData : Games.ScoreBody) (b : Browser) : Browser :=
  if indexedDB_opens b then
    set_offline_scores
      (offline_scores b ++
       [mkQueuedScore (scores_key b) subject gameId scoreData (authToken b)])
      (scores_key b + 1) b
  else b.

Inductive Submitted :=
| SavedOffline               (* { message: '... saved offline', offline: true } *)
| Posted (o : Outcome).

(** [APIClient.updateProgress]. *)
Definition updateProgress (progressData : Students.ProgressBody)
    (b : Browser) : Submitted * Browser :=
  if negb (onLine b) then (SavedOffline, storeOfflineProgress progressData b)
  else let (o, b') := post (PostProgress progressData) b in (Posted o, b').

(** [APIClient.submitGameScore]. *)
Definition submitGameScore (subject gameId : string)
    (scoreData : Games.ScoreBody) (b : Browser) : Submitted * Browser :=
  if negb (onLine b) then
    (SavedOffline, storeOfflineScore subject gameId scoreData b)
  else let (o, b') := post (PostScore subject gameId scoreData) b in
       (Posted o, b').

(** [store.delete(item.id)]. *)
Definition delete_progress (id : Z) (b : Browser) : Browser :=
  set_offline_progress
    (List.filter (fun i => negb (qp_id i =? id)) (offline_progress b))
    (progress_key b) b.

Definition delete_score (id : Z) (b : Browser) : Browser :=
  set_offline_scores
    (List.filter (fun i => negb (qs_id i =? id)) (offline_scores b))
    (scores_key b) b.

(** The body of the first [for] loop of [syncOfflineData]:
    [try { await this.post(...); await progressStore.delete(item.id) }
     catch { console.error(...) }]. *)
Definition replay_progress (item : QueuedProgress) (b : Browser) : Browser :=
  match post (PostProgress (qp_progressData item)) b with
  | (Returned _, b') => delete_progress (qp_id item) b'
  | (Thrown, b') => b'
  end.

(** The body of the second loop. *)
Definition replay_score (item : QueuedScore) (b : Browser) : Browser :=
  match post (PostScore (qs_subject item) (qs_gameId item) (qs_scoreData item)) b with
  | (Returned _, b') => delete_score (qs_id item) b'
  | (Thrown, b') => b'
  end.

(** What [store.getAll()] returns: an [IDBRequest].  The rows come with
    its [success] event, in [request.result]; the client sets no handler and
    reads [result] nowhere. *)
Record IDBRequest (A : Type) := mkIDBRequest {
  result : list A
}.

Arguments mkIDBRequest {A} _.
Arguments result {A} _.

Definition getAll {A} (rows : list A) : IDBRequest A := mkIDBRequest rows.

(** How a statement completes. *)
Inductive Completion :=
| Normal (b : Browser)
| TypeError.

(** [for (const item of v) body] with the value of [await store.getAll()]
    for [v].  An [IDBRequest] is no promise, so [await] hands back the
    request itself, one turn of the loop later; it has no iterator, so the
    statement throws a [TypeError] and [body] runs for no item. *)
Definition for_of {A} (v : IDBRequest A) (body : A -> Browser -> Browser)
    (b : Browser) : Completion :=
  TypeError.

(** [syncOfflineData] from its second loop on. *)
Definition sync_scores (b : Browser) : Browser :=
  let scoresData := getAll (offline_scores b) in
  match for_of scoresData replay_score b with
  | Normal b' => b'
  | TypeError => b                  (* the outer [catch] *)
  end.

(** [syncOfflineData] from its first loop on. *)
Definition sync_progress (b : Browser) : Browser :=
  let progressData := getAll (offline_progress b) in
  match for_of progressData replay_progress b with
  | Normal b' => sync_scores b'
  | TypeError => b                  (* the outer [catch] *)
  end.

(** [APIClient.syncOfflineData], run from its first line to its last with
    nothing else scheduled in between.  A database that does not open
    rejects [openIndexedDB()], which the outer [catch] logs. *)
Definition syncOfflineData (b : Browser) : Browser :=
  if negb (onLine b) then b
  else if negb (indexedDB_opens b) then b
  else sync_progress b.

(** *** The event loop

    [syncOfflineData] is an [async] function: while it waits at an [await]
    the page handles other events.  A call that has started and not yet
    returned sits in [sweeps]. *)

(** The call of [syncOfflineData()], up to its first [await]. *)
Definition start_sweep (b : Browser) : Browser :=
  if negb (onLine b) then b
  else set_sweeps (sweeps b ++ [AwaitOpen]) b.

(** [OfflineManager.syncPendingData]. *)
Definition syncPendingData (b : Browser) : Browser :=
  if negb (isOnline b) then b else start_sweep b.

(** The [i]-th running call returns. *)
Definition returns (i : nat) (b : Browser) : Browser :=
  set_sweeps (take i (sweeps b) ++ drop (S i) (sweeps b)) b.

(** The [i]-th running call takes its next step: the database opens or
    the call ends in its [catch]; after [getAll()] the rest of the function
    runs, and throws at its first [for]. *)
Definition resume (i : nat) (b : Browser) : Browser :=
  match sweeps b !! i with
  | Some AwaitOpen =>
      if indexedDB_opens b
      then set_sweeps (<[i := AwaitGetAll]> (sweeps b)) b
      else returns i b
  | Some AwaitGetAll => returns i (sync_progress b)
  | None => b
  end.

Inductive Event :=
| OnlineEvent      (* window 'online': both listeners run *)
| OfflineEvent     (* window 'offline' *)
| PeriodicTimer    (* the setInterval of setupPeriodicSync *)
| ExplicitSync     (* a direct call of apiClient.syncOfflineData() *)
| Resume (i : nat).

Definition handle (ev : Event) (b : Browser) : Browser :=
  match ev with
  | OnlineEvent =>
      (* the listener registered with the API client, then
         OfflineManager.handleOnline *)
      let b := start_sweep (set_online true (isOnline b) b) in
      syncPendingData (set_online (onLine b) true b)
  | OfflineEvent => set_online false false b
  | PeriodicTimer => if isOnline b then syncPendingData b else b
  | ExplicitSync => start_sweep b
  | Resume i => resume i b
  end.

Definition run (evs : list Event) (b : Browser) : Browser :=
  List.fold_left (fun b ev => handle ev b) evs b.

End Client.

(** ** Vocabulary of the statements *)

(** A change of a student's points account: the initialisation of a fresh
    account, or a point award. *)
Inductive PointsMutation :=
| Initialise (today userId : Z)
| Award (today userId pointsToAdd : Z) (subject : string).

Definition mutated_user (m : PointsMutation) : Z :=
  match m with
  | Initialise _ userId => userId
  | Award _ userId _ _ => userId
  end.

Definition apply_mutation (m : PointsMutation) : Async unit :=
  match m with
  | Initialise today userId => User.initializeUserPoints today userId
  | Award today userId pointsToAdd subject =>
      let! _ := updateUserPoints updateUserPoints_depth today userId
                                 pointsToAdd subject in
      resolve tt
  end.

(** An initialisation mutates the account only when it is fresh. *)
Definition mutates (m : PointsMutation) (d : Db) : Prop :=
  match m with
  | Initialise _ userId => select_user_points userId d = None
  | Award _ _ _ _ => True
  end.

(** What a promise resolved with, if it did. *)
Definition resolved {A} (r : (Error + A) * Db) : option A :=
  match r.1 with
  | inr a => Some a
  | inl _ => None
  end.

(** The store with no rows and no failure ahead. *)
Definition empty_db : Db := mkDb [] [] [] [] [] [].

(** The row [initializeUserPoints] inserts. *)
Definition fresh_account (today userId : Z) : PointsRow :=
  mkPointsRow userId 0 1 ∅ 0 (Some today).

(** The row an award finds: the stored one, or the one it initialises. *)
Definition found_account (today userId : Z) (d : Db) : PointsRow :=
  default (fresh_account today userId) (select_user_points userId d).

(** The row an award leaves behind, given the row it found. *)
Definition awarded (today pointsToAdd : Z) (subject : string) (r : PointsRow)
  : PointsRow :=
  mkPointsRow (up_user_id r)
    (total_points r + pointsToAdd)
    ((total_points r + pointsToAdd) / 100 + 1)
    (<[subject := default 0 (subject_points r !! subject) + pointsToAdd]>
       (subject_points r))
    (newStreak today (last_activity_date r) (daily_streak r))
    (Some today).

(** A student who registered on day 100 and has not been active yet. *)
Definition registered_today : Db :=
  mkDb [fresh_account 100 7] [] [] [] [] [].

(** A student with 180 points, last active on day 99, on a 3-day streak. *)
Definition active_yesterday : Db :=
  mkDb [mkPointsRow 7 180 2 ∅ 3 (Some 99)] [] [] [] [] [].

(** The stored values of a topic after one more attempt, given the row the
    attempt found. *)
Definition seen (prev : option ProgressRow) : list Q :=
  match prev with
  | Some e => [completion_percentage e]
  | None => []
  end.

(** [x] is the largest of the values [l]. *)
Definition largest (x : Q) (l : list Q) : Prop :=
  In x l /\ Forall (fun y => (y <= x)%Q) l.

(** The row [Progress.updateProgress] leaves for a topic, given the row it
    found. *)
Definition recorded (studentId : Z) (subject topic : string)
    (completionPercentage : Q) (score timeSpent : Z)
    (prev : option ProgressRow) : ProgressRow :=
  match prev with
  | Some e =>
      mkProgressRow (sp_student_id e) (sp_subject e) (sp_topic e)
        (Math_max (completion_percentage e) completionPercentage)
        (Z.max (sp_score e) score) (time_spent e + timeSpent) (attempts e + 1)
  | None =>
      mkProgressRow studentId subject topic completionPercentage score
                    timeSpent 1
  end.

(** The number of grant rows of one (user, achievement) pair, and the
    UNIQUE(user_id, achievement_id) constraint of the table. *)
Definition grants_of (userId achievementId : Z) (t : list GrantRow) : Z :=
  count (fun ua => (ua_user_id ua =? userId)
                   && (ua_achievement_id ua =? achievementId)) t.

Definition unique_grants (t : list GrantRow) : Prop :=
  forall userId achievementId, grants_of userId achievementId t <= 1.

(** Properties of the tables: they do not look at the fault plan, and a
    promise keeps them whatever its outcome. *)
Definition stable (P : Db -> Prop) : Prop :=
  forall fs d, P d -> P (set_faults fs d).

Definition preserves {A} (P : Db -> Prop) (m : Async A) : Prop :=
  forall d, P d -> P (m d).2.

(** A student's total as the dashboard shows it: 0 without a row. *)
Definition total_of (userId : Z) (d : Db) : Z :=
  match select_user_points userId d with
  | Some r => total_points r
  | None => 0
  end.

(** The "Update user points" step of [POST /students/progress]. *)
Definition points_step (today studentId pointsEarned : Z) (subject : string)
  : Async unit :=
  if 0 <? pointsEarned
  then let! _ := updateUserPoints updateUserPoints_depth today studentId
                                  pointsEarned subject in
       resolve tt
  else resolve tt.

(** The catalog entry of the "Game Master" badge. *)
Definition game_master : AchievementRow :=
  mkAchievementRow 2 "Game Master" 100 "games".

(** Student 7 holds 180 points and has played four different games; the
    catalog offers "Game Master" and the student has no grant. *)
Definition four_games_played : Db :=
  mkDb [mkPointsRow 7 180 2 ∅ 3 (Some 99)] []
       [game_master] []
       [mkGameScoreRow 7 "projectile-motion" "physics" 60 1 200 6;
        mkGameScoreRow 7 "periodic-table-explorer" "chemistry" 60 1 200 6;
        mkGameScoreRow 7 "cell-explorer" "biology" 60 1 200 6;
        mkGameScoreRow 7 "number-ninja" "math" 60 1 200 6]
       [].

(** The entries of the fault plan used up between two states of the
    store: the fates of the statements issued in between. *)
Definition consumed (d d' : Db) : list bool :=
  take (length (faults d) - length (faults d')) (faults d).

(** A promise that rejects as soon as one of its statements has failed. *)
Definition honest {A} (m : Async A) : Prop :=
  forall d, exists n : nat,
    (n <= length (faults d))%nat
    /\ faults (m d).2 = drop n (faults d)
    /\ (true ∈ take n (faults d) -> exists e, (m d).1 = inl e).

(** Student 7 holds 180 points and has worked on Algebra once, with a
    completion of 80 and a score of 90. *)
Definition algebra_started : Db :=
  mkDb [mkPointsRow 7 180 2 ∅ 3 (Some 99)]
       [mkProgressRow 7 "math" "Algebra" 80 90 30 1] [] [] [] [].

(** A second, poor attempt on Algebra: completion 20, score 10. *)
Definition poor_attempt : Students.ProgressBody :=
  Students.mkProgressBody "math" "Algebra" 20 (Some 10) (Some 30).

(** The catalog entry of the "First Steps" badge. *)
Definition first_steps : AchievementRow :=
  mkAchievementRow 1 "First Steps" 10 "progress".

(** Student 7 with 180 points and no progress yet, in front of a given
    catalog and a given fault plan. *)
Definition newcomer (catalog : list AchievementRow) (plan : list bool) : Db :=
  mkDb [mkPointsRow 7 180 2 ∅ 3 (Some 99)] [] catalog [] [] plan.

(** A first, complete attempt on Algebra. *)
Definition full_attempt : Students.ProgressBody :=
  Students.mkProgressBody "math" "Algebra" 100 (Some 90) (Some 30).

(** The first statement of the evaluator fails; the four before it, of the
    progress update and of the point award, do not. *)
Definition evaluator_fails : list bool := [false; false; false; false; true].

(** The attempt of [full_attempt], waiting in the offline queue under
    key 1. *)
Definition queued_attempt : Client.QueuedProgress :=
  Client.mkQueuedProgress 1 full_attempt (Some "token").

(** A page that is online again with [queued_attempt] in its queue, no call
    of [syncOfflineData] running, and a given network script. *)
Definition back_online (script : list Client.NetEvent) : Client.Browser :=
  Client.mkBrowser true true (Some "token") true [queued_attempt] 2 [] 1
                   script [] [].

(** The same page while it is still offline. *)
Definition still_offline : Client.Browser :=
  Client.mkBrowser false false (Some "token") true [queued_attempt] 2 [] 1
                   [] [] [].





(** What the events of the page leave alone: the requests sent, the two
    queues, the script of the network and the token. *)
Definition same_stores (b b' : Client.Browser) : Prop :=
  Client.sent b' = Client.sent b
  /\ Client.offline_progress b' = Client.offline_progress b
  /\ Client.offline_scores b' = Client.offline_scores b
  /\ Client.network b' = Client.network b
  /\ Client.authToken b' = Client.authToken b.


(** ** Vocabulary of the further properties *)

From Stdlib Require Import Sorted.

(** The scores a user has on record for a game, oldest first. *)
Definition previous_scores (userId : Z) (gameName : string) (d : Db) : list Z :=
  List.map gs_score
    (List.filter (fun r => (gs_user_id r =? userId)
                           && bool_decide (gs_game_name r = gameName))
                 (game_scores d)).

(** Student 7 has played "projectile-motion" twice, for 60 and for 95. *)
Definition two_plays : Db :=
  mkDb [] [] [] []
       [mkGameScoreRow 7 "projectile-motion" "physics" 60 1 200 6;
        mkGameScoreRow 7 "projectile-motion" "physics" 95 1 120 44]
       [].

(** The points table after [initializeUserPoints]: a row for the user is
    appended when there is none. *)
Definition initialised (today userId : Z) (t : list PointsRow) : list PointsRow :=
  match List.find (fun r => up_user_id r =? userId) t with
  | Some _ => t
  | None => t ++ [fresh_account today userId]
  end.

(** The points table after the UPDATE of an award: the rows of the user
    carry the values computed from the row the award found. *)
Definition credited (today userId pointsToAdd : Z) (subject : string)
    (t : list PointsRow) : list PointsRow :=
  match List.find (fun r => up_user_id r =? userId) t with
  | Some r0 =>
      List.map (fun r => if up_user_id r =? userId
                         then awarded today pointsToAdd subject r0 else r) t
  | None => t
  end.

(** The three states in which a call of [updateUserPoints] can leave the
    points table: untouched, initialised only, or initialised and credited. *)
Definition award_outcome (today userId pointsToAdd : Z) (subject : string)
    (t t' : list PointsRow) : Prop :=
  t' = t
  \/ t' = initialised today userId t
  \/ t' = credited today userId pointsToAdd subject (initialised today userId t).

(** The UNIQUE(user_id) constraint of [user_points]. *)
Definition unique_accounts (t : list PointsRow) : Prop :=
  NoDup (List.map up_user_id t).

(** The sum of a per-subject breakdown. *)
Definition subject_total (m : gmap string Z) : Z :=
  map_fold (fun _ v acc => v + acc) 0 m.

(** Student 7 with 180 points, 100 of them in physics and 80 in math, and
    student 8 with 40 points in math. *)
Definition two_students : Db :=
  mkDb [mkPointsRow 7 180 2 (<["physics" := 100]> {["math" := 80]}) 3 (Some 99);
        mkPointsRow 8 40 1 {["math" := 40]} 1 (Some 90)]
       [] [] [] [] [].

(** A well-formed points row: the level follows the total, the total and
    the streak are not negative, the row is dated, and the per-subject
    breakdown adds up to the total. *)
Definition sound_account (r : PointsRow) : Prop :=
  current_level r = total_points r / 100 + 1
  /\ 0 <= total_points r
  /\ 0 <= daily_streak r
  /\ last_activity_date r <> None
  /\ subject_total (subject_points r) = total_points r.

(** The progress table after an update of a topic: the rows of the topic
    carry the values computed from the row the update found, or a first row
    is appended. *)
Definition progress_after (studentId : Z) (subject topic : string)
    (completionPercentage : Q) (score timeSpent : Z)
    (t : list ProgressRow) : list ProgressRow :=
  match List.find (Progress.matches studentId subject topic) t with
  | Some e =>
      List.map (fun r =>
        if Progress.matches studentId subject topic r
        then mkProgressRow (sp_student_id r) (sp_subject r) (sp_topic r)
               (Math_max (completion_percentage e) completionPercentage)
               (Z.max (sp_score e) score) (time_spent e + timeSpent)
               (attempts e + 1)
        else r) t
  | None =>
      t ++ [mkProgressRow studentId subject topic completionPercentage score
                          timeSpent 1]
  end.



(** The rows [getUserAchievements] selects: the catalog entries the user
    holds a grant for. *)
Definition held_rows (userId : Z) (d : Db) : list AchievementRow :=
  List.flat_map (fun ua =>
    if ua_user_id ua =? userId
    then List.filter (fun a => ach_id a =? ua_achievement_id ua) (achievements d)
    else []) (user_achievements d).

(** The snapshot [getUserStats] resolves with. *)
Definition snapshot (userId : Z) (d : Db) : UserStats :=
  mkUserStats (Achievement.select_userPoints userId d)
              (Achievement.select_progressStats userId d)
              (Achievement.select_gameStats userId d)
              (Achievement.select_subjectProgress userId d).

(** Two states of the store that differ at most in their grants and in
    their fault plan. *)
Definition same_but_grants (d d' : Db) : Prop :=
  user_points d' = user_points d
  /\ student_progress d' = student_progress d
  /\ game_scores d' = game_scores d
  /\ achievements d' = achievements d.

(** A list of catalog entries in the order of [catalog_le]. *)
Definition catalog_sorted (l : list AchievementRow) : Prop :=
  Sorted (fun a b => Achievement.catalog_le a b = true) l.

(** Student 7 has completed Algebra and holds no grant; the catalog offers
    "First Steps" and "Game Master". *)
Definition algebra_completed : Db :=
  mkDb [mkPointsRow 7 30 1 {["math" := 30]} 0 (Some 100)]
       [mkProgressRow 7 "math" "Algebra" 100 90 30 1]
       [first_steps; game_master] [] [] [].

(** A [fetch] that the server answers with success. *)
Definition answers_ok (ev : Client.NetEvent) : bool :=
  match Client.fetched ev with
  | Client.Responded status => Client.ok status
  | Client.NetworkError => false
  end.

(** A [fetch] that fails while the page stays online. *)
Definition fails_online (ev : Client.NetEvent) : bool :=
  Client.onLine_then ev && negb (answers_ok ev).



(** The server is down: the request fails, the page stays online. *)
Definition server_down : Client.NetEvent :=
  Client.mkNetEvent (Client.Responded 500) true.

(** The session has expired. *)
Definition session_expired : Client.NetEvent :=
  Client.mkNetEvent (Client.Responded 401) true.

(** ** [GET /students/points] *)

(** The answer of the route: the stored totals and [next_level_points]. *)
Inductive PointsResponse :=
| PointsOk (total_points current_level : Z) (subject_points : gmap string Z)
           (daily_streak next_level_points : Z)    (* 200 *)
| PointsFailed.                                    (* 500 *)

(** The handler of [GET /students/points]: a student without a row gets one
    and is answered with zeros; otherwise the stored row is answered, with
    [next_level_points = current_level * 100]. *)
Definition points_handler (today studentId : Z) : Async PointsResponse :=
  let! userPoints := query (select_user_points studentId) in
  match userPoints with
  | None =>
      let! _ := User.initializeUserPoints today studentId in
      resolve (PointsOk 0 1 ∅ 0 100)
  | Some userPoints =>
      let nextLevelPoints := current_level userPoints * 100 in
      resolve (PointsOk (total_points userPoints) (current_level userPoints)
                        (subject_points userPoints) (daily_streak userPoints)
                        nextLevelPoints)
  end.

Definition get_points (today studentId : Z) (d : Db) : PointsResponse * Db :=
  match points_handler today studentId d with
  | (inr r, d') => (r, d')
  | (inl _, d') => (PointsFailed, d')
  end.

(** ** [GET /games/:subject/:gameId] *)

(** The games that have an entry in [gameConfigs]. *)
Definition gameConfigs : list string :=
  ["projectile-motion"; "circuit-builder"; "periodic-table-explorer";
   "cell-explorer"].

(** The keys every object inherits from [Object.prototype]:
    [gameConfigs[gameId]] finds a value under them too. *)
Definition Object_prototype : list string :=
  ["constructor"; "__defineGetter__"; "__defineSetter__"; "hasOwnProperty";
   "__lookupGetter__"; "__lookupSetter__"; "isPrototypeOf";
   "propertyIsEnumerable"; "toString"; "valueOf"; "__proto__";
   "toLocaleString"].

(** The answer of the route.  The static configuration of the game is left
    out.  [previousScores] are the user's plays of the game, ordered by
    [played_at], latest first; the model lists later insertions first, and
    the code leaves the order of two plays of the same second open. *)
Inductive GameResponse :=
| GameOk (gameId subject : string) (previousScores : list GameScoreRow)
         (highScore : Z)                           (* 200 *)
| GameInvalidSubject                               (* 400 *)
| GameNotFound                                     (* 404 *)
| GameFailed.                                      (* 500 *)

Definition get_game (userId : Z) (subject gameId : string) (d : Db)
  : GameResponse * Db :=
  if isIn subject subjects then
    if isIn gameId gameConfigs || isIn gameId Object_prototype then
      match Games.getUserGameScores userId gameId d with
      | (inr rows, d') =>
          let previousScores := List.rev rows in
          (GameOk gameId subject previousScores
                  (match previousScores with
                   | [] => 0
                   | _ => default 0 (max_of (List.map gs_score previousScores))
                   end), d')
      | (inl _, d') => (GameFailed, d')
      end
    else (GameNotFound, d)
  else (GameInvalidSubject, d).

(** * Properties *)

(** ** Rounding to binary64 *)

Lemma pow2_pos e : (0 < pow2 e)%Q.
Proof. unfold pow2. by apply Qpower_0_lt. Qed.

Lemma pow2_add a b : (pow2 (a + b) == pow2 a * pow2 b)%Q.
Proof. unfold pow2. by apply Qpower_plus. Qed.

Lemma pow2_le a b : a <= b -> (pow2 a <= pow2 b)%Q.
Proof. intros H. unfold pow2. by apply Qpower_le_compat_l. Qed.

Lemma pow2_inject n : 0 <= n -> (pow2 n == inject_Z (2 ^ n))%Q.
Proof. intros H. unfold pow2. by rewrite Zpower_Qpower. Qed.

Lemma pow2_sub a b : (pow2 (a - b) == pow2 a / pow2 b)%Q.
Proof. unfold pow2. by apply Qpower_minus. Qed.

Lemma Qdiv_mul_le (A B D : Q) :
  (0 < B)%Q -> (0 <= A)%Q -> (D <= B)%Q -> (A / B * D <= A)%Q.
Proof.
  intros HB HA HD.
  assert (H : (A / B * D == A - A * ((B - D) / B))%Q) by (field; lra).
  rewrite H.
  assert (H1 : (0 <= (B - D) / B)%Q) by (apply Qle_shift_div_l; lra).
  pose proof (Qmult_le_0_compat _ _ HA H1). lra.
Qed.

Lemma Qdiv_mul_ge (A B D : Q) :
  (0 < B)%Q -> (0 <= A)%Q -> (B <= D)%Q -> (A <= A / B * D)%Q.
Proof.
  intros HB HA HD.
  assert (H : (A / B * D == A + A * ((D - B) / B))%Q) by (field; lra).
  rewrite H.
  assert (H1 : (0 <= (D - B) / B)%Q) by (apply Qle_shift_div_l; lra).
  pose proof (Qmult_le_0_compat _ _ HA H1). lra.
Qed.

(** [2^(binade x) <= |x| < 2^(binade x + 1)]. *)
Lemma binade_spec x :
  ~ (x == 0)%Q ->
  (pow2 (binade x) <= Qabs x)%Q /\ (Qabs x < pow2 (binade x + 1))%Q.
Proof.
  intros Hx. destruct x as [n d]. unfold binade. cbn [Qnum Qden].
  set (a := Z.log2 (Z.abs n)). set (b := Z.log2 (Z.pos d)).
  assert (Hn : 0 < Z.abs n).
  { assert (n <> 0); [|lia]. intros ->. apply Hx. reflexivity. }
  pose proof (Z.log2_spec (Z.abs n) Hn) as [Ha1 Ha2]. fold a in Ha1, Ha2.
  pose proof (Z.log2_spec (Z.pos d) eq_refl) as [Hb1 Hb2]. fold b in Hb1, Hb2.
  pose proof (Z.log2_nonneg (Z.abs n)) as Ha0. fold a in Ha0.
  pose proof (Z.log2_nonneg (Z.pos d)) as Hb0. fold b in Hb0.
  assert (Habs : (Qabs (n # d) == inject_Z (Z.abs n) / inject_Z (Z.pos d))%Q).
  { unfold Qabs. rewrite (Qmake_Qdiv (Z.abs n) d). reflexivity. }
  assert (Hd : (0 < inject_Z (Z.pos d))%Q) by (rewrite <- (Zlt_Qlt 0); lia).
  assert (Hlo : (pow2 (a - b - 1) <= Qabs (n # d))%Q).
  { rewrite Habs. apply Qle_shift_div_l; [exact Hd|].
    replace (a - b - 1) with (a - (b + 1)) by lia.
    rewrite pow2_sub. rewrite !pow2_inject by lia.
    assert (H1 : (inject_Z (Z.pos d) <= inject_Z (2 ^ (b + 1)))%Q)
      by (rewrite <- Zle_Qle; replace (b + 1) with (Z.succ b) by lia; lia).
    assert (H2 : (inject_Z (2 ^ a) <= inject_Z (Z.abs n))%Q)
      by (rewrite <- Zle_Qle; lia).
    assert (H3 : (0 < inject_Z (2 ^ (b + 1)))%Q).
    { rewrite <- (Zlt_Qlt 0). apply Z.pow_pos_nonneg; lia. }
    assert (H4 : (0 < inject_Z (2 ^ a))%Q).
    { rewrite <- (Zlt_Qlt 0). apply Z.pow_pos_nonneg; lia. }
    apply Qle_trans with (inject_Z (2 ^ a)); [|exact H2].
    apply Qdiv_mul_le; lra. }
  assert (Hhi : (Qabs (n # d) < pow2 (a - b + 1))%Q).
  { rewrite Habs. apply Qlt_shift_div_r; [exact Hd|].
    replace (a - b + 1) with (a + 1 - b) by lia.
    rewrite pow2_sub. rewrite !pow2_inject by lia.
    assert (H1 : (inject_Z (2 ^ b) <= inject_Z (Z.pos d))%Q)
      by (rewrite <- Zle_Qle; lia).
    assert (H2 : (inject_Z (Z.abs n) < inject_Z (2 ^ (a + 1)))%Q)
      by (rewrite <- Zlt_Qlt; replace (a + 1) with (Z.succ a) by lia; lia).
    assert (H3 : (0 < inject_Z (2 ^ b))%Q).
    { rewrite <- (Zlt_Qlt 0). apply Z.pow_pos_nonneg; lia. }
    assert (H4 : (0 < inject_Z (2 ^ (a + 1)))%Q).
    { rewrite <- (Zlt_Qlt 0). apply Z.pow_pos_nonneg; lia. }
    apply Qlt_le_trans with (inject_Z (2 ^ (a + 1))); [exact H2|].
    apply Qdiv_mul_ge; lra. }
  destruct (Qle_bool (pow2 (a - b)) (Qabs (n # d))) eqn:E.
  - apply Qle_bool_iff in E. split; [exact E | exact Hhi].
  - split; [exact Hlo|].
    replace (a - b - 1 + 1) with (a - b) by lia.
    apply Qnot_le_lt. intros H. apply Qle_bool_iff in H. congruence.
Qed.

Lemma round_half_even_le (y : Q) (n : Z) :
  (y <= inject_Z n)%Q -> round_half_even y <= n.
Proof.
  intros H. unfold round_half_even.
  pose proof (Qfloor_le y) as Hf.
  assert (Hfn : Qfloor y <= n).
  { rewrite Zle_Qle. lra. }
  destruct (Z.eq_dec (Qfloor y) n) as [E|E].
  - assert (Hy : (y - inject_Z (Qfloor y) <= 0)%Q) by (rewrite E; lra).
    destruct (Qcompare_spec (y - inject_Z (Qfloor y)) (1 # 2)) as [H1|H1|H1];
      [lra | lia | lra].
  - destruct (y - inject_Z (Qfloor y) ?= 1 # 2)%Q; [destruct (Z.even _)|..]; lia.
Qed.

Lemma round_half_even_ge (y : Q) (n : Z) :
  (inject_Z n <= y)%Q -> n <= round_half_even y.
Proof.
  intros H. unfold round_half_even.
  assert (Hfn : n <= Qfloor y).
  { apply Qfloor_resp_le in H. by rewrite Qfloor_Z in H. }
  destruct (y - inject_Z (Qfloor y) ?= 1 # 2)%Q; [destruct (Z.even _)|..]; lia.
Qed.

Lemma round64_zero x : (x == 0)%Q -> round64 x = 0%Q.
Proof.
  intros H. unfold round64. apply Qeq_bool_iff in H. by rewrite H.
Qed.

Lemma round64_value x :
  ~ (x == 0)%Q ->
  (round64 x
   == inject_Z (round_half_even (x / pow2 (ulp_exponent x)))
      * pow2 (ulp_exponent x))%Q.
Proof.
  intros H. unfold round64.
  destruct (Qeq_bool x 0) eqn:E.
  - apply Qeq_bool_iff in E. contradiction.
  - apply Qred_correct.
Qed.

(** Rounding does not step over a point of its grid. *)
Lemma round64_le_grid x (J : Z) :
  (x <= inject_Z J * pow2 (ulp_exponent x))%Q ->
  (round64 x <= inject_Z J * pow2 (ulp_exponent x))%Q.
Proof.
  intros H. destruct (Qeq_dec x 0) as [E|E].
  - rewrite (round64_zero x E). lra.
  - rewrite (round64_value x E).
    pose proof (pow2_pos (ulp_exponent x)) as Hp.
    apply Qmult_le_compat_r; [|lra].
    rewrite <- Zle_Qle. apply round_half_even_le.
    apply Qle_shift_div_r; [exact Hp | exact H].
Qed.

Lemma round64_ge_grid x (J : Z) :
  (inject_Z J * pow2 (ulp_exponent x) <= x)%Q ->
  (inject_Z J * pow2 (ulp_exponent x) <= round64 x)%Q.
Proof.
  intros H. destruct (Qeq_dec x 0) as [E|E].
  - rewrite (round64_zero x E). lra.
  - rewrite (round64_value x E).
    pose proof (pow2_pos (ulp_exponent x)) as Hp.
    apply Qmult_le_compat_r; [|lra].
    rewrite <- Zle_Qle. apply round_half_even_ge.
    apply Qle_shift_div_l; [exact Hp | exact H].
Qed.

(** A double of an exponent at least [e] lies on the grid of [e]. *)
Lemma on_grid (m e e' : Z) :
  e' <= e ->
  (inject_Z m * pow2 e == inject_Z (m * 2 ^ (e - e')) * pow2 e')%Q.
Proof.
  intros H. rewrite inject_Z_mult, <- pow2_inject by lia.
  replace e with ((e - e') + e') at 1 by lia.
  rewrite pow2_add. ring.
Qed.

(** A double of a smaller exponent is no larger than the binade. *)
Lemma below_grid (m e k : Z) :
  Z.abs m <= 2 ^ 53 -> e < k - 52 ->
  (Qabs (inject_Z m * pow2 e) <= pow2 k)%Q.
Proof.
  intros Hm He. rewrite Qabs_Qmult.
  pose proof (pow2_pos e) as Hp.
  rewrite (Qabs_pos (pow2 e)) by lra.
  assert (H1 : (Qabs (inject_Z m) <= inject_Z (2 ^ 53))%Q).
  { change (Qabs (inject_Z m)) with (inject_Z (Z.abs m)). by rewrite <- Zle_Qle. }
  assert (H2 : (pow2 e <= pow2 (k - 53))%Q) by (apply pow2_le; lia).
  assert (H3 : (pow2 k == inject_Z (2 ^ 53) * pow2 (k - 53))%Q).
  { rewrite <- pow2_inject by lia. rewrite <- pow2_add. by replace (53 + (k - 53)) with k by lia. }
  rewrite H3.
  assert (H4 : (0 <= Qabs (inject_Z m))%Q) by apply Qabs_nonneg.
  apply Qle_trans with (inject_Z (2 ^ 53) * pow2 e)%Q.
  - apply Qmult_le_compat_r; [exact H1 | lra].
  - apply Qmult_le_l; [by vm_compute | exact H2].
Qed.

Lemma ulp_exponent_cases x :
  ulp_exponent x = -1074 \/ ulp_exponent x = binade x - 52.
Proof. unfold ulp_exponent. lia. Qed.

(** The binade of [x] starts on the grid of [x]. *)
Lemma binade_on_grid x :
  ulp_exponent x = binade x - 52 ->
  (pow2 (binade x) == inject_Z (2 ^ 52) * pow2 (ulp_exponent x))%Q.
Proof.
  intros ->. rewrite <- pow2_inject by lia. rewrite <- pow2_add.
  by replace (52 + (binade x - 52)) with (binade x) by lia.
Qed.

(** Rounding is monotone with respect to the doubles. *)
Lemma round64_le x f : binary64 f -> (x <= f)%Q -> (round64 x <= f)%Q.
Proof.
  intros (m & e & Hf & Hm & He) Hx.
  destruct (Qeq_dec x 0) as [E|E]; [rewrite (round64_zero x E); lra|].
  destruct (Z_le_gt_dec (ulp_exponent x) e) as [Hle|Hgt].
  - rewrite Hf, (on_grid m e (ulp_exponent x)) by done.
    apply round64_le_grid. by rewrite <- on_grid, <- Hf by done.
  - destruct (ulp_exponent_cases x) as [Hu|Hu]; [lia|].
    pose proof (binade_spec x E) as [Hb _].
    pose proof (below_grid m e (binade x) Hm ltac:(lia)) as Hfb.
    rewrite <- Hf in Hfb.
    pose proof (binade_on_grid x Hu) as Hg.
    destruct (Qlt_le_dec 0 x) as [Hpos|Hneg].
    + rewrite Qabs_pos in Hb by lra.
      pose proof (Qle_Qabs f) as Hfa.
      apply Qle_trans with (inject_Z (2 ^ 52) * pow2 (ulp_exponent x))%Q;
        [apply round64_le_grid|]; lra.
    + rewrite Qabs_neg in Hb by lra.
      assert (Hfa : (- Qabs f <= f)%Q).
      { pose proof (Qle_Qabs (- f)) as H. rewrite Qabs_opp in H. lra. }
      apply Qle_trans with (inject_Z (- 2 ^ 52) * pow2 (ulp_exponent x))%Q.
      * apply round64_le_grid. rewrite inject_Z_opp. lra.
      * rewrite inject_Z_opp. lra.
Qed.

Lemma round64_ge x f : binary64 f -> (f <= x)%Q -> (f <= round64 x)%Q.
Proof.
  intros (m & e & Hf & Hm & He) Hx.
  destruct (Qeq_dec x 0) as [E|E]; [rewrite (round64_zero x E); lra|].
  destruct (Z_le_gt_dec (ulp_exponent x) e) as [Hle|Hgt].
  - rewrite Hf, (on_grid m e (ulp_exponent x)) by done.
    apply round64_ge_grid. by rewrite <- on_grid, <- Hf by done.
  - destruct (ulp_exponent_cases x) as [Hu|Hu]; [lia|].
    pose proof (binade_spec x E) as [Hb _].
    pose proof (below_grid m e (binade x) Hm ltac:(lia)) as Hfb.
    rewrite <- Hf in Hfb.
    pose proof (binade_on_grid x Hu) as Hg.
    destruct (Qlt_le_dec 0 x) as [Hpos|Hneg].
    + rewrite Qabs_pos in Hb by lra.
      pose proof (Qle_Qabs f) as Hfa.
      apply Qle_trans with (inject_Z (2 ^ 52) * pow2 (ulp_exponent x))%Q;
        [|apply round64_ge_grid]; lra.
    + rewrite Qabs_neg in Hb by lra.
      assert (Hfa : (- Qabs f <= f)%Q).
      { pose proof (Qle_Qabs (- f)) as H. rewrite Qabs_opp in H. lra. }
      apply Qle_trans with (inject_Z (- 2 ^ 52) * pow2 (ulp_exponent x))%Q.
      * rewrite inject_Z_opp. lra.
      * apply round64_ge_grid. rewrite inject_Z_opp. lra.
Qed.

Lemma binary64_intro (m e : Z) :
  Z.abs m <= 2 ^ 53 -> -1074 <= e -> binary64 (inject_Z m * pow2 e).
Proof. intros Hm He. by exists m, e. Qed.

Lemma binary64_eq f g : (f == g)%Q -> binary64 f -> binary64 g.
Proof. intros E (m & e & Hf & H). exists m, e. by rewrite <- E. Qed.

Lemma binary64_Z (n : Z) : Z.abs n <= 2 ^ 53 -> binary64 (inject_Z n).
Proof.
  intros H. exists n, 0. split; [|lia]. unfold pow2. simpl. ring.
Qed.

(** What rounding yields is a double. *)
Lemma round64_binary64 x : binary64 (round64 x).
Proof.
  destruct (Qeq_dec x 0) as [E|E].
  - rewrite (round64_zero x E). by apply (binary64_Z 0).
  - apply (binary64_eq _ _ (Qeq_sym _ _ (round64_value x E))).
    apply binary64_intro; [|unfold ulp_exponent; lia].
    pose proof (binade_spec x E) as [_ Hb].
    pose proof (pow2_pos (ulp_exponent x)) as Hp.
    assert (Hk : (pow2 (binade x + 1)
                  <= inject_Z (2 ^ 53) * pow2 (ulp_exponent x))%Q).
    { rewrite <- pow2_inject by lia. rewrite <- pow2_add.
      apply pow2_le. unfold ulp_exponent. lia. }
    pose proof (Qle_Qabs x) as H1.
    assert (H2 : (- Qabs x <= x)%Q).
    { pose proof (Qle_Qabs (- x)) as H. rewrite Qabs_opp in H. lra. }
    apply Z.abs_le. split.
    + apply round_half_even_ge. apply Qle_shift_div_l; [exact Hp|].
      rewrite inject_Z_opp. lra.
    + apply round_half_even_le. apply Qle_shift_div_r; [exact Hp|]. lra.
Qed.

(** Below a double with a full mantissa, the next double is one unit of
    its last place away. *)
Lemma binary64_gap f (T p : Z) :
  binary64 f -> 2 ^ 52 < T ->
  (f < inject_Z T * pow2 p)%Q -> (f <= inject_Z (T - 1) * pow2 p)%Q.
Proof.
  intros (m & e & Hf & Hm & He) HT Hlt.
  pose proof (pow2_pos p) as Hp.
  destruct (Z_le_gt_dec p e) as [Hle|Hgt].
  - rewrite Hf, (on_grid m e p) in * by done.
    apply Qmult_le_compat_r; [|lra].
    rewrite <- Zle_Qle.
    assert (H : (inject_Z (m * 2 ^ (e - p)) < inject_Z T)%Q).
    { apply Qmult_lt_r with (pow2 p); [exact Hp | exact Hlt]. }
    rewrite <- Zlt_Qlt in H. lia.
  - pose proof (below_grid m e (p + 52) Hm ltac:(lia)) as Hb.
    rewrite <- Hf in Hb. pose proof (Qle_Qabs f) as Ha.
    assert (H : (pow2 (p + 52) == inject_Z (2 ^ 52) * pow2 p)%Q).
    { rewrite <- pow2_inject by lia. rewrite <- pow2_add.
      by replace (52 + p) with (p + 52) by lia. }
    apply Qle_trans with (inject_Z (2 ^ 52) * pow2 p)%Q; [lra|].
    apply Qmult_le_compat_r; [|lra]. rewrite <- Zle_Qle. lia.
Qed.

(** *** The arithmetic of the points *)

Lemma tenth_range (c : Q) :
  (0 <= c)%Q -> (c <= 100)%Q -> 0 <= Math_floor (fdiv c 10) <= 10.
Proof.
  intros H0 H1. unfold Math_floor, fdiv.
  assert (Hlo : (0 <= c / 10)%Q) by (apply Qle_shift_div_l; lra).
  assert (Hhi : (c / 10 <= 10)%Q) by (apply Qle_shift_div_r; lra).
  apply (round64_ge _ 0 (binary64_Z 0 ltac:(lia))) in Hlo.
  apply (round64_le _ 10 (binary64_Z 10 ltac:(lia))) in Hhi.
  apply Qfloor_resp_le in Hlo, Hhi. split; [exact Hlo | exact Hhi].
Qed.

Lemma repeat_range (c : Q) :
  (0 <= c)%Q -> (c <= 100)%Q -> -5 <= Math_floor (fdiv (fsub c 50) 10) <= 5.
Proof.
  intros H0 H1. unfold Math_floor, fdiv, fsub.
  assert (Hlo : (-50 <= c - 50)%Q) by lra.
  assert (Hhi : (c - 50 <= 50)%Q) by lra.
  apply (round64_ge _ (-50) (binary64_Z (-50) ltac:(lia))) in Hlo.
  apply (round64_le _ 50 (binary64_Z 50 ltac:(lia))) in Hhi.
  remember (round64 (c - 50)) as y eqn:Ey in *. clear Ey.
  assert (Hlo' : (-5 <= y / 10)%Q) by (apply Qle_shift_div_l; lra).
  assert (Hhi' : (y / 10 <= 5)%Q) by (apply Qle_shift_div_r; lra).
  apply (round64_ge _ (-5) (binary64_Z (-5) ltac:(lia))) in Hlo'.
  apply (round64_le _ 5 (binary64_Z 5 ltac:(lia))) in Hhi'.
  apply Qfloor_resp_le in Hlo', Hhi'. split; [exact Hlo' | exact Hhi'].
Qed.

(** The delta of a repeat attempt is positive from a completion of 60 on,
    and only then: the doubles below 60 end at [60 - 2^-47], and no rounding
    on the way lifts the quotient to 1. *)
Lemma repeat_positive (c : Q) :
  binary64 c -> 1 <= Math_floor (fdiv (fsub c 50) 10) <-> (60 <= c)%Q.
Proof.
  intros Hc. unfold Math_floor, fdiv, fsub. split.
  - intros H. destruct (Qlt_le_dec c 60) as [Hlt|Hge]; [exfalso|exact Hge].
    assert (H60 : (60 == inject_Z (60 * 2 ^ 47) * pow2 (-47))%Q) by (by vm_compute).
    rewrite H60 in Hlt. clear H60.
    apply (binary64_gap c (60 * 2 ^ 47) (-47) Hc eq_refl) in Hlt.
    pose proof (binary64_intro (10 * 2 ^ 47 - 1) (-47)
                  ltac:(by vm_compute) ltac:(by vm_compute)) as Hg.
    pose proof (binary64_intro (2 ^ 51 - 1) (-51)
                  ltac:(by vm_compute) ltac:(by vm_compute)) as Hh.
    assert (E1 : (inject_Z (60 * 2 ^ 47 - 1) * pow2 (-47) - 50
                  == inject_Z (10 * 2 ^ 47 - 1) * pow2 (-47))%Q) by (by vm_compute).
    assert (E2 : (inject_Z (10 * 2 ^ 47 - 1) * pow2 (-47)
                  <= inject_Z (2 ^ 51 - 1) * pow2 (-51) * 10)%Q) by (by vm_compute).
    assert (E3 : (inject_Z (2 ^ 51 - 1) * pow2 (-51) < 1)%Q) by (by vm_compute).
    revert Hlt Hg Hh E1 E2 E3.
    generalize (inject_Z (60 * 2 ^ 47 - 1) * pow2 (-47))%Q.
    generalize (inject_Z (10 * 2 ^ 47 - 1) * pow2 (-47))%Q.
    generalize (inject_Z (2 ^ 51 - 1) * pow2 (-51))%Q.
    intros h g t Hlt Hg Hh E1 E2 E3.
    assert (H1 : (c - 50 <= g)%Q) by lra.
    apply (round64_le _ _ Hg) in H1.
    remember (round64 (c - 50)) as y eqn:Ey in *. clear Ey.
    assert (H2 : (y / 10 <= h)%Q) by (apply Qle_shift_div_r; lra).
    apply (round64_le _ _ Hh) in H2.
    assert (H4 : (inject_Z (Qfloor (round64 (y / 10))) < inject_Z 1)%Q).
    { eapply Qle_lt_trans; [apply Qfloor_le|]. clear - H2 E3.
      change (inject_Z 1) with 1%Q. change (inject_Z 0) with 0%Q. lra. }
    rewrite <- Zlt_Qlt in H4. lia.
  - intros H.
    assert (H1 : (10 <= c - 50)%Q) by lra.
    apply (round64_ge _ 10 (binary64_Z 10 ltac:(lia))) in H1.
    remember (round64 (c - 50)) as y eqn:Ey in *. clear Ey.
    assert (H2 : (1 <= y / 10)%Q) by (apply Qle_shift_div_l; lra).
    apply (round64_ge _ 1 (binary64_Z 1 ltac:(lia))) in H2.
    apply Qfloor_resp_le in H2. exact H2.
Qed.

(** Below a completion of 50 the delta is negative. *)
Lemma repeat_negative (c : Q) :
  binary64 c -> (c < 50)%Q -> Math_floor (fdiv (fsub c 50) 10) < 0.
Proof.
  intros Hc Hlt. unfold Math_floor, fdiv, fsub.
  assert (H50 : (50 == inject_Z (50 * 2 ^ 47) * pow2 (-47))%Q) by (by vm_compute).
  rewrite H50 in Hlt. clear H50.
  apply (binary64_gap c (50 * 2 ^ 47) (-47) Hc eq_refl) in Hlt.
  pose proof (binary64_intro (-1) (-47)
                ltac:(by vm_compute) ltac:(by vm_compute)) as Hg.
  pose proof (binary64_intro (-1) (-51)
                ltac:(by vm_compute) ltac:(by vm_compute)) as Hh.
  assert (E1 : (inject_Z (50 * 2 ^ 47 - 1) * pow2 (-47) - 50
                == inject_Z (-1) * pow2 (-47))%Q) by (by vm_compute).
  assert (E2 : (inject_Z (-1) * pow2 (-47)
                <= inject_Z (-1) * pow2 (-51) * 10)%Q) by (by vm_compute).
  assert (E3 : (inject_Z (-1) * pow2 (-51) < 0)%Q) by (by vm_compute).
  revert Hlt Hg Hh E1 E2 E3.
  generalize (inject_Z (50 * 2 ^ 47 - 1) * pow2 (-47))%Q.
  generalize (inject_Z (-1) * pow2 (-47))%Q.
  generalize (inject_Z (-1) * pow2 (-51))%Q.
  intros h g t Hlt Hg Hh E1 E2 E3.
  assert (H1 : (c - 50 <= g)%Q) by lra.
  apply (round64_le _ _ Hg) in H1.
  remember (round64 (c - 50)) as y eqn:Ey in *. clear Ey.
  assert (H2 : (y / 10 <= h)%Q) by (apply Qle_shift_div_r; lra).
  apply (round64_le _ _ Hh) in H2.
  assert (H4 : (inject_Z (Qfloor (round64 (y / 10))) < inject_Z 0)%Q).
  { eapply Qle_lt_trans; [apply Qfloor_le|]. clear - H2 E3.
      change (inject_Z 1) with 1%Q. change (inject_Z 0) with 0%Q. lra. }
  rewrite <- Zlt_Qlt in H4. lia.
Qed.

(** ** Running promises *)

Lemma set_faults_id (d : Db) : set_faults (faults d) d = d.
Proof. by destruct d. Qed.

Lemma sql_inr {A} (q : Db -> A * Db) d a d' :
  sql q d = (inr a, d') -> exists fs, q (set_faults fs d) = (a, d').
Proof.
  unfold sql. destruct (faults d) as [|[] fs] eqn:E; try discriminate.
  - destruct (q d) as [a0 d0] eqn:Q. intros [= <- <-].
    exists []. by rewrite <- E, set_faults_id.
  - destruct (q (set_faults fs d)) as [a0 d0] eqn:Q. intros [= <- <-]. eauto.
Qed.

Lemma query_inr {A} (f : Db -> A) d a d' :
  query f d = (inr a, d') -> exists fs, a = f (set_faults fs d) /\ d' = set_faults fs d.
Proof.
  intros H. apply sql_inr in H as [fs [= <- <-]]. eauto.
Qed.

Lemma exec_inr (f : Db -> Db) d u d' :
  exec f d = (inr u, d') -> exists fs, d' = f (set_faults fs d).
Proof.
  intros H. apply sql_inr in H as [fs [= _ <-]]. eauto.
Qed.

Lemma await_inr {A B} (m : Async A) (k : A -> Async B) d b d' :
  await m k d = (inr b, d') ->
  exists a d1, m d = (inr a, d1) /\ k a d1 = (inr b, d').
Proof.
  unfold await. destruct (m d) as [[e|a] d1]; [discriminate|]. eauto.
Qed.

Lemma sql_calm {A} (q : Db -> A * Db) d :
  faults d = [] -> sql q d = (inr (q d).1, (q d).2).
Proof. unfold sql. intros ->. by destruct (q d). Qed.

(** ** The points account *)

Lemma find_map_update {A} (p : A -> bool) (f : A -> A) (l : list A) :
  (forall x, p x = true -> p (f x) = true) ->
  List.find p (List.map (fun x => if p x then f x else x) l)
  = f <$> List.find p l.
Proof.
  intros Hp. induction l as [|x l IH]; [done|]. simpl.
  destruct (p x) eqn:E.
  - by rewrite (Hp x E).
  - by rewrite E.
Qed.

Lemma find_app_new {A} (p : A -> bool) (l : list A) (x : A) :
  List.find p l = None -> p x = true -> List.find p (l ++ [x]) = Some x.
Proof.
  intros Hn Hx. induction l as [|y l IH]; simpl in *.
  - by rewrite Hx.
  - destruct (p y); [discriminate|]. auto.
Qed.

Lemma select_update_user_points userId new d :
  (forall r, up_user_id (new r) = up_user_id r) ->
  select_user_points userId (update_user_points userId new d)
  = new <$> select_user_points userId d.
Proof.
  intros Hk. unfold select_user_points, update_user_points. simpl.
  apply find_map_update. intros r. by rewrite Hk.
Qed.

Lemma initializeUserPoints_inr today userId d u d' :
  User.initializeUserPoints today userId d = (inr u, d') ->
  match select_user_points userId d with
  | Some r => select_user_points userId d' = Some r
  | None =>
      select_user_points userId d' = Some (fresh_account today userId)
  end.
Proof.
  intros H. apply exec_inr in H as [fs ->].
  change (select_user_points userId (set_faults fs d))
    with (select_user_points userId d).
  destruct (select_user_points userId d) as [r|] eqn:E; [done|].
  unfold select_user_points in *. simpl.
  apply find_app_new; [done|]. simpl. apply Z.eqb_refl.
Qed.

Lemma updateUserPoints_inr fuel today userId pointsToAdd subject d res d' :
  updateUserPoints fuel today userId pointsToAdd subject d = (inr res, d') ->
  select_user_points userId d'
  = Some (awarded today pointsToAdd subject (found_account today userId d))
  /\ res = (let r := awarded today pointsToAdd subject
                              (found_account today userId d) in
            mkPointsUpdate (total_points r) (current_level r)
                           (subject_points r) (daily_streak r)).
Proof.
  unfold found_account.
  revert d. induction fuel as [|fuel IH]; intros d H; [discriminate|].
  simpl in H. apply await_inr in H as (cur & d1 & Hq & H).
  apply query_inr in Hq as (fs & -> & ->).
  change (select_user_points userId (set_faults fs d))
    with (select_user_points userId d) in H.
  destruct (select_user_points userId d) as [r0|] eqn:E; simpl.
  - apply await_inr in H as (u & d2 & Hx & [= <- <-]).
    apply exec_inr in Hx as [fs' ->].
    rewrite select_update_user_points by done.
    change (select_user_points userId (set_faults fs' (set_faults fs d)))
      with (select_user_points userId d).
    by rewrite E.
  - apply await_inr in H as (u & d2 & Hi & H).
    apply initializeUserPoints_inr in Hi.
    change (select_user_points userId (set_faults fs d))
      with (select_user_points userId d) in Hi.
    rewrite E in Hi. apply IH in H. by rewrite Hi in H.
Qed.

Lemma exec_calm (f : Db -> Db) d :
  faults d = [] -> exec f d = (inr tt, f d).
Proof. intros H. unfold exec. by rewrite sql_calm. Qed.

Lemma query_calm {A} (f : Db -> A) d :
  faults d = [] -> query f d = (inr (f d), d).
Proof. intros H. unfold query. by rewrite sql_calm. Qed.

(** On a store that does not fail, two levels of recursion are enough for
    [updateUserPoints] to resolve. *)
Lemma updateUserPoints_returns fuel today userId pointsToAdd subject d :
  faults d = [] ->
  exists res d',
    updateUserPoints (S (S fuel)) today userId pointsToAdd subject d = (inr res, d')
    /\ faults d' = [].
Proof.
  intros Hf.
  assert (Hrow : forall n d0 r0, faults d0 = [] ->
            select_user_points userId d0 = Some r0 ->
            exists res d',
              updateUserPoints (S n) today userId pointsToAdd subject d0
              = (inr res, d') /\ faults d' = []).
  { intros n d0 r0 Hd0 Hr0. simpl. unfold await.
    rewrite query_calm by done. rewrite Hr0.
    rewrite exec_calm by done. simpl. eauto. }
  destruct (select_user_points userId d) as [r0|] eqn:E; [by eapply Hrow|].
  cbn [updateUserPoints]. unfold await at 1.
  rewrite query_calm by done. rewrite E.
  unfold await at 1. unfold User.initializeUserPoints.
  rewrite exec_calm by done. rewrite E.
  eapply Hrow; [done|].
  unfold select_user_points in *. simpl.
  apply find_app_new; [done|]. simpl. apply Z.eqb_refl.
Qed.

(** C1.  After a point award, and after the initialisation of a fresh
    account, the stored [current_level] of the student's row is
    [floor(total_points / 100) + 1]. *)
Theorem C1_level_follows_total (m : PointsMutation) (d d' : Db) :
  mutates m d ->
  apply_mutation m d = (inr tt, d') ->
  exists r,
    select_user_points (mutated_user m) d' = Some r
    /\ current_level r = total_points r / 100 + 1.
Proof.
  destruct m as [today userId | today userId pts subject];
    cbn [apply_mutation mutates mutated_user].
  - intros Hfresh H. apply initializeUserPoints_inr in H.
    rewrite Hfresh in H. eexists. split; [exact H|]. reflexivity.
  - intros _ H. apply await_inr in H as (res & d1 & H & [= <-]).
    apply updateUserPoints_inr in H as [H _].
    eexists. split; [exact H|]. reflexivity.
Qed.

(** C1, at an input: 25 points awarded to a student who holds 180. *)
Lemma C1_level_follows_total_witness :
  mutates (Award 100 7 25 "math") active_yesterday
  /\ exists r,
       select_user_points 7
         (apply_mutation (Award 100 7 25 "math") active_yesterday).2 = Some r
       /\ current_level r = total_points r / 100 + 1.
Proof.
  split; [exact I|].
  apply (C1_level_follows_total (Award 100 7 25 "math") active_yesterday).
  - exact I.
  - reflexivity.
Defined.

(** ** The daily streak *)

(** C6, as stated, fails for a first activity: [initializeUserPoints]
    stamps the new row with the day of its creation, so the first award of
    a student who registered the same day finds [last_activity_date] equal
    to today and leaves the streak at 0. *)
Lemma C6_first_activity_keeps_zero :
  User.initializeUserPoints 100 7 empty_db = (inr tt, registered_today)
  /\ (pu_daily_streak <$>
        resolved (updateUserPoints updateUserPoints_depth 100 7 12 "math"
                                   registered_today)) = Some 0
  /\ (pu_daily_streak <$>
        resolved (updateUserPoints updateUserPoints_depth 100 7 12 "math"
                                   registered_today)) <> Some 1.
Proof.
  split; [reflexivity|]. split; [by vm_compute|]. by vm_compute.
Qed.

(** C6 (amended).  An award that finds the student's row compares its
    [last_activity_date] with today: equal, the streak is unchanged; the day
    before, the streak grows by one; anything else (a gap of two days or
    more, or no date), the streak becomes 1.  An award that finds no row
    works on the row it initialises, dated today with streak 0, and leaves
    the streak at 0.  In every case [last_activity_date] becomes today. *)
Theorem C6_streak_policy fuel today userId pointsToAdd subject d res d' :
  updateUserPoints fuel today userId pointsToAdd subject d = (inr res, d') ->
  exists r,
    select_user_points userId d' = Some r
    /\ last_activity_date r = Some today
    /\ pu_daily_streak res = daily_streak r
    /\ match select_user_points userId d with
       | Some r0 =>
           (last_activity_date r0 = Some today ->
            daily_streak r = daily_streak r0)
           /\ (last_activity_date r0 = Some (today - 1) ->
               daily_streak r = daily_streak r0 + 1)
           /\ (last_activity_date r0 <> Some today ->
               last_activity_date r0 <> Some (today - 1) ->
               daily_streak r = 1)
       | None => daily_streak r = 0
       end.
Proof.
  intros H. apply updateUserPoints_inr in H as [Hrow ->].
  eexists. split; [exact Hrow|]. split; [reflexivity|]. split; [reflexivity|].
  unfold found_account. simpl. unfold newStreak.
  destruct (select_user_points userId d) as [r0|]; simpl.
  - repeat split.
    + intros E. by rewrite bool_decide_eq_true_2.
    + intros E. rewrite bool_decide_eq_false_2.
      * by rewrite bool_decide_eq_true_2.
      * rewrite E. intros [= ?]. lia.
    + intros N1 N2. by rewrite !bool_decide_eq_false_2.
  - by rewrite bool_decide_eq_true_2.
Qed.

(** C6, at an input: a student on a 3-day streak, last active on day 99,
    earns points on day 100. *)
Lemma C6_streak_policy_witness :
  exists r,
    select_user_points 7
      (updateUserPoints 2 100 7 25 "math" active_yesterday).2 = Some r
    /\ daily_streak r = 4.
Proof.
  destruct (C6_streak_policy 2 100 7 25 "math" active_yesterday
              (mkPointsUpdate 205 3 {["math" := 25]} 4)
              (updateUserPoints 2 100 7 25 "math" active_yesterday).2
              eq_refl)
    as (r & Hr & _ & _ & _ & Hy & _).
  exists r. split; [exact Hr|]. exact (Hy eq_refl).
Defined.

(** ** Progress records *)

Lemma Math_max_largest (a b : Q) : largest (Math_max a b) [a; b].
Proof.
  unfold largest, Math_max.
  destruct (Qle_bool a b) eqn:E.
  - apply Qle_bool_iff in E. split; [simpl; auto|].
    repeat constructor; [exact E | apply Qle_refl].
  - assert (b <= a)%Q.
    { apply Qlt_le_weak, Qnot_le_lt. intros H.
      apply Qle_bool_iff in H. congruence. }
    split; [simpl; auto|]. repeat constructor; [apply Qle_refl | done].
Qed.

Lemma matches_key studentId subject topic c s t a :
  Progress.matches studentId subject topic
    (mkProgressRow studentId subject topic c s t a) = true.
Proof.
  unfold Progress.matches. simpl.
  by rewrite Z.eqb_refl, !bool_decide_eq_true_2.
Qed.

Lemma updateProgress_inr studentId subject topic c s t d res d' :
  Progress.updateProgress studentId subject topic c s t d = (inr res, d') ->
  let row := recorded studentId subject topic c s t
               (Progress.getTopicProgress_row studentId subject topic d) in
  Progress.getTopicProgress_row studentId subject topic d' = Some row
  /\ pr_completion_percentage res = completion_percentage row
  /\ pr_score res = sp_score row
  /\ pr_attempts res = attempts row
  /\ created res
     = bool_decide (Progress.getTopicProgress_row studentId subject topic d = None)
  /\ updated res = negb (created res)
  /\ user_points d' = user_points d
  /\ user_achievements d' = user_achievements d
  /\ game_scores d' = game_scores d
  /\ achievements d' = achievements d.
Proof.
  unfold Progress.updateProgress. intros H.
  apply await_inr in H as (prev & d1 & Hq & H).
  apply query_inr in Hq as (fs & -> & ->).
  change (Progress.getTopicProgress_row studentId subject topic (set_faults fs d))
    with (Progress.getTopicProgress_row studentId subject topic d) in H.
  destruct (Progress.getTopicProgress_row studentId subject topic d)
    as [e|] eqn:E; simpl.
  - apply await_inr in H as (u & d2 & Hx & [= <- <-]).
    apply exec_inr in Hx as [fs' ->].
    unfold Progress.getTopicProgress_row in *. simpl.
    rewrite (find_map_update (Progress.matches studentId subject topic)
               (fun r => mkProgressRow (sp_student_id r) (sp_subject r) (sp_topic r)
                  (Math_max (completion_percentage e) c)
                  (Z.max (sp_score e) s) (time_spent e + t) (attempts e + 1))).
    + rewrite E. simpl.
      apply find_some in E as [_ Hm]. unfold Progress.matches in Hm.
      apply andb_prop in Hm as [Hm Ht]. apply andb_prop in Hm as [Hi Hs].
      repeat split; done.
    + intros r Hr. exact Hr.
  - apply await_inr in H as (u & d2 & Hx & [= <- <-]).
    apply exec_inr in Hx as [fs' ->].
    unfold Progress.getTopicProgress_row in *. simpl.
    rewrite (find_app_new _ _ _ E (matches_key _ _ _ _ _ _ _)).
    repeat split; done.
Qed.

(** C5.  Two attempts on one topic with scores [s1 < s2], in either order:
    the stored score is the larger of [s2] and what was stored before ([s2]
    itself for a new topic), the stored completion is the largest value
    seen, and both attempts are counted. *)
Theorem C5_best_score_kept studentId subject topic (ca cb : Q)
    (sa sb ta tb s1 s2 : Z) d ra da rb db :
  s1 < s2 ->
  (sa = s1 /\ sb = s2) \/ (sa = s2 /\ sb = s1) ->
  Progress.updateProgress studentId subject topic ca sa ta d = (inr ra, da) ->
  Progress.updateProgress studentId subject topic cb sb tb da = (inr rb, db) ->
  let prev := Progress.getTopicProgress_row studentId subject topic d in
  exists row,
    Progress.getTopicProgress_row studentId subject topic db = Some row
    /\ sp_score row = match prev with
                      | Some e => Z.max (sp_score e) s2
                      | None => s2
                      end
    /\ attempts row = match prev with
                      | Some e => attempts e + 2
                      | None => 2
                      end
    /\ largest (completion_percentage row) (seen prev ++ [ca; cb])
    /\ pr_score rb = sp_score row
    /\ pr_attempts rb = attempts row.
Proof.
  intros Hlt Hord Ha Hb prev.
  apply updateProgress_inr in Ha as (Ha & _).
  apply updateProgress_inr in Hb as (Hb & _ & Hs & Hn & _).
  rewrite Ha in Hb, Hs, Hn. simpl in Hb, Hs, Hn.
  eexists. split; [exact Hb|]. subst prev.
  destruct (Progress.getTopicProgress_row studentId subject topic d) as [e|];
    simpl; (split; [|split; [|split; [|split; [exact Hs | exact Hn]]]]).
  - destruct Hord as [[-> ->]|[-> ->]]; lia.
  - lia.
  - pose proof (Math_max_largest (completion_percentage e) ca) as [I1 F1].
    pose proof (Math_max_largest
                  (Math_max (completion_percentage e) ca) cb) as [I2 F2].
    inversion F1 as [|? ? L1 F1']. inversion F1' as [|? ? L1' _]. subst.
    inversion F2 as [|? ? L2 F2']. inversion F2' as [|? ? L2' _]. subst.
    split.
    + simpl in *. destruct I2 as [<-|[<-|[]]]; [|auto].
      destruct I1 as [<-|[<-|[]]]; auto.
    + repeat constructor; [| |done]; eapply Qle_trans; eauto.
  - destruct Hord as [[-> ->]|[-> ->]]; lia.
  - lia.
  - pose proof (Math_max_largest ca cb) as [I F]. split; [exact I | exact F].
Qed.

(** C5, at an input: a new topic, scored 90 and then 50. *)
Lemma C5_best_score_kept_witness :
  exists row,
    Progress.getTopicProgress_row 7 "math" "Algebra"
      (Progress.updateProgress 7 "math" "Algebra" 40 50 30
         (Progress.updateProgress 7 "math" "Algebra" 80 90 30 empty_db).2).2
    = Some row
    /\ sp_score row = 90 /\ attempts row = 2.
Proof.
  destruct (C5_best_score_kept 7 "math" "Algebra" 80 40 90 50 30 30 50 90
              empty_db
              (mkProgressResult true false 80 90 1)
              (Progress.updateProgress 7 "math" "Algebra" 80 90 30 empty_db).2
              (mkProgressResult false true 80 90 2)
              (Progress.updateProgress 7 "math" "Algebra" 40 50 30
                 (Progress.updateProgress 7 "math" "Algebra" 80 90 30 empty_db).2).2
              ltac:(lia) (or_intror (conj eq_refl eq_refl)) eq_refl eq_refl)
    as (row & Hrow & Hs & Hn & _).
  exists row. split; [exact Hrow|]. split; [exact Hs | exact Hn].
Defined.

(** ** What a promise leaves alone *)

Lemma preserves_resolve {A} P (a : A) : preserves P (resolve a).
Proof. by intros d. Qed.

Lemma preserves_reject {A} P e : preserves P (@reject A e).
Proof. by intros d. Qed.

Lemma preserves_await {A B} P (m : Async A) (k : A -> Async B) :
  preserves P m -> (forall a, preserves P (k a)) -> preserves P (await m k).
Proof.
  intros Hm Hk d Hd. unfold await. specialize (Hm d Hd).
  destruct (m d) as [[e|a] d1]; [exact Hm|]. by apply Hk.
Qed.

Lemma preserves_try_catch {A} P (m : Async A) h :
  preserves P m -> (forall e, preserves P (h e)) -> preserves P (try_catch m h).
Proof.
  intros Hm Hh d Hd. unfold try_catch. specialize (Hm d Hd).
  destruct (m d) as [[e|a] d1]; [by apply Hh | exact Hm].
Qed.

Lemma preserves_sql {A} P (q : Db -> A * Db) :
  stable P -> (forall d, P d -> P (q d).2) -> preserves P (sql q).
Proof.
  intros Hs Hq d Hd. unfold sql.
  destruct (faults d) as [|[] fs]; simpl.
  - specialize (Hq d Hd). by destruct (q d).
  - by apply Hs.
  - specialize (Hq _ (Hs fs d Hd)). by destruct (q (set_faults fs d)).
Qed.

Lemma preserves_query {A} P (f : Db -> A) : stable P -> preserves P (query f).
Proof. intros Hs. by apply preserves_sql. Qed.

Lemma preserves_exec P (f : Db -> Db) :
  stable P -> (forall d, P d -> P (f d)) -> preserves P (exec f).
Proof. intros Hs Hf. by apply preserves_sql. Qed.

Lemma preserves_settled {A} P (m : Async A) :
  preserves P m -> preserves P (Achievement.settled m).
Proof.
  intros Hm d Hd. unfold Achievement.settled. specialize (Hm d Hd).
  by destruct (m d).
Qed.

Lemma preserves_getUserStats P userId :
  stable P -> preserves P (Achievement.getUserStats userId).
Proof.
  intros Hs. unfold Achievement.getUserStats.
  repeat (apply preserves_await;
          [by apply preserves_settled, preserves_query | intros ?]).
  repeat match goal with
         | r : (Error + _)%type |- _ => destruct r
         end; first [apply preserves_resolve | apply preserves_reject].
Qed.

Lemma preserves_award_each P userId earnedIds userStats all new :
  (forall a, preserves P (Achievement.awardAchievement userId a)) ->
  preserves P (Achievement.award_each userId earnedIds userStats all new).
Proof.
  intros Ha. revert new. induction all as [|a all IH]; intros new; simpl.
  - apply preserves_resolve.
  - destruct (existsb _ earnedIds); [apply IH|].
    destruct (Achievement.checkAchievementCriteria a userStats); [|apply IH].
    apply preserves_await; [apply Ha | intros _; apply IH].
Qed.

Lemma preserves_checkAndAward P userId :
  stable P ->
  (forall a, preserves P (Achievement.awardAchievement userId a)) ->
  preserves P (Achievement.checkAndAwardAchievements userId).
Proof.
  intros Hs Ha. unfold Achievement.checkAndAwardAchievements.
  apply preserves_try_catch; [|intros _; apply preserves_resolve].
  unfold Achievement.checkAndAward_body.
  apply preserves_await; [by apply preserves_query | intros earned].
  apply preserves_await; [by apply preserves_getUserStats | intros stats].
  apply preserves_await; [by apply preserves_query | intros all].
  by apply preserves_award_each.
Qed.

Lemma preserves_await_inr {A B} P (m : Async A) (k : A -> Async B) :
  preserves P m ->
  (forall d a d1, m d = (inr a, d1) -> P d1 -> P (k a d1).2) ->
  preserves P (await m k).
Proof.
  intros Hm Hk d Hd. unfold await. specialize (Hm d Hd).
  destruct (m d) as [[e|a] d1] eqn:E; [exact Hm|]. by eapply Hk.
Qed.

Lemma preserves_updateProgress P studentId subject topic c s t :
  stable P ->
  (forall rows d, P d -> P (set_student_progress rows d)) ->
  preserves P (Progress.updateProgress studentId subject topic c s t).
Proof.
  intros Hs Hw. unfold Progress.updateProgress.
  apply preserves_await; [by apply preserves_query | intros [e|]].
  - apply preserves_await; [|intros _; apply preserves_resolve].
    apply preserves_exec; [done|]. intros d. apply Hw.
  - apply preserves_await; [|intros _; apply preserves_resolve].
    apply preserves_exec; [done|]. intros d. apply Hw.
Qed.



(** ** Achievement grants *)

Lemma grants_of_app userId achievementId t1 t2 :
  grants_of userId achievementId (t1 ++ t2)
  = grants_of userId achievementId t1 + grants_of userId achievementId t2.
Proof.
  unfold grants_of, count. rewrite List.filter_app, List.length_app. lia.
Qed.

Lemma granted_false userId achievementId t :
  Achievement.granted userId achievementId t = false ->
  grants_of userId achievementId t = 0.
Proof.
  unfold Achievement.granted, grants_of, count.
  induction t as [|g t IH]; simpl; [done|].
  destruct ((ua_user_id g =? userId) && (ua_achievement_id g =? achievementId));
    simpl; [discriminate | exact IH].
Qed.

Lemma granted_true userId achievementId t :
  Achievement.granted userId achievementId t = true ->
  1 <= grants_of userId achievementId t.
Proof.
  unfold Achievement.granted, grants_of, count.
  induction t as [|g t IH]; simpl; [discriminate|].
  destruct ((ua_user_id g =? userId) && (ua_achievement_id g =? achievementId));
    simpl; [lia | exact IH].
Qed.

Lemma grants_of_single userId achievementId u a :
  grants_of userId achievementId [mkGrantRow u a]
  = if (u =? userId) && (a =? achievementId) then 1 else 0.
Proof.
  unfold grants_of, count. simpl.
  by destruct ((u =? userId) && (a =? achievementId)).
Qed.

Lemma awardAchievement_inr userId achievementId d r d' :
  Achievement.awardAchievement userId achievementId d = (inr r, d') ->
  r = negb (Achievement.granted userId achievementId (user_achievements d))
  /\ user_achievements d'
     = if Achievement.granted userId achievementId (user_achievements d)
       then user_achievements d
       else user_achievements d ++ [mkGrantRow userId achievementId].
Proof.
  intros H. apply sql_inr in H as [fs H]. simpl in H.
  destruct (Achievement.granted userId achievementId (user_achievements d));
    by injection H as <- <-.
Qed.

Lemma unique_after_insert userId achievementId t :
  unique_grants t ->
  Achievement.granted userId achievementId t = false ->
  unique_grants (t ++ [mkGrantRow userId achievementId]).
Proof.
  intros Hu Hg u a. rewrite grants_of_app, grants_of_single.
  destruct ((userId =? u) && (achievementId =? a)) eqn:E.
  - apply andb_prop in E as [->%Z.eqb_eq ->%Z.eqb_eq].
    rewrite (granted_false _ _ _ Hg). lia.
  - specialize (Hu u a). lia.
Qed.

Lemma unique_grants_stable :
  stable (fun d => unique_grants (user_achievements d)).
Proof. by intros fs d. Qed.

(** The UNIQUE constraint survives [awardAchievement], whatever its
    outcome. *)
Lemma awardAchievement_keeps_unique userId achievementId :
  preserves (fun d => unique_grants (user_achievements d))
            (Achievement.awardAchievement userId achievementId).
Proof.
  apply preserves_sql; [apply unique_grants_stable|].
  intros d Hd.
  destruct (Achievement.granted userId achievementId (user_achievements d))
    eqn:E; simpl; [done|].
  by apply unique_after_insert.
Qed.

(** C7.  In a table that satisfies its UNIQUE constraint, granting an
    achievement twice leaves exactly one row for the pair: the second grant
    changes nothing and reports no change, and the constraint still holds. *)
Theorem C7_grant_is_idempotent userId achievementId d r1 d1 r2 d2 :
  unique_grants (user_achievements d) ->
  Achievement.awardAchievement userId achievementId d = (inr r1, d1) ->
  Achievement.awardAchievement userId achievementId d1 = (inr r2, d2) ->
  grants_of userId achievementId (user_achievements d2) = 1
  /\ user_achievements d2 = user_achievements d1
  /\ r2 = false
  /\ unique_grants (user_achievements d2).
Proof.
  intros Hu H1 H2.
  apply awardAchievement_inr in H1 as [_ E1].
  apply awardAchievement_inr in H2 as [-> E2].
  assert (Hone : grants_of userId achievementId (user_achievements d1) = 1
                 /\ unique_grants (user_achievements d1)).
  { rewrite E1.
    destruct (Achievement.granted userId achievementId (user_achievements d))
      eqn:G.
    - split; [|done]. apply granted_true in G.
      specialize (Hu userId achievementId). lia.
    - split; [|by apply unique_after_insert].
      rewrite grants_of_app, grants_of_single, (granted_false _ _ _ G).
      by rewrite !Z.eqb_refl. }
  destruct Hone as [Hone Hu1].
  assert (G1 : Achievement.granted userId achievementId (user_achievements d1)
               = true).
  { destruct (Achievement.granted userId achievementId (user_achievements d1))
      eqn:G; [done|]. apply granted_false in G. lia. }
  rewrite G1 in E2. rewrite E2. rewrite G1. simpl.
  split; [exact Hone|]. split; [reflexivity|]. split; [reflexivity|exact Hu1].
Qed.

(** C7, at an input: the first grant of achievement 3 to student 7, made
    twice. *)
Lemma C7_grant_is_idempotent_witness :
  grants_of 7 3
    (user_achievements
       (Achievement.awardAchievement 7 3
          (Achievement.awardAchievement 7 3 empty_db).2).2) = 1.
Proof.
  refine (proj1 (C7_grant_is_idempotent 7 3 empty_db true
                   (Achievement.awardAchievement 7 3 empty_db).2 false
                   (Achievement.awardAchievement 7 3
                      (Achievement.awardAchievement 7 3 empty_db).2).2
                   _ eq_refl eq_refl)).
  intros u a. unfold grants_of, count. simpl. lia.
Defined.


(** ** [POST /games/:subject/:gameId/score] *)

Lemma score_handler_inr userId subject gameId body d r d' :
  Games.score_handler userId subject gameId body d = (inr r, d') ->
  let score := Games.body_score body in
  let time_taken := default 0 (Games.body_time_taken body) in
  let pointsEarned := Games.pointsEarned score time_taken in
  game_scores d'
  = game_scores d ++
    [mkGameScoreRow userId gameId subject score
       (default 1 (Games.body_level_completed body)) time_taken pointsEarned]
  /\ exists isNewRecord bestScore totalPlays,
       r = Games.Ok score pointsEarned isNewRecord bestScore totalPlays.
Proof.
  unfold Games.score_handler. intros H.
  apply await_inr in H as (u & d1 & Hs & H).
  apply exec_inr in Hs as [fs ->].
  apply await_inr in H as (rows & d2 & Hq & [= <- <-]).
  apply query_inr in Hq as (fs' & -> & ->).
  split; [reflexivity|]. eauto.
Qed.

(** The route writes to [game_scores] only. *)
Lemma post_score_frame (P : Db -> Prop) userId subject gameId body d :
  stable P ->
  (forall rows d, P d -> P (set_game_scores rows d)) ->
  P d -> P (Games.post_score userId subject gameId body d).2.
Proof.
  intros Hs Hw Hd. unfold Games.post_score.
  destruct (Games.valid body); [|done].
  destruct (isIn subject subjects); [|done].
  assert (Hp : preserves P (Games.score_handler userId subject gameId body)).
  { unfold Games.score_handler.
    apply preserves_await.
    - apply preserves_exec; [done|]. intros d0. apply Hw.
    - intros _. apply preserves_await; [by apply preserves_query|].
      intros rows. apply preserves_resolve. }
  specialize (Hp d Hd).
  by destruct (Games.score_handler userId subject gameId body d) as [[e|r] d1].
Qed.

(** C4, as stated, fails: a score of 95 earns both the bonus for 90 and
    the bonus for 70, so the submission returns 44 points. *)
Lemma C4_not_34 :
  (Games.post_score 7 "physics" "projectile-motion"
     (Games.mkScoreBody 95 None (Some 120)) empty_db).1
  = Games.Ok 95 44 true (Some 95) 1
  /\ Games.pointsEarned 95 120 <> 34.
Proof. split; by vm_compute. Qed.

(** C4 (amended).  Every game score submission with [score = 95] and
    [time_taken = 120] that is answered with success returns
    [pointsEarned = floor(95/10) + 20 + 10 + 5 = 44]. *)
Theorem C4_points_for_95_in_120 userId subject gameId level d
    score pointsEarned isNewRecord bestScore totalPlays d' :
  Games.post_score userId subject gameId
    (Games.mkScoreBody 95 level (Some 120)) d
  = (Games.Ok score pointsEarned isNewRecord bestScore totalPlays, d') ->
  pointsEarned = 9 + 20 + 10 + 5.
Proof.
  unfold Games.post_score.
  destruct (Games.valid _); [|discriminate].
  destruct (isIn subject subjects); [|discriminate].
  destruct (Games.score_handler userId subject gameId _ d) as [[e|r] d1] eqn:E;
    [discriminate|].
  apply score_handler_inr in E as (_ & nr & best & plays & ->).
  by intros [= <- <- <- <- <- <-].
Qed.

(** C4, at an input: the first play of a game, on the empty store. *)
Lemma C4_points_for_95_in_120_witness :
  exists pointsEarned,
    (Games.post_score 7 "physics" "projectile-motion"
       (Games.mkScoreBody 95 None (Some 120)) empty_db).1
    = Games.Ok 95 pointsEarned true (Some 95) 1
    /\ pointsEarned = 9 + 20 + 10 + 5.
Proof.
  exists 44. split; [reflexivity|].
  exact (C4_points_for_95_in_120 7 "physics" "projectile-motion" None empty_db
           95 44 true (Some 95) 1
           (Games.post_score 7 "physics" "projectile-motion"
              (Games.mkScoreBody 95 None (Some 120)) empty_db).2
           eq_refl).
Defined.

(** C2, as stated, fails: the fifth different game of student 7, scored
    95, is answered with 44 points earned; the student's total stays at 180
    and the "Game Master" badge, whose rule now holds, is not granted. *)
Lemma C2_total_and_grants_untouched :
  let out := Games.post_score 7 "physics" "circuit-builder"
               (Games.mkScoreBody 95 None (Some 120)) four_games_played in
  out.1 = Games.Ok 95 44 true (Some 95) 1
  /\ total_of 7 out.2 = 180
  /\ total_of 7 out.2 <> total_of 7 four_games_played + 44
  /\ (Achievement.checkAchievementCriteria game_master
        <$> resolved (Achievement.getUserStats 7 out.2)) = Some true
  /\ user_achievements out.2 = [].
Proof. repeat split; by vm_compute. Qed.

(** C2 (amended).  A game score submission computes [pointsEarned], stores
    it in the new [game_scores] row and returns it.  It calls neither the
    points engine nor the achievement evaluator: whatever its outcome, the
    students' points rows and the grants are as they were. *)
Theorem C2_score_submission_only_records userId subject gameId body d r d' :
  Games.post_score userId subject gameId body d = (r, d') ->
  user_points d' = user_points d
  /\ user_achievements d' = user_achievements d
  /\ forall score pointsEarned isNewRecord bestScore totalPlays,
       r = Games.Ok score pointsEarned isNewRecord bestScore totalPlays ->
       pointsEarned
       = Games.pointsEarned (Games.body_score body)
                            (default 0 (Games.body_time_taken body))
       /\ game_scores d'
          = game_scores d ++
            [mkGameScoreRow userId gameId subject (Games.body_score body)
               (default 1 (Games.body_level_completed body))
               (default 0 (Games.body_time_taken body)) pointsEarned].
Proof.
  intros H.
  pose proof (post_score_frame (fun x => user_points x = user_points d)
                userId subject gameId body d) as Hup.
  pose proof (post_score_frame
                (fun x => user_achievements x = user_achievements d)
                userId subject gameId body d) as Hua.
  rewrite H in Hup, Hua. simpl in Hup, Hua.
  split; [apply Hup; [by intros ? ?| by intros ? ?|reflexivity]|].
  split; [apply Hua; [by intros ? ?| by intros ? ?|reflexivity]|].
  intros score pe nr best plays ->.
  unfold Games.post_score in H.
  destruct (Games.valid body); [|discriminate].
  destruct (isIn subject subjects); [|discriminate].
  destruct (Games.score_handler userId subject gameId body d) as [[e|r] d1] eqn:E;
    [discriminate|].
  injection H as -> ->.
  apply score_handler_inr in E as (Hg & nr' & best' & plays' & [= _ -> _ _ _]).
  by split.
Qed.

(** C2, at an input: the fifth different game of student 7. *)
Lemma C2_score_submission_only_records_witness :
  user_points
    (Games.post_score 7 "physics" "circuit-builder"
       (Games.mkScoreBody 95 None (Some 120)) four_games_played).2
  = user_points four_games_played.
Proof.
  exact (proj1 (C2_score_submission_only_records 7 "physics" "circuit-builder"
                  (Games.mkScoreBody 95 None (Some 120)) four_games_played
                  _ _ eq_refl)).
Defined.


(** ** [POST /students/progress] *)

Lemma user_points_stable T : stable (fun d => user_points d = T).
Proof. by intros fs d. Qed.

Lemma checkAndAward_keeps_user_points T userId :
  preserves (fun d => user_points d = T)
            (Achievement.checkAndAwardAchievements userId).
Proof.
  apply preserves_checkAndAward; [apply user_points_stable|].
  intros a. apply preserves_sql; [apply user_points_stable|].
  intros d Hd.
  by destruct (Achievement.granted userId a (user_achievements d)).
Qed.

Lemma post_progress_ok today studentId body d progress pointsEarned
    newAchievements d' :
  Students.post_progress today studentId body d
  = (Students.Ok progress pointsEarned newAchievements, d') ->
  exists d1 d2,
    Progress.updateProgress studentId (Students.body_subject body)
      (Students.body_topic body) (Students.body_completion_percentage body)
      (default 0 (Students.body_score body))
      (default 0 (Students.body_time_spent body)) d = (inr progress, d1)
    /\ pointsEarned
       = Students.pointsEarned progress
           (Students.body_completion_percentage body)
           (default 0 (Students.body_score body))
    /\ points_step today studentId pointsEarned (Students.body_subject body) d1
       = (inr tt, d2)
    /\ Achievement.checkAndAwardAchievements studentId d2
       = (inr newAchievements, d').
Proof.
  unfold Students.post_progress.
  destruct (Students.valid body); [|discriminate].
  destruct (Students.progress_handler today studentId body d)
    as [[e|r] d0] eqn:E; [discriminate|].
  intros [= -> ->]. unfold Students.progress_handler in E.
  apply await_inr in E as (pr & d1 & Hp & E).
  apply await_inr in E as ([] & d2 & Hs & E).
  apply await_inr in E as (ach & d3 & Hc & [= <- <- <- <-]).
  exists d1, d2. done.
Qed.

(** The completion percentage of a body is a double. *)
Lemma body_completion_binary64 body :
  binary64 (Students.body_completion_percentage body).
Proof. apply round64_binary64. Qed.

Lemma repeat_delta_nonpositive (c : Q) :
  binary64 c -> (c < 60)%Q -> Math_floor (fdiv (fsub c 50) 10) * 2 <= 0.
Proof.
  intros Hb H.
  destruct (Z_lt_le_dec (Math_floor (fdiv (fsub c 50) 10)) 1) as [Hlt|Hge];
    [lia|].
  apply (repeat_positive c Hb) in Hge. lra.
Qed.

(** A repeat update with a completion below 60 leaves every points row as
    it was, whatever the outcome of the request. *)
Lemma low_repeat_leaves_points today studentId body d :
  Progress.getTopicProgress_row studentId (Students.body_subject body)
    (Students.body_topic body) d <> None ->
  (Students.body_completion_percentage body < 60)%Q ->
  user_points (Students.post_progress today studentId body d).2 = user_points d.
Proof.
  intros Hex Hc. unfold Students.post_progress.
  destruct (Students.valid body); [|done].
  unfold Students.progress_handler.
  set (upd := Progress.updateProgress _ _ _ _ _ _).
  unfold await at 1.
  pose proof (preserves_updateProgress (fun x => user_points x = user_points d)
                studentId (Students.body_subject body) (Students.body_topic body)
                (Students.body_completion_percentage body)
                (default 0 (Students.body_score body))
                (default 0 (Students.body_time_spent body))
                (user_points_stable _) (fun _ _ H => H) d eq_refl) as Hu.
  fold upd in Hu.
  destruct (upd d) as [[e|pr] d1] eqn:E; [exact Hu|]. simpl in Hu.
  apply updateProgress_inr in E as (_ & _ & _ & _ & Hcr & Hup & _).
  rewrite bool_decide_eq_false_2 in Hcr by done.
  rewrite Hcr in Hup. simpl in Hup.
  unfold Students.pointsEarned. rewrite Hcr, Hup.
  pose proof (repeat_delta_nonpositive _ (body_completion_binary64 body) Hc)
    as Hle.
  apply Z.ltb_ge in Hle. rewrite Hle.
  unfold await at 1. simpl.
  pose proof (checkAndAward_keeps_user_points (user_points d) studentId d1 Hu)
    as Hk.
  unfold await.
  by destruct (Achievement.checkAndAwardAchievements studentId d1) as [[e|l] d2].
Qed.

(** C3, as stated, fails: no repeat submission with a completion below 50
    lowers the student's total.  The negative delta is reported, and the
    [if (pointsEarned > 0)] in front of [updateUserPoints] keeps it from the
    account. *)
Lemma C3_no_repeat_lowers_total :
  ~ exists today studentId body d,
      Progress.getTopicProgress_row studentId (Students.body_subject body)
        (Students.body_topic body) d <> None
      /\ (Students.body_completion_percentage body < 50)%Q
      /\ total_of studentId (Students.post_progress today studentId body d).2
         < total_of studentId d.
Proof.
  intros (today & studentId & body & d & Hex & Hc & Hlt).
  assert (Hc' : (Students.body_completion_percentage body < 60)%Q) by lra.
  pose proof (low_repeat_leaves_points today studentId body d Hex Hc') as E.
  unfold total_of, select_user_points in Hlt. rewrite E in Hlt. lia.
Qed.

(** C3 (amended).  On a repeat progress update that is answered with
    success, [pointsEarned] is [Math.floor((completion - 50) / 10) * 2] as
    the binary64 arithmetic of the language evaluates it: an even number
    between -10 and 10, negative for every completion below 50 and positive
    exactly for the completions of 60 and more.  It is added to the
    student's total only when it is positive, and otherwise no points row
    changes.  The total never decreases. *)
Theorem C3_repeat_delta_applied_when_positive today studentId body d
    progress pointsEarned newAchievements d' :
  Progress.getTopicProgress_row studentId (Students.body_subject body)
    (Students.body_topic body) d <> None ->
  Students.post_progress today studentId body d
  = (Students.Ok progress pointsEarned newAchievements, d') ->
  pointsEarned
  = Math_floor (fdiv (fsub (Students.body_completion_percentage body) 50) 10) * 2
  /\ -10 <= pointsEarned <= 10
  /\ (0 < pointsEarned <-> (60 <= Students.body_completion_percentage body)%Q)
  /\ ((Students.body_completion_percentage body < 50)%Q -> pointsEarned < 0)
  /\ (0 < pointsEarned ->
      total_of studentId d' = total_of studentId d + pointsEarned)
  /\ (pointsEarned <= 0 -> user_points d' = user_points d)
  /\ total_of studentId d <= total_of studentId d'.
Proof.
  intros Hex H.
  assert (Hv : Students.valid body = true).
  { unfold Students.post_progress in H.
    by destruct (Students.valid body). }
  apply post_progress_ok in H as (d1 & d2 & Hp & Hpe & Hs & Hc).
  apply updateProgress_inr in Hp as (_ & _ & _ & _ & Hcr & Hup & Hu1 & _).
  rewrite bool_decide_eq_false_2 in Hcr by done.
  rewrite Hcr in Hup. simpl in Hup.
  unfold Students.pointsEarned in Hpe. rewrite Hcr, Hup in Hpe.
  pose proof (checkAndAward_keeps_user_points (user_points d2) studentId d2
                eq_refl) as Hk.
  rewrite Hc in Hk. simpl in Hk.
  unfold points_step in Hs.
  pose proof (body_completion_binary64 body) as Hb.
  assert (Hrange : (0 <= Students.body_completion_percentage body)%Q
                   /\ (Students.body_completion_percentage body <= 100)%Q).
  { unfold Students.valid in Hv.
    repeat (apply andb_prop in Hv as [Hv ?]).
    split; by apply Qle_bool_iff. }
  destruct Hrange as [Hlo Hhi].
  pose proof (repeat_range _ Hlo Hhi) as Hr.
  pose proof (repeat_positive _ Hb) as Hpos.
  assert (Hcases :
    (0 < pointsEarned
     /\ total_of studentId d' = total_of studentId d + pointsEarned)
    \/ (pointsEarned <= 0 /\ user_points d' = user_points d)).
  { destruct (0 <? pointsEarned) eqn:Hp.
    - left. apply Z.ltb_lt in Hp. split; [done|].
      apply await_inr in Hs as (res & d3 & Hres & [= ->]).
      apply updateUserPoints_inr in Hres as [Hres _].
      unfold total_of, found_account, select_user_points in *.
      rewrite Hk, Hres, Hu1. simpl.
      by destruct (List.find _ (user_points d)).
    - right. apply Z.ltb_ge in Hp. split; [done|].
      injection Hs as <-. congruence. }
  split; [exact Hpe|].
  split; [lia|].
  split; [rewrite <- Hpos; lia|].
  split.
  { intros Hc50. rewrite Hpe.
    pose proof (repeat_negative _ Hb Hc50). lia. }
  destruct Hcases as [[Hp Ht]|[Hneg Hu]].
  - repeat split; [done | lia | lia].
  - repeat split; [lia | done |].
    unfold total_of, select_user_points. rewrite Hu. lia.
Qed.

(** C3, at an input: the poor second attempt on Algebra is answered with
    [pointsEarned = -6] and the student keeps 180 points. *)
Lemma C3_repeat_delta_applied_when_positive_witness :
  (Students.post_progress 100 7 poor_attempt algebra_started).1
  = Students.Ok (mkProgressResult false true 80 90 2) (-6) []
  /\ user_points (Students.post_progress 100 7 poor_attempt algebra_started).2
     = user_points algebra_started.
Proof.
  split; [by vm_compute|].
  assert (Hex : Progress.getTopicProgress_row 7 "math" "Algebra" algebra_started
                <> None) by (by vm_compute).
  assert (Hrun : Students.post_progress 100 7 poor_attempt algebra_started
                 = (Students.Ok (mkProgressResult false true 80 90 2) (-6) [],
                    (Students.post_progress 100 7 poor_attempt
                       algebra_started).2)) by (by vm_compute).
  destruct (C3_repeat_delta_applied_when_positive 100 7 poor_attempt
              algebra_started _ _ _ _ Hex Hrun) as (_ & _ & _ & _ & _ & Hkeep & _).
  apply Hkeep. lia.
Defined.

(** The delta is the rounded one: just below a completion of 10 the
    subtraction rounds to -40, and the request reports -8 where the exact
    quotient has the floor -5. *)
Lemma repeat_delta_is_rounded :
  let c := Students.body_completion_percentage
             (Students.mkProgressBody "math" "Algebra"
                (9999999999999998 # 1000000000000000) None None) in
  (c < 10)%Q
  /\ fsub c 50 = (-40)%Q
  /\ Math_floor (fdiv (fsub c 50) 10) * 2 = -8
  /\ Qfloor ((c - 50) / 10) * 2 = -10.
Proof. by vm_compute. Qed.

(** ** Failures inside the evaluator *)

Lemma honest_consumed {A} (m : Async A) d :
  honest m -> true ∈ consumed d (m d).2 -> exists e, (m d).1 = inl e.
Proof.
  intros Hm Hc. destruct (Hm d) as (n & Hn & Hf & He).
  apply He. unfold consumed in Hc. rewrite Hf, length_drop in Hc.
  by replace (length (faults d) - (length (faults d) - n))%nat with n in Hc by lia.
Qed.

Lemma honest_resolve {A} (a : A) : honest (resolve a).
Proof.
  intros d. exists 0%nat. simpl. split; [lia|]. split; [done|].
  by intros ?%elem_of_nil.
Qed.

Lemma honest_reject {A} e : honest (@reject A e).
Proof.
  intros d. exists 0%nat. simpl. split; [lia|]. split; [done|]. eauto.
Qed.

Lemma honest_sql {A} (q : Db -> A * Db) :
  (forall d, faults (q d).2 = faults d) -> honest (sql q).
Proof.
  intros Hq d. unfold sql.
  destruct (faults d) as [|[] fs] eqn:E.
  - exists 0%nat. specialize (Hq d). destruct (q d) as [a d1]. simpl in *.
    split; [lia|]. split; [congruence|]. by intros ?%elem_of_nil.
  - exists 1%nat. simpl. split; [lia|]. split; [done|]. eauto.
  - exists 1%nat. specialize (Hq (set_faults fs d)).
    destruct (q (set_faults fs d)) as [a d1]. simpl in *.
    split; [lia|]. split; [done|].
    intros [?|?%elem_of_nil]%elem_of_cons; done.
Qed.

Lemma honest_query {A} (f : Db -> A) : honest (query f).
Proof. by apply honest_sql. Qed.

Lemma honest_await {A B} (m : Async A) (k : A -> Async B) :
  honest m -> (forall a, honest (k a)) -> honest (await m k).
Proof.
  intros Hm Hk d. destruct (Hm d) as (n1 & Hn1 & Hf1 & He1). unfold await.
  destruct (m d) as [[e|a] d1] eqn:E; simpl in *.
  - exists n1. eauto.
  - destruct (Hk a d1) as (n2 & Hn2 & Hf2 & He2).
    rewrite Hf1, length_drop in Hn2.
    exists (n1 + n2)%nat. split; [lia|]. split.
    + rewrite Hf2, Hf1. by rewrite drop_drop.
    + rewrite <- take_take_drop. intros [H|H]%elem_of_app.
      * destruct (He1 H) as [e ?]. discriminate.
      * apply He2. by rewrite Hf1.
Qed.

Lemma honest_getUserStats userId : honest (Achievement.getUserStats userId).
Proof.
  intros [up sp ac ua gs fl].
  destruct fl as [|b0 [|b1 [|b2 [|b3 fs]]]];
    repeat match goal with b : bool |- _ => destruct b end;
    match goal with
    | |- exists n : nat, (n <= length (faults (mkDb _ _ _ _ _ ?l)))%nat /\ _ =>
        exists (Nat.min 4 (length l))
    end; simpl;
    (split; [lia|]); (split; [reflexivity|]);
    try (intros _; eexists; reflexivity);
    intros H; exfalso;
    repeat (apply elem_of_cons in H as [H|H]; [discriminate|]);
    by apply elem_of_nil in H.
Qed.

Lemma honest_awardAchievement userId a :
  honest (Achievement.awardAchievement userId a).
Proof.
  apply honest_sql. intros d.
  by destruct (Achievement.granted userId a (user_achievements d)).
Qed.

Lemma honest_award_each userId earnedIds userStats all new :
  honest (Achievement.award_each userId earnedIds userStats all new).
Proof.
  revert new. induction all as [|a all IH]; intros new; simpl.
  - apply honest_resolve.
  - destruct (existsb _ earnedIds); [apply IH|].
    destruct (Achievement.checkAchievementCriteria a userStats); [|apply IH].
    apply honest_await; [apply honest_awardAchievement | intros _; apply IH].
Qed.

Lemma honest_checkAndAward_body userId :
  honest (Achievement.checkAndAward_body userId).
Proof.
  unfold Achievement.checkAndAward_body.
  apply honest_await; [apply honest_query | intros earned].
  apply honest_await; [apply honest_getUserStats | intros stats].
  apply honest_await; [apply honest_query | intros all].
  apply honest_award_each.
Qed.

(** [checkAndAwardAchievements] never rejects, and answers the empty list
    as soon as one of its statements has failed. *)
Lemma checkAndAward_swallows userId d :
  exists l,
    (Achievement.checkAndAwardAchievements userId d).1 = inr l
    /\ (true ∈ consumed d (Achievement.checkAndAwardAchievements userId d).2 ->
        l = []).
Proof.
  pose proof (honest_consumed (Achievement.checkAndAward_body userId) d
                (honest_checkAndAward_body userId)) as H.
  unfold Achievement.checkAndAwardAchievements, try_catch.
  destruct (Achievement.checkAndAward_body userId d) as [[e|l] d1]; simpl in *.
  - by exists [].
  - exists l. split; [done|]. intros Hc. by destruct (H Hc).
Qed.

(** C10.  [checkAndAwardAchievements] never rejects: it resolves, and with
    the empty list as soon as one of its statements (for the grants held,
    the statistics, the catalog, or the insertion of a grant) has failed.
    A request whose progress update and point award have succeeded is
    therefore answered with success, carrying that list.  The answer to a
    failed check is the answer to a check that found nothing new: with the
    "First Steps" badge on offer and its rule satisfied, a failing evaluator
    gives the response that an empty catalog gives. *)
Theorem C10_evaluator_failure_is_silent studentId d2 r d' :
  Achievement.checkAndAwardAchievements studentId d2 = (r, d') ->
  (exists newAchievements,
     r = inr newAchievements
     /\ (true ∈ consumed d2 d' -> newAchievements = [])
     /\ forall today body d progress d1,
          Students.valid body = true ->
          Progress.updateProgress studentId (Students.body_subject body)
            (Students.body_topic body)
            (Students.body_completion_percentage body)
            (default 0 (Students.body_score body))
            (default 0 (Students.body_time_spent body)) d
          = (inr progress, d1) ->
          points_step today studentId
            (Students.pointsEarned progress
               (Students.body_completion_percentage body)
               (default 0 (Students.body_score body)))
            (Students.body_subject body) d1 = (inr tt, d2) ->
          Students.post_progress today studentId body d
          = (Students.Ok progress
               (Students.pointsEarned progress
                  (Students.body_completion_percentage body)
                  (default 0 (Students.body_score body)))
               newAchievements, d'))
  /\ (Students.post_progress 100 7 full_attempt
        (newcomer [first_steps] evaluator_fails)).1
     = (Students.post_progress 100 7 full_attempt (newcomer [] [])).1
  /\ (Students.post_progress 100 7 full_attempt (newcomer [first_steps] [])).1
     = Students.Ok (mkProgressResult true false 100 90 1) 30 [first_steps].
Proof.
  intros E. split; [|split; by vm_compute].
  destruct (checkAndAward_swallows studentId d2) as (l & Hl & Hempty).
  rewrite E in Hl, Hempty. simpl in Hl, Hempty. subst r.
  exists l. split; [reflexivity|]. split; [exact Hempty|].
  intros today body d progress d1 Hv Hp Hs.
  unfold Students.post_progress. rewrite Hv.
  unfold Students.progress_handler. unfold await at 1. rewrite Hp.
  unfold points_step in Hs. unfold await at 1. rewrite Hs.
  unfold await. by rewrite E.
Qed.

(** C10, at an input: the complete first attempt of student 7, with a
    store that fails on the first statement of the evaluator. *)
Lemma C10_evaluator_failure_is_silent_witness :
  Students.post_progress 100 7 full_attempt (newcomer [first_steps] evaluator_fails)
  = (Students.Ok (mkProgressResult true false 100 90 1) 30 [],
     (Students.post_progress 100 7 full_attempt
        (newcomer [first_steps] evaluator_fails)).2).
Proof.
  pose (d := newcomer [first_steps] evaluator_fails).
  pose (d1 := (Progress.updateProgress 7 "math" "Algebra" 100 90 30 d).2).
  pose (d2 := (points_step 100 7 30 "math" d1).2).
  pose (d' := (Achievement.checkAndAwardAchievements 7 d2).2).
  assert (E : Achievement.checkAndAwardAchievements 7 d2 = (inr [], d'))
    by (by vm_compute).
  destruct (C10_evaluator_failure_is_silent 7 d2 (inr []) d' E)
    as [(l & [= <-] & _ & Hroute) _].
  assert (Hd' : d' = (Students.post_progress 100 7 full_attempt d).2)
    by (by vm_compute).
  change (Students.post_progress 100 7 full_attempt d
          = (Students.Ok (mkProgressResult true false 100 90 1) 30 [],
             (Students.post_progress 100 7 full_attempt d).2)).
  rewrite <- Hd'.
  apply (Hroute 100 full_attempt d (mkProgressResult true false 100 90 1) d1);
    by vm_compute.
Defined.

(** ** The offline queue *)

(** Offline, a progress update is queued once and nothing is sent. *)
Lemma updateProgress_offline progressData b :
  Client.onLine b = false ->
  Client.indexedDB_opens b = true ->
  Client.updateProgress progressData b
  = (Client.SavedOffline, Client.storeOfflineProgress progressData b)
  /\ Client.offline_progress (Client.storeOfflineProgress progressData b)
     = Client.offline_progress b ++
       [Client.mkQueuedProgress (Client.progress_key b) progressData
                                (Client.authToken b)]
  /\ Client.sent (Client.storeOfflineProgress progressData b) = Client.sent b.
Proof.
  intros Hoff Hdb. unfold Client.updateProgress, Client.storeOfflineProgress.
  by rewrite Hoff, Hdb.
Qed.

(** The sweep ends where its first loop starts: the value it iterates is
    the [IDBRequest], and neither loop body runs. *)
Lemma syncOfflineData_throws b : Client.syncOfflineData b = b.
Proof.
  unfold Client.syncOfflineData.
  destruct (negb (Client.onLine b)); [done|].
  by destruct (negb (Client.indexedDB_opens b)).
Qed.

Lemma handle_keeps ev b : same_stores b (Client.handle ev b).
Proof.
  unfold same_stores. destruct b as [nav mgr tok idb qp kp qs ks net snt sw].
  destruct ev as [| | | |i];
    unfold Client.handle, Client.syncPendingData, Client.start_sweep,
      Client.resume, Client.returns, Client.sync_progress; simpl.
  - destruct mgr; simpl; done.
  - done.
  - destruct mgr; simpl; [|done]. destruct nav; simpl; done.
  - destruct nav; simpl; done.
  - destruct (sw !! i) as [[|]|]; simpl; [destruct idb| |]; simpl; done.
Qed.

Lemma run_keeps evs b : same_stores b (Client.run evs b).
Proof.
  revert b. induction evs as [|ev evs IH]; intros b; [by repeat split|].
  change (Client.run (ev :: evs) b) with (Client.run evs (Client.handle ev b)).
  destruct (handle_keeps ev b) as (H1 & H2 & H3 & H4 & H5).
  destruct (IH (Client.handle ev b)) as (I1 & I2 & I3 & I4 & I5).
  unfold same_stores. by rewrite I1, I2, I3, I4, I5.
Qed.




(** ** Sweeps in flight *)

(** C8, as stated, fails: the page of [still_offline] comes back online and
    its two listeners each start a call of [syncOfflineData]; both are in
    flight at once, and still are when the first has opened the database.
    The timer does the same to a sweep that is still running. *)
Lemma C8_two_sweeps_in_flight :
  ~ (forall evs b,
        Client.sweeps b = [] ->
        (length (Client.sweeps (Client.run evs b)) <= 1)%nat)
  /\ Client.sweeps (Client.run [Client.OnlineEvent] still_offline)
     = [Client.AwaitOpen; Client.AwaitOpen]
  /\ Client.sweeps
       (Client.run [Client.OnlineEvent; Client.Resume 0] still_offline)
     = [Client.AwaitGetAll; Client.AwaitOpen]
  /\ Client.sweeps
       (Client.run [Client.ExplicitSync; Client.PeriodicTimer] (back_online []))
     = [Client.AwaitOpen; Client.AwaitOpen].
Proof.
  split; [|repeat split; by vm_compute].
  intros H. specialize (H [Client.OnlineEvent] still_offline eq_refl).
  vm_compute in H. lia.
Qed.

(** C8 (amended).  The client has no single-flight guard.  On a page that
    is online, the periodic timer and an explicit request each start a
    sweep, and the online event starts two (one from each of its listeners),
    whatever the number of sweeps already running. *)
Theorem C8_every_trigger_starts_a_sweep b :
  Client.onLine b = true ->
  Client.isOnline b = true ->
  length (Client.sweeps (Client.handle Client.PeriodicTimer b))
  = S (length (Client.sweeps b))
  /\ length (Client.sweeps (Client.handle Client.ExplicitSync b))
     = S (length (Client.sweeps b))
  /\ length (Client.sweeps (Client.handle Client.OnlineEvent b))
     = S (S (length (Client.sweeps b))).
Proof.
  destruct b as [nav mgr tok idb qp kp qs ks net snt sw]. simpl.
  intros -> ->. simpl. rewrite !length_app. simpl. repeat split; lia.
Qed.

(** C8, at an input: a sweep is running when the timer fires. *)
Lemma C8_every_trigger_starts_a_sweep_witness :
  length (Client.sweeps
            (Client.handle Client.PeriodicTimer
               (Client.handle Client.ExplicitSync (back_online []))))
  = 2%nat.
Proof.
  exact (proj1 (C8_every_trigger_starts_a_sweep
                  (Client.handle Client.ExplicitSync (back_online []))
                  eq_refl eq_refl)).
Defined.

(** *** A sweep that runs alone

    When nothing else is scheduled between its steps, a call of
    [syncOfflineData] in the event loop does what the function does when it
    is run in one piece. *)
Lemma sweep_alone b :
  Client.sweeps b = [] ->
  Client.run [Client.ExplicitSync; Client.Resume 0; Client.Resume 0] b
  = Client.syncOfflineData b.
Proof.
  intros Hs. rewrite syncOfflineData_throws.
  destruct b as [nav mgr tok idb qp kp qs ks net snt sw]. simpl in Hs. subst sw.
  destruct nav, idb; reflexivity.
Qed.

(** ** On a store that does not fail, the routes answer with success *)

Lemma updateProgress_returns studentId subject topic c s t d :
  faults d = [] ->
  exists progress d1,
    Progress.updateProgress studentId subject topic c s t d = (inr progress, d1)
    /\ faults d1 = [].
Proof.
  intros Hf. unfold Progress.updateProgress, await.
  rewrite query_calm by done.
  destruct (Progress.getTopicProgress_row studentId subject topic d);
    rewrite exec_calm by done; simpl; eauto.
Qed.

Lemma points_step_returns today studentId pointsEarned subject d :
  faults d = [] ->
  exists d2,
    points_step today studentId pointsEarned subject d = (inr tt, d2)
    /\ faults d2 = [].
Proof.
  intros Hf. unfold points_step.
  destruct (0 <? pointsEarned); [|by exists d].
  destruct (updateUserPoints_returns 0 today studentId pointsEarned subject d Hf)
    as (res & d2 & Hr & Hf2).
  exists d2. unfold await, updateUserPoints_depth. by rewrite Hr.
Qed.

Lemma post_progress_succeeds today studentId body d :
  faults d = [] ->
  Students.valid body = true ->
  exists progress pointsEarned newAchievements d',
    Students.post_progress today studentId body d
    = (Students.Ok progress pointsEarned newAchievements, d').
Proof.
  intros Hf Hv.
  destruct (updateProgress_returns studentId (Students.body_subject body)
              (Students.body_topic body)
              (Students.body_completion_percentage body)
              (default 0 (Students.body_score body))
              (default 0 (Students.body_time_spent body)) d Hf)
    as (progress & d1 & Hp & Hf1).
  destruct (points_step_returns today studentId
              (Students.pointsEarned progress
                 (Students.body_completion_percentage body)
                 (default 0 (Students.body_score body)))
              (Students.body_subject body) d1 Hf1) as (d2 & Hs & _).
  destruct (checkAndAward_swallows studentId d2) as (l & Hl & _).
  destruct (Achievement.checkAndAwardAchievements studentId d2) as [r d'] eqn:E.
  simpl in Hl. subst r.
  eexists progress, _, l, d'.
  unfold Students.post_progress. rewrite Hv.
  unfold Students.progress_handler. unfold await at 1. rewrite Hp.
  unfold points_step in Hs. unfold await at 1. rewrite Hs.
  unfold await. by rewrite E.
Qed.

Lemma post_score_succeeds userId subject gameId body d :
  faults d = [] ->
  Games.valid body = true ->
  isIn subject subjects = true ->
  exists isNewRecord bestScore totalPlays d',
    Games.post_score userId subject gameId body d
    = (Games.Ok (Games.body_score body)
         (Games.pointsEarned (Games.body_score body)
                             (default 0 (Games.body_time_taken body)))
         isNewRecord bestScore totalPlays, d').
Proof.
  intros Hf Hv Hs. unfold Games.post_score. rewrite Hv, Hs.
  unfold Games.score_handler, Games.saveGameScore, Games.getUserGameScores, await.
  rewrite exec_calm by done. rewrite query_calm by done.
  simpl. eauto.
Qed.

(** * Further properties *)

(** ** Game points and records *)

(** For a score the validator lets through, the points of a submission lie
    between 0 and 135, and a higher score never earns fewer points. *)
Theorem game_points_bounded_and_monotone score score' time_taken :
  0 <= score -> score <= score' -> score' <= 1000 ->
  0 <= Games.pointsEarned score time_taken
  /\ Games.pointsEarned score time_taken <= Games.pointsEarned score' time_taken
  /\ Games.pointsEarned score' time_taken <= 135.
Proof.
  intros H0 H1 H2. unfold Games.pointsEarned.
  assert (score / 10 <= score' / 10) by (apply Z.div_le_mono; lia).
  assert (0 <= score / 10) by (apply Z.div_pos; lia).
  assert (score' / 10 <= 100) by (apply Z.div_le_upper_bound; lia).
  repeat match goal with
         | |- context [if ?b then _ else _] => destruct b eqn:?
         end; lia.
Qed.

Lemma game_points_bounded_and_monotone_witness :
  0 <= Games.pointsEarned 69 120
  /\ Games.pointsEarned 69 120 <= Games.pointsEarned 70 120
  /\ Games.pointsEarned 70 120 <= 135.
Proof.
  apply (game_points_bounded_and_monotone 69 70 120); lia.
Defined.

Lemma fold_max_spec (l : list Z) (x : Z) :
  x <= List.fold_left Z.max l x
  /\ Forall (fun y => y <= List.fold_left Z.max l x) l
  /\ (List.fold_left Z.max l x = x \/ In (List.fold_left Z.max l x) l).
Proof.
  revert x. induction l as [|y l IH]; intros x; simpl.
  - split; [lia|]. split; [constructor | by left].
  - destruct (IH (Z.max x y)) as (Hx & Hall & Hin).
    split; [lia|]. split; [constructor; [lia | exact Hall]|].
    destruct Hin as [Hin|Hin]; [|by right; right].
    rewrite Hin. destruct (Z.max_spec x y) as [[_ ->]|[_ ->]]; auto.
Qed.

(** The best of the scores on record once [s] has joined them. *)
Lemma max_of_with_new (prev : list Z) (s : Z) :
  exists m,
    max_of (prev ++ [s]) = Some m
    /\ s <= m
    /\ Forall (fun x => x <= m) prev
    /\ (m = s \/ In m prev).
Proof.
  destruct prev as [|x prev]; simpl.
  - exists s. split; [done|]. split; [lia|]. split; [constructor | by left].
  - rewrite List.fold_left_app. simpl.
    destruct (fold_max_spec prev x) as (Hx & Hall & Hin).
    exists (Z.max (List.fold_left Z.max prev x) s).
    split; [done|]. split; [lia|]. split.
    + constructor; [lia|]. eapply Forall_impl; [exact Hall|].
      simpl. intros; lia.
    + destruct (Z.max_spec (List.fold_left Z.max prev x) s) as [[_ ->]|[_ ->]];
        [by left|]. right. destruct Hin as [->|Hin]; [by left | by right].
Qed.

Lemma score_handler_resolves userId subject gameId body d r d' :
  Games.score_handler userId subject gameId body d = (inr r, d') ->
  let score := Games.body_score body in
  let scores := previous_scores userId gameId d ++ [score] in
  r = Games.Ok score
        (Games.pointsEarned score (default 0 (Games.body_time_taken body)))
        (Games.strict_equal (Games.body_score_json body) (max_of scores))
        (max_of scores) (Z.of_nat (length scores)).
Proof.
  unfold Games.score_handler. intros H.
  apply await_inr in H as (u & d1 & Hs & H).
  apply exec_inr in Hs as [fs ->].
  apply await_inr in H as (rows & d2 & Hq & [= <- <-]).
  apply query_inr in Hq as (fs' & -> & ->).
  simpl. unfold previous_scores, Games.body_score.
  rewrite List.filter_app, List.map_app. simpl.
  rewrite Z.eqb_refl. rewrite (bool_decide_eq_true_2 (gameId = gameId)) by done.
  simpl. by rewrite ?List.length_app, ?List.length_map.
Qed.



(** The same play with the score sent as the string ["95"]: it is stored
    and counted, and it is the best score, but it is not flagged. *)
Lemma string_score_is_no_record :
  (Games.post_score 7 "physics" "projectile-motion"
     (Games.Build_ScoreBody (JsString 95) None (Some 120)) two_plays).1
  = Games.Ok 95 44 false (Some 95) 3.
Proof. by vm_compute. Qed.

(** Whatever the outcome of a score submission, the plays on record are
    kept as they are: the route at most appends one row, and touches no
    progress record and no catalog entry. *)
Theorem game_scores_append_only userId subject gameId body d :
  game_scores d `prefix_of`
    game_scores (Games.post_score userId subject gameId body d).2
  /\ (length (game_scores (Games.post_score userId subject gameId body d).2)
      <= S (length (game_scores d)))%nat
  /\ student_progress (Games.post_score userId subject gameId body d).2
     = student_progress d
  /\ achievements (Games.post_score userId subject gameId body d).2
     = achievements d.
Proof.
  unfold Games.post_score.
  assert (Hsame : game_scores d `prefix_of` game_scores d
                  /\ (length (game_scores d) <= S (length (game_scores d)))%nat
                  /\ student_progress d = student_progress d
                  /\ achievements d = achievements d).
  { split; [reflexivity|]. split; [lia|]. by split. }
  destruct (Games.valid body); [|exact Hsame].
  destruct (isIn subject subjects); [|exact Hsame].
  clear Hsame.
  unfold Games.score_handler, Games.saveGameScore, Games.getUserGameScores.
  unfold await, exec, query, sql.
  destruct d as [up sp ac ua gs fl].
  destruct fl as [|[] [|[] fs]]; simpl;
    (split; [first [reflexivity | by apply prefix_app_r]|]);
    (split; [rewrite ?List.length_app; simpl; lia|]);
    by split.
Qed.

(** ** Point awards, whatever their outcome *)

Lemma sql_cases {A} (q : Db -> A * Db) d :
  exists fs,
    sql q d = (inl StoreError, set_faults fs d)
    \/ sql q d = (inr (q (set_faults fs d)).1, (q (set_faults fs d)).2).
Proof.
  unfold sql. destruct (faults d) as [|[] fs] eqn:E.
  - exists []. right. rewrite <- E, set_faults_id. by destruct (q d).
  - exists fs. by left.
  - exists fs. right. by destruct (q (set_faults fs d)).
Qed.

Lemma credited_found today userId pointsToAdd subject t r0 :
  List.find (fun r => up_user_id r =? userId) t = Some r0 ->
  List.map (fun r =>
    if up_user_id r =? userId
    then mkPointsRow (up_user_id r) (total_points r0 + pointsToAdd)
           ((total_points r0 + pointsToAdd) / 100 + 1)
           (<[subject := default 0 (subject_points r0 !! subject) + pointsToAdd]>
              (subject_points r0))
           (newStreak today (last_activity_date r0) (daily_streak r0))
           (Some today)
    else r) t
  = credited today userId pointsToAdd subject t.
Proof.
  intros Hf. unfold credited. rewrite Hf.
  apply find_some in Hf as [_ H0]. apply Z.eqb_eq in H0.
  apply List.map_ext. intros r.
  destruct (up_user_id r =? userId) eqn:E; [|done].
  apply Z.eqb_eq in E. unfold awarded. by rewrite E, H0.
Qed.

Lemma initialised_found today userId t :
  List.find (fun r => up_user_id r =? userId) (initialised today userId t)
  = Some (default (fresh_account today userId)
                  (List.find (fun r => up_user_id r =? userId) t)).
Proof.
  unfold initialised.
  destruct (List.find _ t) as [r|] eqn:E; simpl; [done|].
  apply find_app_new; [done|]. simpl. apply Z.eqb_refl.
Qed.

Lemma initialised_twice today userId t :
  initialised today userId (initialised today userId t)
  = initialised today userId t.
Proof.
  unfold initialised at 1. by rewrite initialised_found.
Qed.

(** A call of [updateUserPoints] leaves the points table untouched,
    initialised, or initialised and credited; it writes nothing else. *)
Lemma updateUserPoints_outcome fuel today userId pointsToAdd subject d :
  award_outcome today userId pointsToAdd subject (user_points d)
    (user_points (updateUserPoints fuel today userId pointsToAdd subject d).2).
Proof.
  revert d. induction fuel as [|fuel IH]; intros d; [by left|].
  cbn [updateUserPoints]. unfold await at 1, query.
  destruct (sql_cases (fun x => (select_user_points userId x, x)) d)
    as [fs [-> | ->]]; [by left|]. simpl.
  change (select_user_points userId (set_faults fs d))
    with (List.find (fun r => up_user_id r =? userId) (user_points d)).
  destruct (List.find _ (user_points d)) as [r0|] eqn:E.
  - unfold await, exec.
    destruct (sql_cases
                (fun x => (tt, update_user_points userId (fun r =>
                   mkPointsRow (up_user_id r) (total_points r0 + pointsToAdd)
                     ((total_points r0 + pointsToAdd) / 100 + 1)
                     (<[subject := default 0 (subject_points r0 !! subject)
                                   + pointsToAdd]> (subject_points r0))
                     (newStreak today (last_activity_date r0) (daily_streak r0))
                     (Some today)) x)) (set_faults fs d))
      as [fs' [-> | ->]]; [by left|]. simpl.
    right; right. rewrite (credited_found _ _ _ _ _ _ E).
    unfold initialised. by rewrite E.
  - unfold await at 1, User.initializeUserPoints, exec.
    destruct (sql_cases
                (fun x => (tt,
                   match select_user_points userId x with
                   | Some _ => x
                   | None =>
                       set_user_points
                         (user_points x ++
                          [mkPointsRow userId 0 1 ∅ 0 (Some today)]) x
                   end)) (set_faults fs d))
      as [fs' [-> | ->]]; [by left|]. simpl.
    change (select_user_points userId (set_faults fs' (set_faults fs d)))
      with (List.find (fun r => up_user_id r =? userId) (user_points d)).
    rewrite E.
    match goal with
    | |- award_outcome _ _ _ _ _ (user_points (updateUserPoints _ _ _ _ _ ?x).2) =>
        specialize (IH x); simpl in IH
    end.
    assert (Hi : user_points d ++ [mkPointsRow userId 0 1 ∅ 0 (Some today)]
                 = initialised today userId (user_points d)).
    { unfold initialised. by rewrite E. }
    rewrite Hi in IH |- *. unfold award_outcome in IH |- *.
    rewrite initialised_twice in IH.
    destruct IH as [-> | [-> | ->]]; [right; by left | right; by left | right; by right].
Qed.

Lemma find_app_other {A} (p : A -> bool) (l : list A) (x : A) :
  p x = false -> List.find p (l ++ [x]) = List.find p l.
Proof.
  intros Hx. induction l as [|y l IH]; simpl.
  - by rewrite Hx.
  - by destruct (p y).
Qed.

Lemma find_map_other {A} (p q : A -> bool) (f : A -> A) (l : list A) :
  (forall x, q x = true -> p x = false /\ p (f x) = false) ->
  List.find p (List.map (fun x => if q x then f x else x) l) = List.find p l.
Proof.
  intros Hq. induction l as [|x l IH]; simpl; [done|].
  destruct (q x) eqn:E.
  - destruct (Hq x E) as [-> ->]. exact IH.
  - by rewrite IH.
Qed.

Lemma initialised_other today userId other t :
  other <> userId ->
  List.find (fun r => up_user_id r =? other) (initialised today userId t)
  = List.find (fun r => up_user_id r =? other) t.
Proof.
  intros Hne. unfold initialised.
  destruct (List.find (fun r => up_user_id r =? userId) t); [done|].
  apply find_app_other. simpl. apply Z.eqb_neq. congruence.
Qed.

Lemma credited_other today userId pointsToAdd subject other t :
  other <> userId ->
  List.find (fun r => up_user_id r =? other)
            (credited today userId pointsToAdd subject t)
  = List.find (fun r => up_user_id r =? other) t.
Proof.
  intros Hne. unfold credited.
  destruct (List.find (fun r => up_user_id r =? userId) t) as [r0|] eqn:E;
    [|done].
  apply find_some in E as [_ H0]. apply Z.eqb_eq in H0.
  apply find_map_other. intros r Hr. apply Z.eqb_eq in Hr.
  simpl. rewrite Hr, H0. split; apply Z.eqb_neq; congruence.
Qed.

Lemma credited_ids today userId pointsToAdd subject t :
  List.map up_user_id (credited today userId pointsToAdd subject t)
  = List.map up_user_id t.
Proof.
  unfold credited.
  destruct (List.find (fun r => up_user_id r =? userId) t) as [r0|] eqn:E;
    [|done].
  apply find_some in E as [_ H0]. apply Z.eqb_eq in H0.
  rewrite List.map_map. apply List.map_ext. intros r.
  destruct (up_user_id r =? userId) eqn:Hr; [|done].
  apply Z.eqb_eq in Hr. simpl. congruence.
Qed.

Lemma initialised_unique today userId t :
  unique_accounts t -> unique_accounts (initialised today userId t).
Proof.
  unfold unique_accounts, initialised. intros Hu.
  destruct (List.find (fun r => up_user_id r =? userId) t) eqn:E; [done|].
  rewrite List.map_app. simpl. apply NoDup_app. split; [done|].
  split; [|apply NoDup_singleton].
  intros x Hx ->%list_elem_of_singleton.
  apply list_elem_of_In, List.in_map_iff in Hx as (r & Hr & Hin).
  eapply List.find_none in E; [|exact Hin]. simpl in E.
  apply Z.eqb_neq in E. done.
Qed.

(** An award, whatever its outcome, leaves the rows of the other students
    as they are and keeps the table at one row per student. *)
Theorem award_spares_other_accounts fuel today userId pointsToAdd subject
    other d :
  other <> userId ->
  unique_accounts (user_points d) ->
  select_user_points other
    (updateUserPoints fuel today userId pointsToAdd subject d).2
  = select_user_points other d
  /\ unique_accounts
       (user_points (updateUserPoints fuel today userId pointsToAdd subject d).2).
Proof.
  intros Hne Hu. unfold select_user_points.
  destruct (updateUserPoints_outcome fuel today userId pointsToAdd subject d)
    as [-> | [-> | ->]].
  - done.
  - split; [by apply initialised_other | by apply initialised_unique].
  - split.
    + rewrite credited_other by done. by apply initialised_other.
    + unfold unique_accounts. rewrite credited_ids. by apply initialised_unique.
Qed.

(** At an input: 25 points for student 7 next to student 8. *)
Lemma award_spares_other_accounts_witness :
  select_user_points 8 (updateUserPoints 2 100 7 25 "math" two_students).2
  = select_user_points 8 two_students.
Proof.
  assert (Hne : 8 <> 7) by lia.
  assert (Hu : unique_accounts (user_points two_students)).
  { unfold unique_accounts. simpl. apply NoDup_cons. split.
    - intros H%list_elem_of_singleton; lia.
    - apply NoDup_singleton. }
  exact (proj1 (award_spares_other_accounts 2 100 7 25 "math" 8 two_students
                  Hne Hu)).
Defined.

(** *** The per-subject breakdown *)

Lemma subject_total_comm (z1 z2 y : Z) :
  z1 + (z2 + y) = z2 + (z1 + y).
Proof. lia. Qed.

Lemma subject_total_insert (m : gmap string Z) (k : string) (v : Z) :
  subject_total (<[k := v]> m) = subject_total m - default 0 (m !! k) + v.
Proof.
  unfold subject_total.
  destruct (m !! k) as [x|] eqn:E; simpl.
  - rewrite <- (insert_delete_eq m k v).
    rewrite map_fold_insert_L;
      [|intros; apply subject_total_comm | apply lookup_delete_eq].
    rewrite (map_fold_delete_L _ 0 k x m);
      [|intros; apply subject_total_comm | done].
    lia.
  - rewrite map_fold_insert_L;
      [|intros; apply subject_total_comm | done].
    lia.
Qed.

(** A successful award adds the points to the subject's entry of the
    breakdown and to nothing else, so a breakdown that adds up to the total
    still does after the award. *)
Theorem award_keeps_breakdown fuel today userId pointsToAdd subject d res d' :
  updateUserPoints fuel today userId pointsToAdd subject d = (inr res, d') ->
  subject_total (subject_points (found_account today userId d))
  = total_points (found_account today userId d) ->
  subject_total (pu_subject_points res) = pu_total_points res
  /\ pu_subject_points res !! subject
     = Some (default 0 (subject_points (found_account today userId d) !! subject)
             + pointsToAdd)
  /\ (forall s, s <> subject ->
        pu_subject_points res !! s
        = subject_points (found_account today userId d) !! s)
  /\ (subject_points <$> select_user_points userId d')
     = Some (pu_subject_points res).
Proof.
  intros H Hbal. apply updateUserPoints_inr in H as [Hrow ->]. simpl.
  rewrite subject_total_insert. split; [lia|].
  split; [apply lookup_insert_eq|].
  split; [intros s Hs; by apply lookup_insert_ne|].
  by rewrite Hrow.
Qed.

(** At an input: 25 points in math for the student of [two_students] who
    holds 100 in physics and 80 in math. *)
Lemma award_keeps_breakdown_witness :
  exists res,
    resolved (updateUserPoints 2 100 7 25 "math" two_students) = Some res
    /\ subject_total (pu_subject_points res) = pu_total_points res
    /\ pu_subject_points res !! "math" = Some 105.
Proof.
  assert (Hrun : updateUserPoints 2 100 7 25 "math" two_students
                 = (inr (mkPointsUpdate 205 3
                           (<["math" := 105]>
                              (<["physics" := 100]> {["math" := 80]})) 4),
                    (updateUserPoints 2 100 7 25 "math" two_students).2))
    by (by vm_compute).
  assert (Hbal : subject_total
                   (subject_points (found_account 100 7 two_students))
                 = total_points (found_account 100 7 two_students))
    by (by vm_compute).
  destruct (award_keeps_breakdown 2 100 7 25 "math" two_students _ _ Hrun Hbal)
    as (Hsum & Hmath & _).
  eexists. split; [by rewrite Hrun|]. split; [exact Hsum | exact Hmath].
Defined.

(** ** Whole progress requests and the points table *)

(** Whatever its outcome, a progress request either leaves the points table
    alone or leaves it as a positive award of the student does. *)
Lemma post_progress_points_outcome today studentId body d :
  user_points (Students.post_progress today studentId body d).2 = user_points d
  \/ exists pointsEarned,
       0 < pointsEarned
       /\ award_outcome today studentId pointsEarned (Students.body_subject body)
            (user_points d)
            (user_points (Students.post_progress today studentId body d).2).
Proof.
  remember (Students.post_progress today studentId body d).2 as d' eqn:Hd'.
  unfold Students.post_progress in Hd'.
  destruct (Students.valid body); [|left; by subst d'].
  unfold Students.progress_handler in Hd'.
  set (upd := Progress.updateProgress _ _ _ _ _ _) in Hd'.
  pose proof (preserves_updateProgress (fun x => user_points x = user_points d)
                studentId (Students.body_subject body) (Students.body_topic body)
                (Students.body_completion_percentage body)
                (default 0 (Students.body_score body))
                (default 0 (Students.body_time_spent body))
                (user_points_stable _) (fun _ _ H => H) d eq_refl) as Hu.
  fold upd in Hu. unfold await at 1 in Hd'.
  destruct (upd d) as [[e|pr] d1]; [left; by subst d'|]. simpl in Hu.
  set (pe := Students.pointsEarned pr _ _) in Hd'.
  destruct (0 <? pe) eqn:Hpos.
  - right. exists pe. apply Z.ltb_lt in Hpos. split; [done|].
    pose proof (updateUserPoints_outcome updateUserPoints_depth today studentId
                  pe (Students.body_subject body) d1) as Ho.
    rewrite Hu in Ho. unfold await in Hd'.
    destruct (updateUserPoints updateUserPoints_depth today studentId pe
                (Students.body_subject body) d1) as [[e|res] d2];
      [by subst d'|]. simpl in Ho, Hd'.
    pose proof (checkAndAward_keeps_user_points (user_points d2) studentId d2
                  eq_refl) as Hk.
    destruct (Achievement.checkAndAwardAchievements studentId d2) as [[e|l] d3];
      simpl in *; subst d'; by rewrite Hk.
  - left. unfold await in Hd'. simpl in Hd'.
    pose proof (checkAndAward_keeps_user_points (user_points d1) studentId d1
                  eq_refl) as Hk.
    destruct (Achievement.checkAndAwardAchievements studentId d1) as [[e|l] d3];
      simpl in *; subst d'; by rewrite Hk.
Qed.

Lemma credited_total today userId pointsToAdd subject t :
  (total_points <$>
     List.find (fun r => up_user_id r =? userId)
               (credited today userId pointsToAdd subject t))
  = ((fun r => total_points r + pointsToAdd) <$>
       List.find (fun r => up_user_id r =? userId) t).
Proof.
  unfold credited.
  destruct (List.find (fun r => up_user_id r =? userId) t) as [r0|] eqn:E;
    [|by rewrite E].
  pose proof E as E'. apply find_some in E' as [_ H0].
  rewrite (find_map_update (fun r => up_user_id r =? userId)
             (fun _ => awarded today pointsToAdd subject r0)).
  - by rewrite E.
  - intros r _. exact H0.
Qed.

(** Whatever the request and whatever fails on the way, a progress request
    never lowers the student's total, and it leaves the rows of the other
    students as they are. *)
Theorem progress_never_lowers_total today studentId body other d :
  other <> studentId ->
  total_of studentId d
  <= total_of studentId (Students.post_progress today studentId body d).2
  /\ select_user_points other (Students.post_progress today studentId body d).2
     = select_user_points other d.
Proof.
  intros Hne. unfold total_of, select_user_points.
  destruct (post_progress_points_outcome today studentId body d)
    as [-> | (pe & Hpos & [-> | [-> | ->]])].
  - split; [lia | done].
  - split; [lia | done].
  - rewrite initialised_found.
    rewrite (initialised_other today studentId other) by done.
    split; [|done].
    destruct (List.find _ (user_points d)); simpl; lia.
  - rewrite (credited_other today studentId pe _ other) by done.
    rewrite (initialised_other today studentId other) by done.
    split; [|done].
    pose proof (credited_total today studentId pe (Students.body_subject body)
                  (initialised today studentId (user_points d))) as Ht.
    rewrite initialised_found in Ht. simpl in Ht.
    destruct (List.find _ (credited _ _ _ _ _)) as [r|]; [|discriminate].
    injection Ht as ->.
    destruct (List.find _ (user_points d)); simpl; lia.
Qed.

(** At an input: the poor second attempt on Algebra, seen from student 8. *)
Lemma progress_never_lowers_total_witness :
  total_of 7 algebra_started
  <= total_of 7 (Students.post_progress 100 7 poor_attempt algebra_started).2.
Proof.
  assert (Hne : 8 <> 7) by lia.
  exact (proj1 (progress_never_lowers_total 100 7 poor_attempt 8
                  algebra_started Hne)).
Defined.

Lemma newStreak_nonneg today last streak :
  0 <= streak -> 0 <= newStreak today last streak.
Proof.
  intros H. unfold newStreak. repeat case_bool_decide; lia.
Qed.

Lemma awarded_sound today pointsToAdd subject r :
  0 < pointsToAdd -> sound_account r ->
  sound_account (awarded today pointsToAdd subject r).
Proof.
  intros Hp (Hl & Ht & Hs & Hd & Hb). unfold sound_account, awarded. simpl.
  split; [done|]. split; [lia|]. split; [by apply newStreak_nonneg|].
  split; [done|]. rewrite subject_total_insert. lia.
Qed.

Lemma fresh_account_sound today userId :
  sound_account (fresh_account today userId).
Proof.
  unfold sound_account, fresh_account. simpl.
  split; [done|]. split; [lia|]. split; [lia|]. split; [done|].
  unfold subject_total. by rewrite map_fold_empty.
Qed.

Lemma initialised_sound today userId t :
  Forall sound_account t -> Forall sound_account (initialised today userId t).
Proof.
  intros H. unfold initialised.
  destruct (List.find _ t); [done|].
  apply Forall_app. split; [done|].
  constructor; [apply fresh_account_sound | constructor].
Qed.

Lemma credited_sound today userId pointsToAdd subject t :
  0 < pointsToAdd ->
  Forall sound_account t ->
  Forall sound_account (credited today userId pointsToAdd subject t).
Proof.
  intros Hp H. unfold credited.
  destruct (List.find (fun r => up_user_id r =? userId) t) as [r0|] eqn:E;
    [|done].
  apply find_some in E as [Hin _].
  assert (H0 : sound_account r0).
  { rewrite List.Forall_forall in H. by apply H. }
  apply Forall_map. eapply Forall_impl; [exact H|].
  intros r Hr. simpl. destruct (up_user_id r =? userId); [|done].
  by apply awarded_sound.
Qed.

(** Progress requests keep the points table well-formed, whatever their
    outcome: one row per student, each with its level at
    [floor(total / 100) + 1], a total and a streak that are not negative, a
    date, and a per-subject breakdown that adds up to the total. *)
Theorem accounts_stay_sound today studentId body d :
  Forall sound_account (user_points d) ->
  unique_accounts (user_points d) ->
  Forall sound_account
    (user_points (Students.post_progress today studentId body d).2)
  /\ unique_accounts
       (user_points (Students.post_progress today studentId body d).2).
Proof.
  intros Hs Hu.
  destruct (post_progress_points_outcome today studentId body d)
    as [-> | (pe & Hpos & [-> | [-> | ->]])].
  - done.
  - done.
  - split; [by apply initialised_sound | by apply initialised_unique].
  - split.
    + by apply credited_sound, initialised_sound.
    + unfold unique_accounts. rewrite credited_ids. by apply initialised_unique.
Qed.

(** At an input: a first complete attempt by student 7 of [two_students]. *)
Lemma accounts_stay_sound_witness :
  Forall sound_account
    (user_points (Students.post_progress 100 7 full_attempt two_students).2).
Proof.
  assert (Hs : Forall sound_account (user_points two_students)).
  { repeat constructor; simpl; try lia; try done; by vm_compute. }
  assert (Hu : unique_accounts (user_points two_students)).
  { unfold unique_accounts. simpl. apply NoDup_cons. split.
    - intros H%list_elem_of_singleton; lia.
    - apply NoDup_singleton. }
  exact (proj1 (accounts_stay_sound 100 7 full_attempt two_students Hs Hu)).
Defined.

(** ** The points of a progress update *)

Lemma valid_progress_ranges body :
  Students.valid body = true ->
  (0 <= Students.body_completion_percentage body)%Q
  /\ (Students.body_completion_percentage body <= 100)%Q
  /\ 0 <= default 0 (Students.body_score body) <= 100
  /\ 0 <= default 0 (Students.body_time_spent body)
  /\ isIn (Students.body_subject body) subjects = true.
Proof.
  unfold Students.valid. intros H.
  repeat match goal with
         | H : _ && _ = true |- _ => apply andb_prop in H as [H ?]
         end.
  repeat match goal with
         | H : Qle_bool _ _ = true |- _ => apply Qle_bool_iff in H
         end.
  split; [done|]. split; [done|].
  split.
  - destruct (Students.body_score body) as [s|]; simpl in *; lia.
  - split; [|done].
    destruct (Students.body_time_spent body) as [t|]; simpl in *; lia.
Qed.

(** A first attempt on a topic that is answered with success earns between
    5 and 30 points, and the student's total grows by exactly that. *)
Theorem first_attempt_earns_5_to_30 today studentId body d
    progress pointsEarned newAchievements d' :
  Students.valid body = true ->
  Progress.getTopicProgress_row studentId (Students.body_subject body)
    (Students.body_topic body) d = None ->
  Students.post_progress today studentId body d
  = (Students.Ok progress pointsEarned newAchievements, d') ->
  5 <= pointsEarned <= 30
  /\ total_of studentId d' = total_of studentId d + pointsEarned
  /\ created progress = true
  /\ pr_attempts progress = 1.
Proof.
  intros Hv Hnew H.
  apply valid_progress_ranges in Hv as (Hc0 & Hc1 & Hs & _ & _).
  apply post_progress_ok in H as (d1 & d2 & Hp & Hpe & Hstep & Hc).
  apply updateProgress_inr in Hp as (_ & _ & _ & Hat & Hcr & _ & Hu1 & _).
  rewrite Hnew in Hcr, Hat. simpl in Hcr, Hat.
  unfold Students.pointsEarned in Hpe. rewrite Hcr in Hpe.
  pose proof (tenth_range _ Hc0 Hc1) as Hf.
  assert (Hrange : 5 <= pointsEarned <= 30).
  { rewrite Hpe.
    destruct (80 <=? default 0 (Students.body_score body));
      [|destruct (60 <=? default 0 (Students.body_score body))]; lia. }
  split; [exact Hrange|]. split; [|done].
  pose proof (checkAndAward_keeps_user_points (user_points d2) studentId d2
                eq_refl) as Hk.
  rewrite Hc in Hk. simpl in Hk.
  unfold points_step in Hstep.
  destruct (0 <? pointsEarned) eqn:Hpos; [|apply Z.ltb_ge in Hpos; lia].
  apply await_inr in Hstep as (res & d3 & Hr & [= ->]).
  apply updateUserPoints_inr in Hr as [Hr _].
  unfold total_of, found_account, select_user_points in *.
  rewrite Hk, Hr, Hu1. simpl.
  by destruct (List.find _ (user_points d)).
Qed.

(** At an input: the complete first attempt of student 7, scored 90. *)
Lemma first_attempt_earns_5_to_30_witness :
  total_of 7 (Students.post_progress 100 7 full_attempt (newcomer [] [])).2
  = total_of 7 (newcomer [] []) + 30.
Proof.
  assert (Hv : Students.valid full_attempt = true) by (by vm_compute).
  assert (Hnew : Progress.getTopicProgress_row 7 "math" "Algebra"
                   (newcomer [] []) = None) by (by vm_compute).
  assert (Hrun : Students.post_progress 100 7 full_attempt (newcomer [] [])
                 = (Students.Ok (mkProgressResult true false 100 90 1) 30 [],
                    (Students.post_progress 100 7 full_attempt
                       (newcomer [] [])).2)) by (by vm_compute).
  exact (proj1 (proj2 (first_attempt_earns_5_to_30 100 7 full_attempt
                         (newcomer [] []) _ _ _ _ Hv Hnew Hrun))).
Defined.

(** A repeat attempt that is answered with success reports an even number
    of points between -10 and 10, and the number is positive exactly when
    the submitted completion is 60 or more. *)
Theorem repeat_attempt_earns_from_60 today studentId body d
    progress pointsEarned newAchievements d' :
  Students.valid body = true ->
  Progress.getTopicProgress_row studentId (Students.body_subject body)
    (Students.body_topic body) d <> None ->
  Students.post_progress today studentId body d
  = (Students.Ok progress pointsEarned newAchievements, d') ->
  -10 <= pointsEarned <= 10
  /\ pointsEarned mod 2 = 0
  /\ (0 < pointsEarned <-> (60 <= Students.body_completion_percentage body)%Q)
  /\ updated progress = true.
Proof.
  intros Hv Hex H.
  apply valid_progress_ranges in Hv as (Hc0 & Hc1 & _).
  apply post_progress_ok in H as (d1 & d2 & Hp & Hpe & _ & _).
  apply updateProgress_inr in Hp as (_ & _ & _ & _ & Hcr & Hup & _).
  rewrite bool_decide_eq_false_2 in Hcr by done.
  rewrite Hcr in Hup. simpl in Hup.
  unfold Students.pointsEarned in Hpe. rewrite Hcr, Hup in Hpe.
  pose proof (repeat_range _ Hc0 Hc1) as Hf.
  pose proof (repeat_positive _ (body_completion_binary64 body)) as Hpos.
  rewrite Hpe. split; [lia|]. split; [apply Z.mod_mul; lia|].
  split; [|done]. rewrite <- Hpos. lia.
Qed.

(** At an input: the poor second attempt on Algebra. *)
Lemma repeat_attempt_earns_from_60_witness :
  exists pointsEarned,
    (Students.post_progress 100 7 poor_attempt algebra_started).1
    = Students.Ok (mkProgressResult false true 80 90 2) pointsEarned []
    /\ -10 <= pointsEarned <= 10
    /\ pointsEarned mod 2 = 0.
Proof.
  exists (-6). split; [by vm_compute|].
  assert (Hv : Students.valid poor_attempt = true) by (by vm_compute).
  assert (Hex : Progress.getTopicProgress_row 7 "math" "Algebra" algebra_started
                <> None) by (by vm_compute).
  assert (Hrun : Students.post_progress 100 7 poor_attempt algebra_started
                 = (Students.Ok (mkProgressResult false true 80 90 2) (-6) [],
                    (Students.post_progress 100 7 poor_attempt
                       algebra_started).2)) by (by vm_compute).
  destruct (repeat_attempt_earns_from_60 100 7 poor_attempt algebra_started
              _ _ _ _ Hv Hex Hrun) as (Hr & Hm & _).
  by split.
Defined.

(** ** The progress table *)

(** Whatever its outcome, [updateProgress] leaves the progress table as it
    was or as [progress_after] describes. *)
Lemma updateProgress_outcome studentId subject topic c s t d :
  student_progress (Progress.updateProgress studentId subject topic c s t d).2
  = student_progress d
  \/ student_progress (Progress.updateProgress studentId subject topic c s t d).2
     = progress_after studentId subject topic c s t (student_progress d).
Proof.
  remember (Progress.updateProgress studentId subject topic c s t d).2 as d'
    eqn:Hd'.
  unfold Progress.updateProgress, await at 1, query in Hd'.
  destruct (sql_cases
              (fun x => (Progress.getTopicProgress_row studentId subject topic x, x))
              d) as [fs [E | E]]; rewrite E in Hd'; [left; by subst d'|].
  simpl in Hd'.
  change (Progress.getTopicProgress_row studentId subject topic (set_faults fs d))
    with (List.find (Progress.matches studentId subject topic)
                    (student_progress d)) in Hd'.
  unfold progress_after.
  destruct (List.find _ (student_progress d)) as [e|];
    unfold await, exec in Hd';
    match type of Hd' with
    | context [sql ?q ?x] =>
        destruct (sql_cases q x) as [fs' [E' | E']]; rewrite E' in Hd'
    end; subst d'; simpl; auto.
Qed.




Lemma matches_same_key studentId subject topic studentId' subject' topic' r :
  Progress.matches studentId subject topic r = true ->
  Progress.matches studentId' subject' topic' r = true ->
  studentId' = studentId /\ subject' = subject /\ topic' = topic.
Proof.
  unfold Progress.matches. intros H H'.
  apply andb_prop in H as [H Ht]. apply andb_prop in H as [Hi Hs].
  apply andb_prop in H' as [H' Ht']. apply andb_prop in H' as [Hi' Hs'].
  apply Z.eqb_eq in Hi, Hi'.
  apply bool_decide_eq_true in Hs, Hs', Ht, Ht'.
  repeat split; congruence.
Qed.







Lemma matches_other_key studentId subject topic studentId' subject' topic' r :
  (studentId', subject', topic') <> (studentId, subject, topic) ->
  Progress.matches studentId subject topic r = true ->
  Progress.matches studentId' subject' topic' r = false.
Proof.
  intros Hne M.
  destruct (Progress.matches studentId' subject' topic' r) eqn:M'; [|done].
  destruct (matches_same_key _ _ _ _ _ _ _ M M') as (-> & -> & ->). done.
Qed.

(** A successful update of a topic the student has worked on before never
    lowers the stored completion or score and never stores less than what
    was submitted, and the attempt is counted.  The rows of every other
    topic are found as before. *)
Theorem progress_update_is_monotone studentId subject topic c s t
    studentId' subject' topic' d e res d' :
  (studentId', subject', topic') <> (studentId, subject, topic) ->
  Progress.getTopicProgress_row studentId subject topic d = Some e ->
  Progress.updateProgress studentId subject topic c s t d = (inr res, d') ->
  (exists row,
     Progress.getTopicProgress_row studentId subject topic d' = Some row
     /\ (completion_percentage e <= completion_percentage row)%Q
     /\ (c <= completion_percentage row)%Q
     /\ sp_score e <= sp_score row
     /\ s <= sp_score row
     /\ attempts row = attempts e + 1)
  /\ Progress.getTopicProgress_row studentId' subject' topic' d'
     = Progress.getTopicProgress_row studentId' subject' topic' d.
Proof.
  intros Hne He H. split.
  - apply updateProgress_inr in H as (Hrow & _).
    rewrite He in Hrow. simpl in Hrow.
    eexists. split; [exact Hrow|]. simpl.
    destruct (Math_max_largest (completion_percentage e) c) as [_ Hall].
    inversion Hall as [|? ? H1 Hall']. inversion Hall' as [|? ? H2 _]. subst.
    repeat split; try done; lia.
  - pose proof (updateProgress_outcome studentId subject topic c s t d) as Ho.
    rewrite H in Ho. simpl in Ho.
    unfold Progress.getTopicProgress_row in *.
    destruct Ho as [-> | ->]; [done|].
    unfold progress_after. rewrite He.
    apply (find_map_other (Progress.matches studentId' subject' topic')
             (Progress.matches studentId subject topic)
             (fun r => mkProgressRow (sp_student_id r) (sp_subject r) (sp_topic r)
                (Math_max (completion_percentage e) c)
                (Z.max (sp_score e) s) (time_spent e + t) (attempts e + 1))).
    intros r Hr. split.
    + by eapply matches_other_key.
    + eapply matches_other_key; [exact Hne|].
      unfold Progress.matches in *. exact Hr.
Qed.

(** At an input: a poorer second attempt on Algebra, seen from Geometry. *)
Lemma progress_update_is_monotone_witness :
  exists row,
    Progress.getTopicProgress_row 7 "math" "Algebra"
      (Progress.updateProgress 7 "math" "Algebra" 20 10 30 algebra_started).2
    = Some row
    /\ 90 <= sp_score row /\ attempts row = 2.
Proof.
  assert (Hne : (7, "math", "Geometry") <> (7, "math", "Algebra"))
    by discriminate.
  assert (He : Progress.getTopicProgress_row 7 "math" "Algebra" algebra_started
               = Some (mkProgressRow 7 "math" "Algebra" 80 90 30 1))
    by (by vm_compute).
  assert (Hrun : Progress.updateProgress 7 "math" "Algebra" 20 10 30
                   algebra_started
                 = (inr (mkProgressResult false true 80 90 2),
                    (Progress.updateProgress 7 "math" "Algebra" 20 10 30
                       algebra_started).2)) by (by vm_compute).
  destruct (progress_update_is_monotone 7 "math" "Algebra" 20 10 30
              7 "math" "Geometry" algebra_started _ _ _ Hne He Hrun)
    as [(row & Hrow & _ & _ & Hs & _ & Ha) _].
  exists row. split; [exact Hrow|]. split; [exact Hs | exact Ha].
Defined.

(** ** The catalog in the order of [getAllAchievements] *)

Lemma insert_sorted_perm a l : Achievement.insert_sorted a l ≡ₚ a :: l.
Proof.
  induction l as [|b l IH]; simpl; [done|].
  destruct (Achievement.catalog_le a b); [done|].
  rewrite IH. apply Permutation_swap.
Qed.

Lemma order_catalog_perm l : Achievement.order_catalog l ≡ₚ l.
Proof.
  induction l as [|a l IH]; simpl; [done|].
  unfold Achievement.order_catalog in *. simpl.
  by rewrite insert_sorted_perm, IH.
Qed.

Lemma catalog_le_total a b :
  Achievement.catalog_le a b = false -> Achievement.catalog_le b a = true.
Proof.
  unfold Achievement.catalog_le.
  rewrite (String.compare_antisym (ach_category a) (ach_category b)).
  destruct (String.compare (ach_category b) (ach_category a)); simpl;
    try done. intros H. apply Z.leb_gt in H. apply Z.leb_le. lia.
Qed.

Lemma insert_sorted_sorted a l :
  catalog_sorted l -> catalog_sorted (Achievement.insert_sorted a l).
Proof.
  unfold catalog_sorted. intros Hs.
  induction l as [|b l IH]; simpl.
  - repeat constructor.
  - destruct (Achievement.catalog_le a b) eqn:E.
    + constructor; [done|]. by constructor.
    + apply Sorted_inv in Hs as [Hs Hb].
      constructor; [by apply IH|].
      destruct l as [|c l]; simpl.
      * constructor. by apply catalog_le_total.
      * destruct (Achievement.catalog_le a c).
        -- constructor. by apply catalog_le_total.
        -- constructor. by inversion Hb.
Qed.

(** When it resolves, [getAllAchievements] hands back every catalog entry
    exactly once, ordered by category and, within a category, by
    [points_required]. *)
Theorem catalog_is_listed_in_order d all d' :
  Achievement.getAllAchievements d = (inr all, d') ->
  all ≡ₚ achievements d /\ catalog_sorted all.
Proof.
  intros H. apply query_inr in H as (fs & -> & _). simpl.
  split; [apply order_catalog_perm|].
  unfold Achievement.order_catalog.
  induction (achievements d) as [|a l IH]; simpl.
  - constructor.
  - by apply insert_sorted_sorted.
Qed.

(** At an input: the two badges of [algebra_completed], stored out of
    order. *)
Lemma catalog_is_listed_in_order_witness :
  resolved (Achievement.getAllAchievements algebra_completed)
  = Some [game_master; first_steps]
  /\ catalog_sorted [game_master; first_steps].
Proof.
  split; [by vm_compute|].
  exact (proj2 (catalog_is_listed_in_order algebra_completed
                  [game_master; first_steps] algebra_completed eq_refl)).
Defined.

(** ** What the evaluator returns *)

Lemma existsb_held userId d a :
  In a (achievements d) ->
  existsb (Z.eqb (ach_id a)) (List.map ach_id (held_rows userId d))
  = Achievement.granted userId (ach_id a) (user_achievements d).
Proof.
  intros Ha. apply eq_true_iff_eq.
  unfold Achievement.granted, held_rows.
  rewrite !List.existsb_exists. split.
  - intros (i & Hi & Hid). apply Z.eqb_eq in Hid.
    apply List.in_map_iff in Hi as (x & <- & Hx).
    apply List.in_flat_map in Hx as (ua & Hua & Hx).
    destruct (ua_user_id ua =? userId) eqn:Hu; [|done].
    apply List.filter_In in Hx as [_ Hx]. apply Z.eqb_eq in Hx.
    exists ua. split; [done|]. rewrite Hu. simpl. apply Z.eqb_eq. congruence.
  - intros (ua & Hua & Hm). apply andb_prop in Hm as [Hu Hm].
    apply Z.eqb_eq in Hm.
    exists (ach_id a). split; [|apply Z.eqb_refl].
    apply List.in_map_iff. exists a. split; [done|].
    apply List.in_flat_map. exists ua. split; [done|].
    rewrite Hu. apply List.filter_In. split; [done|]. by apply Z.eqb_eq.
Qed.

Lemma granted_app userId a t s :
  Achievement.granted userId a t = true ->
  Achievement.granted userId a (t ++ s) = true.
Proof.
  unfold Achievement.granted. rewrite List.existsb_app. by intros ->.
Qed.

Lemma granted_after_insert userId a t :
  Achievement.granted userId a (t ++ [mkGrantRow userId a]) = true.
Proof.
  unfold Achievement.granted. rewrite List.existsb_app. simpl.
  rewrite !Z.eqb_refl. simpl. apply orb_true_r.
Qed.

Lemma awardAchievement_frame userId a d r d' :
  Achievement.awardAchievement userId a d = (inr r, d') ->
  same_but_grants d d'
  /\ (exists suffix, user_achievements d' = user_achievements d ++ suffix)
  /\ Achievement.granted userId a (user_achievements d') = true.
Proof.
  intros H. apply sql_inr in H as [fs H]. simpl in H.
  destruct (Achievement.granted userId a (user_achievements d)) eqn:G;
    injection H as <- <-; simpl.
  - split; [done|]. split; [exists []; by rewrite List.app_nil_r | done].
  - split; [done|]. split; [by eexists | apply granted_after_insert].
Qed.

(** The loop of the evaluator, when it runs to its end. *)
Lemma award_each_inr userId earnedIds userStats all new d l d' :
  Achievement.award_each userId earnedIds userStats all new d = (inr l, d') ->
  same_but_grants d d'
  /\ (exists suffix, user_achievements d' = user_achievements d ++ suffix)
  /\ (exists added,
        l = new ++ added
        /\ Forall (fun a =>
             In a all
             /\ existsb (Z.eqb (ach_id a)) earnedIds = false
             /\ Achievement.checkAchievementCriteria a userStats = true) added)
  /\ (forall a,
        In a all ->
        existsb (Z.eqb (ach_id a)) earnedIds = false ->
        Achievement.checkAchievementCriteria a userStats = true ->
        In a l
        /\ Achievement.granted userId (ach_id a) (user_achievements d') = true).
Proof.
  revert new d. induction all as [|a all IH]; intros new d H; simpl in H.
  - injection H as <- <-. split; [done|].
    split; [exists []; by rewrite List.app_nil_r|].
    split; [exists []; by rewrite List.app_nil_r|].
    intros a [].
  - destruct (existsb (Z.eqb (ach_id a)) earnedIds) eqn:He.
    { apply IH in H as (Hf & Hs & (added & -> & Hadd) & Hall).
      split; [done|]. split; [done|]. split.
      - exists added. split; [done|].
        eapply Forall_impl; [exact Hadd|]. simpl. intros x (? & ? & ?).
        split; [by right | by split].
      - intros x [<-|Hx] Hx1 Hx2; [congruence | by apply Hall]. }
    destruct (Achievement.checkAchievementCriteria a userStats) eqn:Hc.
    2:{ apply IH in H as (Hf & Hs & (added & -> & Hadd) & Hall).
        split; [done|]. split; [done|]. split.
        - exists added. split; [done|].
          eapply Forall_impl; [exact Hadd|]. simpl. intros x (? & ? & ?).
          split; [by right | by split].
        - intros x [<-|Hx] Hx1 Hx2; [congruence | by apply Hall]. }
    apply await_inr in H as (r & d1 & Ha & H).
    apply awardAchievement_frame in Ha as (Hf1 & (s1 & Hs1) & Hg1).
    apply IH in H as (Hf & (s2 & Hs2) & (added & -> & Hadd) & Hall).
    split.
    { destruct Hf1 as (? & ? & ? & ?), Hf as (? & ? & ? & ?).
      repeat split; congruence. }
    split.
    { exists (s1 ++ s2). by rewrite Hs2, Hs1, List.app_assoc. }
    split.
    + exists (a :: added). split; [by rewrite <- List.app_assoc|].
      constructor; [split; [by left | by split]|].
      eapply Forall_impl; [exact Hadd|]. simpl. intros x (? & ? & ?).
      split; [by right | by split].
    + intros x [<-|Hx] Hx1 Hx2; [|by apply Hall].
      split.
      * rewrite <- List.app_assoc. apply List.in_or_app. right. by left.
      * rewrite Hs2. by apply granted_app.
Qed.

Lemma getUserStats_inr userId d st d' :
  Achievement.getUserStats userId d = (inr st, d') ->
  st = snapshot userId d
  /\ same_but_grants d d'
  /\ user_achievements d' = user_achievements d.
Proof.
  destruct d as [up sp ac ua gs fl].
  destruct fl as [|b0 [|b1 [|b2 [|b3 fs]]]];
    repeat match goal with b : bool |- _ => destruct b end;
    simpl; intros [= <- <-]; done.
Qed.

Lemma checkAndAward_body_inr userId d l d' :
  Achievement.checkAndAward_body userId d = (inr l, d') ->
  same_but_grants d d'
  /\ (exists suffix, user_achievements d' = user_achievements d ++ suffix)
  /\ Forall (fun a =>
       In a (achievements d)
       /\ Achievement.granted userId (ach_id a) (user_achievements d) = false
       /\ Achievement.checkAchievementCriteria a (snapshot userId d) = true
       /\ Achievement.granted userId (ach_id a) (user_achievements d') = true) l
  /\ (forall a,
        In a (achievements d) ->
        Achievement.checkAchievementCriteria a (snapshot userId d) = true ->
        Achievement.granted userId (ach_id a) (user_achievements d') = true).
Proof.
  unfold Achievement.checkAndAward_body. intros H.
  apply await_inr in H as (earned & d1 & H1 & H).
  apply query_inr in H1 as (fs1 & -> & ->).
  apply await_inr in H as (st & d2 & H2 & H).
  apply getUserStats_inr in H2 as (-> & Hf2 & Hg2).
  apply await_inr in H as (all & d3 & H3 & H).
  apply query_inr in H3 as (fs3 & -> & ->).
  apply award_each_inr in H as (Hf & (suffix & Hs) & (added & -> & Hadd) & Hall).
  unfold same_but_grants in *. simpl in *.
  destruct Hf2 as (E1 & E2 & E3 & E4).
  destruct Hf as (F1 & F2 & F3 & F4).
  assert (Hcat : forall a, In a (Achievement.order_catalog (achievements d2))
                           <-> In a (achievements d)).
  { intros a. rewrite E4. rewrite <- !list_elem_of_In.
    by rewrite order_catalog_perm. }
  change (List.flat_map _ (user_achievements d)) with (held_rows userId d)
    in Hadd, Hall.
  rewrite Hg2 in Hs.
  split; [repeat split; congruence|].
  split; [by exists suffix|].
  split.
  - rewrite List.Forall_forall in Hadd. apply List.Forall_forall.
    intros a Ha. destruct (Hadd a Ha) as (Hin & Hearned & Hcrit).
    pose proof (proj1 (Hcat a) Hin) as Hin'.
    destruct (Hall a Hin Hearned Hcrit) as [_ Hg].
    rewrite (existsb_held userId d a Hin') in Hearned. done.
  - intros a Hin Hcrit.
    destruct (existsb (Z.eqb (ach_id a)) (List.map ach_id (held_rows userId d)))
      eqn:Hearned.
    + rewrite (existsb_held userId d a Hin) in Hearned.
      rewrite Hs. by apply granted_app.
    + by apply (Hall a (proj2 (Hcat a) Hin) Hearned Hcrit).
Qed.

(** Every achievement the evaluator returns is a catalog entry the student
    did not hold, whose rule is satisfied by the statistics of the moment,
    and which the student holds afterwards. *)
Theorem evaluator_returns_new_grants userId d l d' a :
  Achievement.checkAndAwardAchievements userId d = (inr l, d') ->
  In a l ->
  In a (achievements d)
  /\ Achievement.granted userId (ach_id a) (user_achievements d) = false
  /\ Achievement.checkAchievementCriteria a (snapshot userId d) = true
  /\ Achievement.granted userId (ach_id a) (user_achievements d') = true.
Proof.
  unfold Achievement.checkAndAwardAchievements, try_catch. intros H Ha.
  destruct (Achievement.checkAndAward_body userId d) as [[e|l0] d0] eqn:E.
  - injection H as <- <-. destruct Ha.
  - injection H as <- <-.
    apply checkAndAward_body_inr in E as (_ & _ & Hall & _).
    rewrite List.Forall_forall in Hall. by apply Hall.
Qed.

(** At an input: student 7, who has completed Algebra, earns "First
    Steps". *)
Lemma evaluator_returns_new_grants_witness :
  resolved (Achievement.checkAndAwardAchievements 7 algebra_completed)
  = Some [first_steps]
  /\ Achievement.granted 7 1
       (user_achievements
          (Achievement.checkAndAwardAchievements 7 algebra_completed).2)
     = true.
Proof.
  split; [by vm_compute|].
  assert (Hrun : Achievement.checkAndAwardAchievements 7 algebra_completed
                 = (inr [first_steps],
                    (Achievement.checkAndAwardAchievements 7
                       algebra_completed).2)) by (by vm_compute).
  assert (Hin : In first_steps [first_steps]) by (by left).
  exact (proj2 (proj2 (proj2 (evaluator_returns_new_grants 7 algebra_completed
                                _ _ first_steps Hrun Hin)))).
Defined.

(** Whatever its outcome, the evaluator writes to the grants only: it
    appends to them, keeps them at one row per (user, achievement), and
    leaves points, progress, game scores and the catalog as they are. *)
Theorem evaluator_only_adds_grants userId d :
  unique_grants (user_achievements d) ->
  same_but_grants d (Achievement.checkAndAwardAchievements userId d).2
  /\ user_achievements d `prefix_of`
       user_achievements (Achievement.checkAndAwardAchievements userId d).2
  /\ unique_grants
       (user_achievements (Achievement.checkAndAwardAchievements userId d).2).
Proof.
  intros Hu.
  set (P := fun x : Db =>
              same_but_grants d x
              /\ user_achievements d `prefix_of` user_achievements x
              /\ unique_grants (user_achievements x)).
  assert (Hst : stable P) by (by intros fs x).
  apply (preserves_checkAndAward P userId Hst).
  - intros a. apply preserves_sql; [exact Hst|].
    intros x (Hs & Hp & Hux).
    destruct (Achievement.granted userId a (user_achievements x)) eqn:G;
      simpl; [done|].
    split; [exact Hs|]. split; [by apply prefix_app_r|].
    by apply unique_after_insert.
  - split; [done|]. split; [reflexivity | exact Hu].
Qed.

(** At an input: the evaluator on [algebra_completed]. *)
Lemma evaluator_only_adds_grants_witness :
  user_points (Achievement.checkAndAwardAchievements 7 algebra_completed).2
  = user_points algebra_completed.
Proof.
  assert (Hu : unique_grants (user_achievements algebra_completed)).
  { intros u a. unfold grants_of, count. simpl. lia. }
  exact (proj1 (proj1 (evaluator_only_adds_grants 7 algebra_completed Hu))).
Defined.

(** *** Running the evaluator twice *)

Lemma award_each_calm userId earnedIds userStats all new d :
  faults d = [] ->
  exists l d',
    Achievement.award_each userId earnedIds userStats all new d = (inr l, d')
    /\ faults d' = [].
Proof.
  revert new d. induction all as [|a all IH]; intros new d Hf; simpl.
  - by exists new, d.
  - destruct (existsb _ earnedIds); [by apply IH|].
    destruct (Achievement.checkAchievementCriteria a userStats); [|by apply IH].
    unfold await, Achievement.awardAchievement. rewrite sql_calm by done.
    apply IH.
    by destruct (Achievement.granted userId (ach_id a) (user_achievements d)).
Qed.

Lemma getUserStats_calm userId d :
  faults d = [] ->
  Achievement.getUserStats userId d = (inr (snapshot userId d), d).
Proof. destruct d as [up sp ac ua gs fl]. simpl. by intros ->. Qed.

Lemma checkAndAward_body_calm userId d :
  faults d = [] ->
  Achievement.checkAndAward_body userId d
  = Achievement.award_each userId (List.map ach_id (held_rows userId d))
      (snapshot userId d) (Achievement.order_catalog (achievements d)) [] d.
Proof.
  intros Hf. unfold Achievement.checkAndAward_body.
  unfold Achievement.getUserAchievements, Achievement.getAllAchievements.
  unfold await at 1. rewrite query_calm by done.
  unfold await at 1. rewrite getUserStats_calm by done.
  unfold await at 1. by rewrite query_calm by done.
Qed.

Lemma award_each_nothing userId earnedIds userStats all new d :
  (forall a, In a all ->
     existsb (Z.eqb (ach_id a)) earnedIds = true
     \/ Achievement.checkAchievementCriteria a userStats = false) ->
  Achievement.award_each userId earnedIds userStats all new d = (inr new, d).
Proof.
  intros H. induction all as [|a all IH]; simpl; [done|].
  destruct (H a (or_introl eq_refl)) as [-> | E].
  - apply IH. intros x Hx. apply H. by right.
  - destruct (existsb _ earnedIds); rewrite ?E; apply IH;
      intros x Hx; apply H; by right.
Qed.

Lemma snapshot_same userId d d' :
  same_but_grants d d' -> snapshot userId d' = snapshot userId d.
Proof.
  intros (E1 & E2 & E3 & _).
  unfold snapshot, Achievement.select_userPoints, select_user_points,
    Achievement.select_progressStats, Achievement.select_gameStats,
    Achievement.select_subjectProgress.
  by rewrite E1, E2, E3.
Qed.

(** On a store that does not fail, the evaluator run a second time finds
    nothing new and changes nothing: what the first run returned is held,
    and what it did not return still does not satisfy its rule. *)
Theorem evaluator_is_idempotent userId d l d' :
  faults d = [] ->
  Achievement.checkAndAwardAchievements userId d = (inr l, d') ->
  Achievement.checkAndAwardAchievements userId d' = (inr [], d').
Proof.
  intros Hf H.
  unfold Achievement.checkAndAwardAchievements, try_catch in H.
  pose proof (checkAndAward_body_calm userId d Hf) as Hbody.
  destruct (award_each_calm userId (List.map ach_id (held_rows userId d))
              (snapshot userId d) (Achievement.order_catalog (achievements d))
              [] d Hf) as (l0 & d0 & Hrun & Hf0).
  rewrite Hbody, Hrun in H. injection H as <- <-.
  rewrite <- Hbody in Hrun.
  apply checkAndAward_body_inr in Hrun as (Hsame & _ & _ & Hall).
  unfold Achievement.checkAndAwardAchievements, try_catch.
  rewrite (checkAndAward_body_calm userId d0 Hf0).
  rewrite award_each_nothing; [done|].
  intros a Ha.
  apply list_elem_of_In in Ha. rewrite order_catalog_perm in Ha.
  apply list_elem_of_In in Ha.
  rewrite (existsb_held userId d0 a Ha).
  rewrite (snapshot_same userId d d0 Hsame).
  destruct (Achievement.checkAchievementCriteria a (snapshot userId d)) eqn:Hc;
    [left | by right].
  apply Hall; [|done].
  destruct Hsame as (_ & _ & _ & <-). done.
Qed.

(** At an input: the evaluator twice on [algebra_completed]. *)
Lemma evaluator_is_idempotent_witness :
  resolved
    (Achievement.checkAndAwardAchievements 7
       (Achievement.checkAndAwardAchievements 7 algebra_completed).2)
  = Some [].
Proof.
  assert (Hrun : Achievement.checkAndAwardAchievements 7 algebra_completed
                 = (inr [first_steps],
                    (Achievement.checkAndAwardAchievements 7
                       algebra_completed).2)) by (by vm_compute).
  by rewrite (evaluator_is_idempotent 7 algebra_completed _ _ eq_refl Hrun).
Defined.

(** ** The replay sweep *)

(** A sync sweep replays nothing.  What [await store.getAll()] yields is
    the [IDBRequest]; the first [for] throws on it and the outer [catch] ends
    the call.  So whatever the events of the page (the connection coming and
    going, ticks of the timer, explicit syncs, steps of the running sweeps)
    and whatever their order, no request is sent and both queues keep every
    item. *)
Theorem sweeps_never_post_or_delete evs b :
  Client.sent (Client.run evs b) = Client.sent b
  /\ Client.offline_progress (Client.run evs b) = Client.offline_progress b
  /\ Client.offline_scores (Client.run evs b) = Client.offline_scores b
  /\ Client.syncOfflineData b = b.
Proof.
  destruct (run_keeps evs b) as (H1 & H2 & H3 & _).
  repeat split; try done. apply syncOfflineData_throws.
Qed.



(** ** Requests and submissions *)

(** A reply with status 401 clears the client's token, whichever way the
    request ends; no other reply and no network failure touches it. *)
Theorem expired_session_clears_token req ev rest b :
  Client.network b = ev :: rest ->
  (Client.fetched ev = Client.Responded 401 ->
   Client.authToken (Client.request req b).2 = None)
  /\ (Client.fetched ev <> Client.Responded 401 ->
      Client.authToken (Client.request req b).2 = Client.authToken b).
Proof.
  destruct b. simpl. intros ->. destruct ev as [[status|] online].
  - unfold Client.request, Client.fetch, Client.request_catch. simpl.
    destruct (Client.ok status) eqn:Hok; simpl.
    + split; [|done]. intros [= ->]. discriminate.
    + destruct (status =? 401) eqn:E; destruct online; simpl;
        split; try done;
        try (intros [= ->]; discriminate);
        intros Hne; apply Z.eqb_eq in E; subst; done.
  - unfold Client.request, Client.fetch, Client.request_catch. simpl.
    destruct online; simpl; split; done.
Qed.

(** At an input: the session has expired when the attempt is posted. *)
Lemma expired_session_clears_token_witness :
  Client.authToken
    (Client.request (Client.PostProgress full_attempt)
                    (back_online [session_expired])).2 = None.
Proof.
  exact (proj1 (expired_session_clears_token (Client.PostProgress full_attempt)
                  session_expired [] (back_online [session_expired]) eq_refl)
               eq_refl).
Defined.

(** A progress update submitted while the page is online is handed to
    [fetch] once and is never queued, also when it fails: a failed request
    ends in the exception of [request] and leaves both queues as they
    were. *)
Theorem online_submission_is_never_queued progressData ev rest b :
  Client.onLine b = true ->
  Client.network b = ev :: rest ->
  Client.offline_progress (Client.updateProgress progressData b).2
  = Client.offline_progress b
  /\ Client.offline_scores (Client.updateProgress progressData b).2
     = Client.offline_scores b
  /\ Client.sent (Client.updateProgress progressData b).2
     = Client.sent b ++ [Client.PostProgress progressData]
  /\ (fails_online ev = true ->
      (Client.updateProgress progressData b).1 = Client.Posted Client.Thrown).
Proof.
  destruct b. simpl. intros -> ->. destruct ev as [[status|] online].
  - unfold Client.updateProgress, Client.post, Client.request, Client.fetch,
      Client.request_catch, fails_online, answers_ok. simpl.
    destruct (Client.ok status) eqn:Hok; simpl.
    + repeat split; try done. rewrite andb_false_r. discriminate.
    + destruct (status =? 401); destruct online; simpl;
        repeat split; done.
  - unfold Client.updateProgress, Client.post, Client.request, Client.fetch,
      Client.request_catch, fails_online, answers_ok. simpl.
    destruct online; simpl; repeat split; done.
Qed.

(** At an input: the server is down when the attempt is submitted. *)
Lemma online_submission_is_never_queued_witness :
  (Client.updateProgress full_attempt (back_online [server_down])).1
  = Client.Posted Client.Thrown
  /\ Client.offline_progress
       (Client.updateProgress full_attempt (back_online [server_down])).2
     = [queued_attempt].
Proof.
  destruct (online_submission_is_never_queued full_attempt server_down []
              (back_online [server_down]) eq_refl eq_refl)
    as (Hq & _ & _ & Hthrown).
  split; [by apply Hthrown | exact Hq].
Defined.

(** What is saved offline stays there.  An update submitted while the
    page is offline is queued; whatever the later events of the page (the
    connection coming back, ticks of the timer, explicit syncs, steps of the
    running sweeps), it is still in the queue and no request has been sent
    for it. *)
Theorem offline_update_is_never_replayed progressData evs b :
  Client.onLine b = false ->
  Client.indexedDB_opens b = true ->
  In (Client.mkQueuedProgress (Client.progress_key b) progressData
                              (Client.authToken b))
     (Client.offline_progress
        (Client.run evs (Client.updateProgress progressData b).2))
  /\ Client.sent (Client.run evs (Client.updateProgress progressData b).2)
     = Client.sent b.
Proof.
  intros Hoff Hdb.
  destruct (updateProgress_offline progressData b Hoff Hdb) as (-> & Hq & Hs).
  simpl.
  destruct (run_keeps evs (Client.storeOfflineProgress progressData b))
    as (-> & -> & _).
  split; [|exact Hs]. rewrite Hq. apply List.in_or_app. right. by left.
Qed.

(** At an input: a second attempt saved while [still_offline]; the page
    comes back online and both of its sweeps run to their end. *)
Lemma offline_update_is_never_replayed_witness :
  In (Client.mkQueuedProgress 2 poor_attempt (Some "token"))
     (Client.offline_progress
        (Client.run [Client.OnlineEvent; Client.Resume 0; Client.Resume 1;
                     Client.Resume 0; Client.Resume 0]
                    (Client.updateProgress poor_attempt still_offline).2))
  /\ Client.sent
       (Client.run [Client.OnlineEvent; Client.Resume 0; Client.Resume 1;
                    Client.Resume 0; Client.Resume 0]
                   (Client.updateProgress poor_attempt still_offline).2)
     = [].
Proof.
  exact (offline_update_is_never_replayed poor_attempt
           [Client.OnlineEvent; Client.Resume 0; Client.Resume 1;
            Client.Resume 0; Client.Resume 0] still_offline eq_refl eq_refl).
Defined.

(** ** Reading the points back *)

(** The points a successful award resolves with are the points the next
    [GET /students/points] answers, and its [next_level_points] is the first
    multiple of 100 above the total. *)
Theorem awarded_points_are_read_back fuel today today' userId pointsToAdd
    subject d res d1 total level breakdown streak next d2 :
  updateUserPoints fuel today userId pointsToAdd subject d = (inr res, d1) ->
  get_points today' userId d1 = (PointsOk total level breakdown streak next, d2) ->
  total = pu_total_points res
  /\ level = pu_current_level res
  /\ breakdown = pu_subject_points res
  /\ streak = pu_daily_streak res
  /\ next = level * 100
  /\ next - 100 <= total < next.
Proof.
  intros Ha Hg. apply updateUserPoints_inr in Ha as [Hrow ->].
  unfold get_points in Hg.
  destruct (points_handler today' userId d1) as [[e|r] d3] eqn:E;
    [discriminate|]. injection Hg as -> ->.
  unfold points_handler in E.
  apply await_inr in E as (cur & d4 & Hq & E).
  apply query_inr in Hq as (fs & -> & ->).
  change (select_user_points userId (set_faults fs d1))
    with (select_user_points userId d1) in E.
  rewrite Hrow in E. injection E as <- <- <- <- <- _. simpl.
  repeat split; try done.
  - pose proof (Z.mul_div_le (total_points (found_account today userId d)
                              + pointsToAdd) 100). lia.
  - pose proof (Z.mul_succ_div_gt (total_points (found_account today userId d)
                                   + pointsToAdd) 100). lia.
Qed.

(** At an input: 25 points for the student who holds 180. *)
Lemma awarded_points_are_read_back_witness :
  let res := mkPointsUpdate 205 3 {["math" := 25]} 4 in
  let d1 := (updateUserPoints 2 100 7 25 "math" active_yesterday).2 in
  updateUserPoints 2 100 7 25 "math" active_yesterday = (inr res, d1)
  /\ get_points 100 7 d1
     = (PointsOk 205 3 {["math" := 25]} 4 300, (get_points 100 7 d1).2)
  /\ (205 = pu_total_points res
      /\ 3 = pu_current_level res
      /\ {["math" := 25]} = pu_subject_points res
      /\ 4 = pu_daily_streak res
      /\ 300 = 3 * 100
      /\ 300 - 100 <= 205 < 300).
Proof.
  intros res d1.
  assert (Ha : updateUserPoints 2 100 7 25 "math" active_yesterday
               = (inr res, d1)) by (by vm_compute).
  assert (Hg : get_points 100 7 d1
               = (PointsOk 205 3 {["math" := 25]} 4 300,
                  (get_points 100 7 d1).2)) by (by vm_compute).
  split; [exact Ha|]. split; [exact Hg|].
  exact (awarded_points_are_read_back _ _ _ _ _ _ _ _ _ _ _ _ _ _ _ Ha Hg).
Defined.

(** Reading the points never changes an account that exists: whatever the
    outcome, the row of a student who has one is found as before, the
    reader's own included. *)
Theorem reading_points_changes_no_account today studentId other d :
  select_user_points other d <> None ->
  select_user_points other (get_points today studentId d).2
  = select_user_points other d.
Proof.
  intros Hex. unfold get_points.
  assert (Hp : preserves
                 (fun x => select_user_points other x = select_user_points other d)
                 (points_handler today studentId)).
  { assert (Hst : stable (fun x => select_user_points other x
                                   = select_user_points other d))
      by (by intros fs x).
    unfold points_handler.
    apply preserves_await; [by apply preserves_query | intros [r|]].
    - apply preserves_resolve.
    - apply preserves_await; [|intros _; apply preserves_resolve].
      apply preserves_exec; [exact Hst|]. intros x Hx.
      destruct (select_user_points studentId x) eqn:E; [done|].
      rewrite <- Hx. unfold select_user_points in *. simpl.
      destruct (Z.eq_dec other studentId) as [->|Hne].
      + rewrite Hx in E. done.
      + apply find_app_other. simpl. apply Z.eqb_neq. congruence. }
  specialize (Hp d eq_refl).
  by destruct (points_handler today studentId d) as [[e|r] d1].
Qed.

(** At an input: student 8 reads the points; student 7 keeps the row. *)
Lemma reading_points_changes_no_account_witness :
  select_user_points 7 (get_points 100 8 active_yesterday).2
  = select_user_points 7 active_yesterday.
Proof.
  apply (reading_points_changes_no_account 100 8 7 active_yesterday).
  discriminate.
Defined.

(** ** Reading a game back *)

Lemma max_of_rev_app (prev : list Z) (s m : Z) :
  max_of (prev ++ [s]) = Some m ->
  max_of (List.rev (prev ++ [s])) = Some m.
Proof.
  intros H.
  destruct (max_of_with_new prev s) as (m1 & H1 & Hs1 & Hall1 & Hin1).
  rewrite H in H1. injection H1 as <-.
  rewrite List.rev_app_distr. simpl.
  destruct (fold_max_spec (List.rev prev) s) as (Hx & Hall & Hin).
  f_equal. apply Z.le_antisymm.
  - destruct Hin as [->|Hin]; [done|].
    apply List.in_rev in Hin. rewrite List.Forall_forall in Hall1.
    by apply Hall1.
  - destruct Hin1 as [->|Hin1]; [done|].
    rewrite List.Forall_forall in Hall. apply Hall. by apply List.in_rev in Hin1.
Qed.

(** A submitted score is read back: after a score submission answered with
    success, the configuration request for the same game reports as
    [highScore] the [bestScore] of the submission, and as many previous
    scores as the submission counted plays. *)
Theorem submitted_score_is_read_back userId subject gameId body d
    score pointsEarned isNewRecord best totalPlays d1
    gameId' subject' previousScores highScore d2 :
  Games.post_score userId subject gameId body d
  = (Games.Ok score pointsEarned isNewRecord (Some best) totalPlays, d1) ->
  get_game userId subject gameId d1
  = (GameOk gameId' subject' previousScores highScore, d2) ->
  highScore = best
  /\ Z.of_nat (length previousScores) = totalPlays
  /\ score <= highScore
  /\ In score (List.map gs_score previousScores).
Proof.
  intros Hp Hg.
  unfold Games.post_score in Hp.
  destruct (Games.valid body); [|discriminate].
  destruct (isIn subject subjects) eqn:Hsub; [|discriminate].
  destruct (Games.score_handler userId subject gameId body d) as [[e|r] dx] eqn:E;
    [discriminate|].
  injection Hp as -> ->.
  pose proof (score_handler_inr _ _ _ _ _ _ _ E) as (Hrows & _).
  apply score_handler_resolves in E. simpl in E.
  injection E as -> _ _ Hbest ->.
  unfold get_game in Hg. rewrite Hsub in Hg.
  destruct (isIn gameId gameConfigs || isIn gameId Object_prototype);
    [|discriminate].
  destruct (Games.getUserGameScores userId gameId d1) as [[e|rows] dy] eqn:Hq;
    [discriminate|].
  apply query_inr in Hq as (fs & -> & ->).
  injection Hg as _ _ <- <- _. simpl.
  rewrite Hrows, List.filter_app. simpl.
  rewrite Z.eqb_refl. rewrite (bool_decide_eq_true_2 (gameId = gameId)) by done.
  simpl.
  set (prevrows := List.filter _ (game_scores d)).
  assert (Hprev : List.map gs_score prevrows = previous_scores userId gameId d)
    by done.
  rewrite List.rev_app_distr. simpl.
  rewrite List.map_rev, Hprev.
  pose proof (max_of_rev_app (previous_scores userId gameId d)
                (Games.body_score body) best (eq_sym Hbest)) as Hmax.
  rewrite List.rev_app_distr in Hmax. simpl in Hmax. injection Hmax as Hmax.
  rewrite Hmax.
  destruct (max_of_with_new (previous_scores userId gameId d)
              (Games.body_score body)) as (m & Hm & Hs & _).
  rewrite <- Hbest in Hm. injection Hm as <-.
  split; [done|]. split.
  - rewrite List.length_rev, List.length_app, <- Hprev, List.length_map.
    simpl. lia.
  - split; [done | by left].
Qed.

(** At an input: the third play of [two_plays], read back. *)
Lemma submitted_score_is_read_back_witness :
  exists previousScores d2,
    get_game 7 "physics" "projectile-motion"
      (Games.post_score 7 "physics" "projectile-motion"
         (Games.mkScoreBody 95 None (Some 120)) two_plays).2
    = (GameOk "projectile-motion" "physics" previousScores 95, d2)
    /\ Z.of_nat (length previousScores) = 3.
Proof.
  set (d1 := (Games.post_score 7 "physics" "projectile-motion"
                (Games.mkScoreBody 95 None (Some 120)) two_plays).2).
  assert (Hp : Games.post_score 7 "physics" "projectile-motion"
                 (Games.mkScoreBody 95 None (Some 120)) two_plays
               = (Games.Ok 95 44 true (Some 95) 3, d1)) by (by vm_compute).
  assert (Hg : get_game 7 "physics" "projectile-motion" d1
               = (GameOk "projectile-motion" "physics"
                    (match (get_game 7 "physics" "projectile-motion" d1).1 with
                     | GameOk _ _ p _ => p
                     | _ => []
                     end) 95,
                  (get_game 7 "physics" "projectile-motion" d1).2))
    by (by vm_compute).
  destruct (submitted_score_is_read_back _ _ _ _ _ _ _ _ _ _ _ _ _ _ _ _ Hp Hg)
    as (_ & Hlen & _).
  eexists _, _. split; [exact Hg | exact Hlen].
Defined.
